(** * StereoPipeline: the offset estimator (lrojitreg) and the ISIS stereo session

    A shallow embedding of [lrojitreg.cc] (the streaming statistics class
    [RunningStandardDeviation], [determineShifts] and [main]) and of
    [src/Isis/StereoSessionIsis.cc] ([remove_duplicates],
    [determine_image_alignment] and the session hooks), followed by the
    properties of these functions.

    Conventions.
    - A C++ [int] is a [Z] kept in the 32-bit two's complement range by
      [wrap32]; increments and sums go through [int_add] and [int_sub].
    - A C++ [double] is a value of a type [D] carrying the operations of the
      class [DoubleOps].  Two instances are used: [float_ops], IEEE binary64
      (Rocq's primitive floats), and [Q_ops], exact rational arithmetic.
    - Console and log output is a list of structured lines; numbers are kept
      as values, not rendered as text.
    - Code of the Vision Workbench library and of other collaborators
      (correlation, interest points, RANSAC, image I/O) is a parameter. *)

From Stdlib Require Import ZArith QArith Qabs Qfield List Sorted String Ascii Bool Lia.
From Stdlib Require Import Uint63 Floats.PrimFloat.
From Stdlib Require Import Lqa.
From stdpp Require Import base option list gmap strings.
Import ListNotations.

Set Default Proof Using "Type".

(* ===================================================================== *)
(** * Part I: the model                                                   *)
(* ===================================================================== *)

(** ** Machine integers *)

Definition INT_MAX : Z := 2147483647.
Definition INT_MIN : Z := -2147483648.

(** Two's complement reduction of a mathematical integer to 32 bits. *)
Definition wrap32 (z : Z) : Z := ((z + 2147483648) mod 4294967296 - 2147483648)%Z.

Definition int_add (a b : Z) : Z := wrap32 (a + b).
Definition int_sub (a b : Z) : Z := wrap32 (a - b).

Definition in_int (z : Z) : Prop := (INT_MIN <= z <= INT_MAX)%Z.

(** The value of the [float] an [int] is converted to, as IEEE 754 binary32
    gives it under round to nearest, ties to even: an integer of up to 24
    significant bits is kept, a longer one is rounded to 24 bits. The value
    is again an integer, and a [double] holds it exactly. *)
Definition int_to_float (z : Z) : Z :=
  let a := Z.abs z in
  if (a <? 16777216)%Z then z
  else
    let e := (Z.log2 a - 23)%Z in
    let q := (a / 2 ^ e)%Z in
    let r := (a mod 2 ^ e)%Z in
    let half := (2 ^ (e - 1))%Z in
    let q' := if (half <? r)%Z || ((r =? half)%Z && Z.odd q) then (q + 1)%Z else q in
    (Z.sgn z * (q' * 2 ^ e))%Z.

(** ** Floating point numbers *)

(** The operations the programs perform on [double] values. [of_int] is the
    conversion of an [int] to [double]; [deqb], [dltb] and [dleb] are the
    comparisons [==], [<] and [<=]. *)
Class DoubleOps (D : Type) : Type := {
  dzero : D;
  dadd : D -> D -> D;
  dsub : D -> D -> D;
  dmul : D -> D -> D;
  ddiv : D -> D -> D;
  dsqrt : D -> D;
  of_int : Z -> D;
  deqb : D -> D -> bool;
  dltb : D -> D -> bool;
  dleb : D -> D -> bool
}.

Declare Scope double_scope.
Delimit Scope double_scope with D.
Infix "+" := dadd : double_scope.
Infix "-" := dsub : double_scope.
Infix "*" := dmul : double_scope.
Infix "/" := ddiv : double_scope.

(** Conversion of an integer below 2^63 in absolute value to binary64. *)
Definition float_of_Z (z : Z) : float :=
  match z with
  | Z0 => PrimFloat.zero
  | Zpos _ => PrimFloat.of_uint63 (Uint63.of_Z z)
  | Zneg p => PrimFloat.opp (PrimFloat.of_uint63 (Uint63.of_Z (Zpos p)))
  end.

(** IEEE binary64, the arithmetic the compiled program runs on. *)
Definition float_ops : DoubleOps float := {|
  dzero := PrimFloat.zero;
  dadd := PrimFloat.add;
  dsub := PrimFloat.sub;
  dmul := PrimFloat.mul;
  ddiv := PrimFloat.div;
  dsqrt := PrimFloat.sqrt;
  of_int := float_of_Z;
  deqb := PrimFloat.eqb;
  dltb := PrimFloat.ltb;
  dleb := PrimFloat.leb
|}.

(** Exact arithmetic on rationals, the idealisation in which the spec's
    formulas are read. A square root is not rational in general, so it is
    supplied from outside. *)
Definition Q_ops (sqrtQ : Q -> Q) : DoubleOps Q := {|
  dzero := 0%Q;
  dadd := Qplus;
  dsub := Qminus;
  dmul := Qmult;
  ddiv := Qdiv;
  dsqrt := sqrtQ;
  of_int := inject_Z;
  deqb := Qeq_bool;
  dltb := fun a b => negb (Qle_bool b a);
  dleb := Qle_bool
|}.

(** ** lrojitreg.cc: class RunningStandardDeviation *)

Section RunningStats.
Context {D : Type} {ops : DoubleOps D}.
Local Open Scope Z_scope.

(** The five data members. *)
Record RunningStandardDeviation : Type := mkRSD {
  m_n : Z;
  m_oldM : D;
  m_newM : D;
  m_oldS : D;
  m_newS : D
}.

(** The constructor initialises [m_n] only; the four doubles hold whatever
    the memory held, here the arguments. *)
Definition RunningStandardDeviation_new (g_oldM g_newM g_oldS g_newS : D)
  : RunningStandardDeviation :=
  {| m_n := 0; m_oldM := g_oldM; m_newM := g_newM;
     m_oldS := g_oldS; m_newS := g_newS |}.

Definition Clear (s : RunningStandardDeviation) : RunningStandardDeviation :=
  {| m_n := 0; m_oldM := m_oldM s; m_newM := m_newM s;
     m_oldS := m_oldS s; m_newS := m_newS s |}.

Definition Push (s : RunningStandardDeviation) (x : D) : RunningStandardDeviation :=
  let n := int_add (m_n s) 1 in
  if n =? 1 then
    {| m_n := n; m_oldM := x; m_newM := x; m_oldS := dzero; m_newS := m_newS s |}
  else
    let newM := (m_oldM s + (x - m_oldM s) / of_int n)%D in
    let newS := (m_oldS s + (x - m_oldM s) * (x - newM))%D in
    {| m_n := n; m_oldM := newM; m_newM := newM; m_oldS := newS; m_newS := newS |}.

Definition NumDataValues (s : RunningStandardDeviation) : Z := m_n s.

Definition Mean (s : RunningStandardDeviation) : D :=
  if 0 <? m_n s then m_newM s else dzero.

Definition Variance (s : RunningStandardDeviation) : D :=
  if 1 <? m_n s then (m_newS s / of_int (int_sub (m_n s) 1))%D else dzero.

Definition StandardDeviation (s : RunningStandardDeviation) : D :=
  dsqrt (Variance s).

(** A sequence of [Push] calls, first element first. *)
Definition pushes (xs : list D) (s : RunningStandardDeviation)
  : RunningStandardDeviation :=
  fold_left Push xs s.

(** What a client can read off an accumulator. *)
Definition observe (s : RunningStandardDeviation) : Z * D * D * D :=
  (NumDataValues s, Mean s, Variance s, StandardDeviation s).

(** The update as the specification words it: starting from count 0, mean 0
    and squared-deviation sum 0, each push does [n += 1],
    [mean += (x - mean) / n] and
    [sumSq += (x - oldMean) * (x - newMean)]. *)
Definition welford_step (st : Z * D * D) (x : D) : Z * D * D :=
  let '(n, mean, sumSq) := st in
  let n' := n + 1 in
  let mean' := (mean + (x - mean) / of_int n')%D in
  (n', mean', (sumSq + (x - mean) * (x - mean'))%D).

Definition welford (xs : list D) : Z * D * D :=
  fold_left welford_step xs (0, dzero, dzero).

Definition welford_mean (xs : list D) : D := snd (fst (welford xs)).

Definition welford_variance (xs : list D) : D :=
  let '(n, _, sumSq) := welford xs in
  if 1 <? n then (sumSq / of_int (n - 1))%D else dzero.

(** The state a push leaves: the cached old and new means coincide, the
    running sum of squared deviations is 0 after the first sample and is
    cached in both fields from the second on. *)
Definition settled (s : RunningStandardDeviation) : Prop :=
  m_newM s = m_oldM s /\
  (m_n s = 1 -> m_oldS s = dzero) /\
  (m_n s <> 1 -> m_newS s = m_oldS s).

End RunningStats.

Arguments RunningStandardDeviation D : clear implicits.

(** ** lrojitreg.cc: the offset estimator *)

(** [struct Parameters]. *)
Record Parameters {D : Type} : Type := mkParameters {
  leftFilePath : string;
  rightFilePath : string;
  rowLogFilePath : string;
  log : D;
  h_corr_min : Z;
  h_corr_max : Z;
  v_corr_min : Z;
  v_corr_max : Z;
  xkernel : Z;
  ykernel : Z;
  lrthresh : Z;
  correlator_type : Z;
  cropWidth : Z;
  usePyramid : bool
}.
Arguments Parameters D : clear implicits.

(** [stereo::CostFunctionType]. *)
Inductive CostFunctionType : Type :=
  | ABSOLUTE_DIFFERENCE
  | SQUARED_DIFFERENCE
  | CROSS_CORRELATION.

(** A cell of the disparity map, [PixelMask<Vector2i>]: a valid integer
    disparity (x, y), or an invalid cell. *)
Definition DisparityPixel : Type := option (Z * Z).

(** The disparity map by rows; [disparity_map(col,row)] is cell [col] of
    row [row]. *)
Definition DisparityMap : Type := list (list DisparityPixel).

(** Exceptions that cross the functions of the tool. *)
Inductive Exn : Type :=
  | ArgumentErr
  | IOErr (path : string)
  | OtherErr.

Inductive Outcome (A : Type) : Type :=
  | Returned (a : A)
  | Thrown (e : Exn).
Arguments Returned {A} a.
Arguments Thrown {A} e.

(** What [check_command_line] hands back: the options as parsed (with their
    defaults) and which of the named values were given. *)
Record CommandLine {D : Type} : Type := mkCommandLine {
  cl_opt : Parameters D;
  cl_count_left : bool;
  cl_count_right : bool;
  cl_count_pyramid : bool
}.
Arguments CommandLine D : clear implicits.

(** Everything the tool reads from outside itself. *)
Record Env {D : Type} : Type := mkEnv {
  (** [asp::check_command_line]; [None] when it throws. *)
  check_command_line : list string -> option (CommandLine D);
  (** [boost::filesystem::exists]. *)
  file_exists : string -> bool;
  (** [DiskImageView]: columns and rows of an image file; [None] when the
      file cannot be read as an image (the constructor throws). *)
  image_size : string -> option (Z * Z);
  (** [stereo::pyramid_correlate] and [stereo::correlate] on the two cropped
      strips, given the parameters and [leftCropStartX], [imageHeight]. They
      are taken to return: an exception of the correlator is not modelled. *)
  pyramid_correlate : Parameters D -> CostFunctionType -> Z -> Z -> DisparityMap;
  correlate : Parameters D -> CostFunctionType -> Z -> Z -> DisparityMap;
  (** Whether [std::ofstream::open] succeeds on a path. *)
  log_opens : string -> bool;
  (** The contents of variables that are read or passed on before anything
      was assigned to them, one value per variable. *)
  indeterminate : nat -> D
}.
Arguments Env D : clear implicits.

(** Lines printed on the console. *)
Inductive ConsoleLine {D : Type} : Type :=
  | ErrorInputMissing (path : string)
  | LoadingImages (l r : string)
  | InputImageSize (cols rows : Z)
  | DisparitySearchSize (width rows : Z)
  | RunningCorrelation
  | UsingPyramidSearch
  | UsingNonPyramidSearch
  | AccumulatingOffsets
  | FailedCreateLog (path : string)
  | CreatedLog (path : string)
  | ErrorNoValidMatches
  | ValidPixelsInRows (pixels rows : Z)
  | FailedParse
  | MeanSampleOffset (dX : D)
  | MeanLineOffset (dY : D)
  | CaughtError (e : Exn).
Arguments ConsoleLine D : clear implicits.

(** Lines of the row log. The fixed header is kept as the values it prints. *)
Inductive LogLine {D : Type} : Type :=
  | LogTitle
  | LogImageInfo (tag path : string)
      (lines samples sampOffset lowerRightSample lowerRightLine : Z)
  | LogRow (row : Z) (rowOffset colOffset : D)
  | LogRegistration (overlapWidth overlapHeight columns rows : Z)
      (algorithm : CostFunctionType)
  | LogAverages (sampleMean sampleStdDev lineMean lineStdDev : D)
  | LogAveragesNull.
Arguments LogLine D : clear implicits.

Section Lrojitreg.
Context {D : Type} {ops : DoubleOps D}.
Local Open Scope Z_scope.

(** State of the loop over the rows of the disparity map. *)
Record Accumulation : Type := mkAccumulation {
  numValidRows : Z;
  totalNumValidPixels : Z;
  stdCalcX : RunningStandardDeviation D;
  stdCalcY : RunningStandardDeviation D;
  rowOffsets : list D;
  colOffsets : list D;
  out : list (LogLine D)
}.

(** State of the loop over the cells of one row. *)
Record RowAccumulation : Type := mkRowAccumulation {
  rowSum : D;
  colSum : D;
  numValidInRow : Z;
  rowCalcX : RunningStandardDeviation D;
  rowCalcY : RunningStandardDeviation D
}.

(** Body of the inner loop, [for (col ...)]. The components of a valid cell
    are integers; each is stored in a [float] ([float dY], [float dX]), and
    that [float] is what is added to the [double] sums and pushed to the
    accumulators. *)
Definition accumulate_cell (a : RowAccumulation) (px : DisparityPixel)
  : RowAccumulation :=
  match px with
  | Some (x, y) =>
      let dY := of_int (int_to_float y) in
      let dX := of_int (int_to_float x) in
      {| rowSum := (rowSum a + dY)%D;
         colSum := (colSum a + dX)%D;
         numValidInRow := int_add (numValidInRow a) 1;
         rowCalcX := Push (rowCalcX a) dX;
         rowCalcY := Push (rowCalcY a) dY |}
  | None => a
  end.

(** Body of the outer loop, [for (row ...)]. *)
Definition accumulate_row (writeLogFile : bool) (row : Z)
    (cells : list DisparityPixel) (st : Accumulation) : Accumulation :=
  let a := fold_left accumulate_cell cells
             {| rowSum := dzero; colSum := dzero; numValidInRow := 0;
                rowCalcX := stdCalcX st; rowCalcY := stdCalcY st |} in
  let i := Z.to_nat row in
  let st1 :=
    if numValidInRow a =? 0 then
      {| numValidRows := numValidRows st;
         totalNumValidPixels := totalNumValidPixels st;
         stdCalcX := rowCalcX a; stdCalcY := rowCalcY a;
         rowOffsets := <[i := dzero]> (rowOffsets st);
         colOffsets := <[i := dzero]> (colOffsets st);
         out := out st |}
    else
      {| numValidRows := int_add (numValidRows st) 1;
         totalNumValidPixels := int_add (totalNumValidPixels st) (numValidInRow a);
         stdCalcX := rowCalcX a; stdCalcY := rowCalcY a;
         rowOffsets := <[i := (rowSum a / of_int (numValidInRow a))%D]> (rowOffsets st);
         colOffsets := <[i := (colSum a / of_int (numValidInRow a))%D]> (colOffsets st);
         out := out st |} in
  if writeLogFile then
    {| numValidRows := numValidRows st1;
       totalNumValidPixels := totalNumValidPixels st1;
       stdCalcX := stdCalcX st1; stdCalcY := stdCalcY st1;
       rowOffsets := rowOffsets st1; colOffsets := colOffsets st1;
       out := out st1 ++ [LogRow row (default dzero (rowOffsets st1 !! i))
                                   (default dzero (colOffsets st1 !! i))] |}
  else st1.

Fixpoint accumulate_rows (writeLogFile : bool) (row : Z)
    (rows : DisparityMap) (st : Accumulation) : Accumulation :=
  match rows with
  | [] => st
  | cells :: rest =>
      accumulate_rows writeLogFile (int_add row 1) rest
        (accumulate_row writeLogFile row cells st)
  end.

Definition cost_function (correlator_type : Z) : CostFunctionType :=
  if correlator_type =? 1 then SQUARED_DIFFERENCE
  else if correlator_type =? 2 then CROSS_CORRELATION
  else ABSOLUTE_DIFFERENCE.

(** The header written when the log is opened. *)
Definition log_header (params : Parameters D)
    (imageHeight imageWidth leftCropStartX rightCropStartX : Z)
  : list (LogLine D) :=
  [ LogTitle;
    LogImageInfo "FROM" (leftFilePath params) imageHeight imageWidth
      leftCropStartX (int_add leftCropStartX (cropWidth params)) imageHeight;
    LogImageInfo "MATCH" (rightFilePath params) imageHeight imageWidth
      rightCropStartX (int_add rightCropStartX (cropWidth params)) imageHeight ].

(** The registration block written after the rows. *)
Definition log_summary (params : Parameters D) (imageHeight : Z)
    (st : Accumulation) : list (LogLine D) :=
  [ LogRegistration (cropWidth params) imageHeight (xkernel params)
      (ykernel params) (cost_function (correlator_type params));
    if 0 <? numValidRows st then
      LogAverages (Mean (stdCalcX st)) (StandardDeviation (stdCalcX st))
                  (Mean (stdCalcY st)) (StandardDeviation (stdCalcY st))
    else LogAveragesNull ].

(** What a call of [determineShifts] leaves behind: what it returned or
    threw, the two reference parameters, the console and the log file
    ([None]: no log file was created). *)
Record Shifts : Type := mkShifts {
  result : Outcome bool;
  dX : D;
  dY : D;
  console : list (ConsoleLine D);
  logfile : option (list (LogLine D))
}.

(** [std::string::empty]. *)
Definition string_empty (s : string) : bool :=
  match s with EmptyString => true | String _ _ => false end.

(** [bool determineShifts(Parameters & params, double &dX, double &dY)];
    [dX0] and [dY0] are the values the two references hold at the call. *)
Definition determineShifts (env : Env D) (params : Parameters D) (dX0 dY0 : D)
  : Shifts :=
  if negb (file_exists env (leftFilePath params)) then
    {| result := Returned false; dX := dX0; dY := dY0;
       console := [ErrorInputMissing (leftFilePath params)];
       logfile := None |}
  else if negb (file_exists env (rightFilePath params)) then
    {| result := Returned false; dX := dX0; dY := dY0;
       console := [ErrorInputMissing (rightFilePath params)];
       logfile := None |}
  else
    let c1 := [LoadingImages (leftFilePath params) (rightFilePath params)] in
    match image_size env (leftFilePath params) with
    | None =>
        {| result := Thrown (IOErr (leftFilePath params)); dX := dX0; dY := dY0;
           console := c1; logfile := None |}
    | Some (lcols, lrows) =>
    match image_size env (rightFilePath params) with
    | None =>
        {| result := Thrown (IOErr (rightFilePath params)); dX := dX0; dY := dY0;
           console := c1; logfile := None |}
    | Some (rcols, rrows) =>
        let cols := Z.min lcols rcols in
        let rows := Z.min lrows rrows in
        let imageMidPointX := Z.quot cols 2 in
        let leftCropStartX := int_sub imageMidPointX (Z.quot (cropWidth params) 2) in
        let rightCropStartX := int_sub imageMidPointX (Z.quot (cropWidth params) 2) in
        let imageHeight := rows in
        let imageWidth := cols in
        let corr_type := cost_function (correlator_type params) in
        let c2 := c1 ++ [InputImageSize cols rows;
                         DisparitySearchSize (cropWidth params) rows;
                         RunningCorrelation] in
        let '(disparity_map, c3) :=
          if usePyramid params then
            (pyramid_correlate env params corr_type leftCropStartX imageHeight,
             c2 ++ [UsingPyramidSearch])
          else
            (correlate env params corr_type leftCropStartX imageHeight,
             c2 ++ [UsingNonPyramidSearch]) in
        let c4 := c3 ++ [AccumulatingOffsets] in
        let writeLogFile := negb (string_empty (rowLogFilePath params)) in
        if writeLogFile && negb (log_opens env (rowLogFilePath params)) then
          {| result := Returned false; dX := dX0; dY := dY0;
             console := c4 ++ [FailedCreateLog (rowLogFilePath params)];
             logfile := None |}
        else
          let c5 := if writeLogFile
                    then c4 ++ [CreatedLog (rowLogFilePath params)] else c4 in
          let out0 := if writeLogFile
                      then log_header params imageHeight imageWidth
                             leftCropStartX rightCropStartX
                      else [] in
          let g := indeterminate env in
          let st :=
            accumulate_rows writeLogFile 0 disparity_map
              {| numValidRows := 0; totalNumValidPixels := 0;
                 stdCalcX := RunningStandardDeviation_new (g 0%nat) (g 1%nat) (g 2%nat) (g 3%nat);
                 stdCalcY := RunningStandardDeviation_new (g 4%nat) (g 5%nat) (g 6%nat) (g 7%nat);
                 rowOffsets := replicate (length disparity_map) dzero;
                 colOffsets := replicate (length disparity_map) dzero;
                 out := out0 |} in
          let written :=
            if writeLogFile
            then Some (out st ++ log_summary params imageHeight st) else None in
          if numValidRows st =? 0 then
            {| result := Returned false; dX := dX0; dY := dY0;
               console := c5 ++ [ErrorNoValidMatches];
               logfile := written |}
          else
            let meanVertOffset := Mean (stdCalcY st) in
            let meanHorizOffset := Mean (stdCalcX st) in
            {| result := Returned true;
               dX := meanHorizOffset; dY := meanVertOffset;
               console := c5 ++ [ValidPixelsInRows (totalNumValidPixels st)
                                                   (numValidRows st)];
               logfile := written |}
    end
    end.

(** [bool handle_arguments(int argc, char* argv[], Parameters &opt)]: the
    value returned together with [opt] as it is left. *)
Definition handle_arguments (env : Env D) (argv : list string)
  : Outcome (bool * Parameters D) :=
  match check_command_line env argv with
  | None => Thrown ArgumentErr
  | Some vm =>
      let o := cl_opt vm in
      let opt :=
        {| leftFilePath := leftFilePath o; rightFilePath := rightFilePath o;
           rowLogFilePath := rowLogFilePath o; log := log o;
           h_corr_min := h_corr_min o; h_corr_max := h_corr_max o;
           v_corr_min := v_corr_min o; v_corr_max := v_corr_max o;
           xkernel := xkernel o; ykernel := ykernel o;
           lrthresh := lrthresh o; correlator_type := correlator_type o;
           cropWidth := cropWidth o;
           usePyramid := cl_count_pyramid vm |} in
      if negb (cl_count_left vm) || negb (cl_count_right vm)
      then Thrown ArgumentErr
      else Returned (true, opt)
  end.

(** Modelled from the spec: the macro [ASP_STANDARD_CATCHES] that closes the
    [try] block of [main] is defined outside the sources at hand. By the
    specification the top-level driver turns a failure nobody handled into
    a diagnostic and a non-zero outcome: the handler prints the error and
    [main] returns 1. *)
Definition ASP_STANDARD_CATCHES (e : Exn) : list (ConsoleLine D) * Z :=
  ([CaughtError e], 1).

(** A [bool] returned from a function whose return type is [int]. *)
Definition int_of_bool (b : bool) : Z := if b then 1 else 0.

(** [int main(int argc, char* argv[])]: what is printed, the log file left
    behind and the exit status. *)
Definition main (env : Env D) (argv : list string)
  : list (ConsoleLine D) * option (list (LogLine D)) * Z :=
  match handle_arguments env argv with
  | Thrown e =>
      let '(c, status) := ASP_STANDARD_CATCHES e in (c, None, status)
  | Returned (false, _) => ([FailedParse], None, int_of_bool false)
  | Returned (true, params) =>
      let r := determineShifts env params (indeterminate env 8%nat)
                 (indeterminate env 9%nat) in
      match result r with
      | Thrown e =>
          let '(c, status) := ASP_STANDARD_CATCHES e in
          (console r ++ c, logfile r, status)
      | Returned true =>
          (console r ++ [MeanSampleOffset (dX r); MeanLineOffset (dY r)],
           logfile r, 0)
      | Returned false => (console r, logfile r, 0)
      end
  end.
End Lrojitreg.
Arguments Accumulation D : clear implicits.
Arguments RowAccumulation D : clear implicits.
Arguments Shifts D : clear implicits.

(** ** src/Isis/StereoSessionIsis.cc *)

(** *** Vectors and matrices *)

Section LinearAlgebra.
Context {D : Type} {ops : DoubleOps D}.

(** [vw::Vector3]. *)
Definition Vector3 : Type := D * D * D.

(** [operator==] on vectors: all components compare equal. *)
Definition Vector3_eq (a b : Vector3) : bool :=
  let '(a0, a1, a2) := a in
  let '(b0, b1, b2) := b in
  deqb a0 b0 && deqb a1 b1 && deqb a2 b2.

(** [vw::Matrix<double>], by rows. *)
Definition Matrix : Type := list (list D).

Fixpoint row_eq (r1 r2 : list D) : bool :=
  match r1, r2 with
  | [], [] => true
  | a :: r1', b :: r2' => deqb a b && row_eq r1' r2'
  | _, _ => false
  end.

(** [operator==] on matrices: same shape and all entries compare equal. *)
Fixpoint Matrix_eq (m1 m2 : Matrix) : bool :=
  match m1, m2 with
  | [], [] => true
  | r1 :: m1', r2 :: m2' => row_eq r1 r2 && Matrix_eq m1' m2'
  | _, _ => false
  end.

Definition done : D := of_int 1.

(** [math::identity_matrix<3>()]. *)
Definition identity_matrix3 : Matrix :=
  [ [done; dzero; dzero]; [dzero; done; dzero]; [dzero; dzero; done] ].

(** [std::min] on doubles. *)
Definition std_min (a b : D) : D := if dltb b a then b else a.
End LinearAlgebra.
Arguments Vector3 D : clear implicits.
Arguments Matrix D : clear implicits.
Arguments Matrix_eq {D ops} m1 m2 : simpl never.

(** *** File names *)

(** [std::string::rfind] of a character, as the [int] the caller stores it
    in: the last position of [c] in [s], or -1. *)
Fixpoint rfind (c : ascii) (s : string) : Z :=
  match s with
  | EmptyString => (-1)%Z
  | String a rest =>
      let k := rfind c rest in
      if (k =? -1)%Z then (if Ascii.eqb a c then 0%Z else (-1)%Z) else (k + 1)%Z
  end.

Definition prefix_from_filename (filename : string) : string :=
  let result := filename in
  let index := rfind "."%char result in
  if negb (index =? -1)%Z then substring 0 (Z.to_nat index) result else result.

(** *** remove_duplicates *)

Section RemoveDuplicates.
Context {D : Type} {ops : DoubleOps D}.

(** The loop over [j]: [bad_entry] after the indices [js]. An access past
    the end of a vector has no defined behaviour: [None]. The [unsigned]
    loop counters are natural numbers: they count the entries of a vector
    held in memory. *)
Fixpoint duplicate_scan (ip1 ip2 : list (Vector3 D)) (i : nat) (js : list nat)
    (bad_entry : bool) : option bool :=
  match js with
  | [] => Some bad_entry
  | j :: js' =>
      if negb (Nat.eqb i j) then
        a ← ip1 !! i;
        b ← ip1 !! j;
        if Vector3_eq a b then duplicate_scan ip1 ip2 i js' true
        else
          c ← ip2 !! i;
          d ← ip2 !! j;
          if Vector3_eq c d then duplicate_scan ip1 ip2 i js' true
          else duplicate_scan ip1 ip2 i js' bad_entry
      else duplicate_scan ip1 ip2 i js' bad_entry
  end.

(** The loop over [i], with [new_ip1] and [new_ip2] as they grow. *)
Fixpoint duplicate_filter (ip1 ip2 : list (Vector3 D)) (pending : list nat)
    (new_ip1 new_ip2 : list (Vector3 D))
  : option (list (Vector3 D) * list (Vector3 D)) :=
  match pending with
  | [] => Some (new_ip1, new_ip2)
  | i :: pending' =>
      bad_entry ← duplicate_scan ip1 ip2 i (seq 0 (length ip1)) false;
      if negb bad_entry then
        a ← ip1 !! i;
        c ← ip2 !! i;
        duplicate_filter ip1 ip2 pending' (new_ip1 ++ [a]) (new_ip2 ++ [c])
      else duplicate_filter ip1 ip2 pending' new_ip1 new_ip2
  end.

(** [remove_duplicates(ip1, ip2)]: the two vectors as the call leaves them,
    or [None] when it reads past the end of [ip2]. *)
Definition remove_duplicates (ip1 ip2 : list (Vector3 D))
  : option (list (Vector3 D) * list (Vector3 D)) :=
  duplicate_filter ip1 ip2 (seq 0 (length ip1)) [] [].
End RemoveDuplicates.

(** *** Collaborators of the session *)

(** [PixelDisparity<float>] images: a cell is a disparity (h, v) or missing. *)
Definition DisparityImage (D : Type) : Type := list (list (option (D * D))).

(** The functions of Vision Workbench and ISIS the session calls. Images and
    interest points are theirs; the session only passes them on. Apart from
    [ransac] they are taken to return: their exceptions are not modelled. *)
Class VisionWorkbench (D : Type) : Type := {
  Image : Type;
  InterestPoint : Type;
  cols : Image -> Z;
  rows : Image -> Z;
  (** [DiskImageResourceGDAL::get_no_data_value(0)]. *)
  get_no_data_value : Image -> D;
  (** The transform of the georeference an image file carries, as the call
      [read_georeference] would deliver it. *)
  read_georeference : Image -> Matrix D;
  (** [isis_min_max_channel_values(create_mask(image, nodata), lo, hi)]. *)
  isis_min_max_channel_values : Image -> D -> D * D;
  remove_isis_special_pixels : Image -> D -> Image;
  normalize : Image -> D -> D -> D -> D -> Image;
  (** [transform(image, GeoTransform(src, dst))]. *)
  geo_transform : Image -> Matrix D -> Matrix D -> Image;
  crop : Image -> Z -> Z -> Z -> Z -> Image;
  (** [transform(image, HomographyTransform(m), cols, rows)]. *)
  homography_transform : Image -> Matrix D -> Z -> Z -> Image;
  channel_cast_rescale_uint8 : Image -> Image;
  detect_interest_points : Image -> list InterestPoint;
  (** [PatchDescriptorGenerator::operator()]. *)
  descriptor : Image -> list InterestPoint -> list InterestPoint;
  (** [InterestPointMatcher<L2NormMetric,NullConstraint>(0.8)]. *)
  matcher : list InterestPoint -> list InterestPoint
            -> list InterestPoint * list InterestPoint;
  iplist_to_vectorlist : list InterestPoint -> list (Vector3 D);
  (** [RandomSampleConsensus] with the homography functor; [None] when it
      throws. *)
  ransac : list (Vector3 D) -> list (Vector3 D) -> option (Matrix D);
  (** The point maps of [HomographyTransform(m)] and of
      [GeoTransform(src, dst)] that [transform_disparities] applies. *)
  homography_point : Matrix D -> D * D -> D * D;
  geo_point : Matrix D -> Matrix D -> D * D -> D * D
}.

Section Session.
Context {D : Type} {ops : DoubleOps D} {vw : VisionWorkbench D}.

(** *** The world a session runs in *)

(** What a file on disk holds. *)
Inductive File : Type :=
  | ImageFile (image : Image)
  | IpFile (ip : list InterestPoint)
  | MatchFile (ip1 ip2 : list InterestPoint)
  | MatrixFile (m : Matrix D)
  | DisparityFile (d : DisparityImage D).

(** Messages written to [vw_out]. *)
Inductive Message : Type :=
  | FoundCachedMatchFile (path : string)
  | FoundCachedIpFiles (path1 path2 : string)
  | LocatingInterestPoints
  | Processing (path : string)
  | Located (n : nat)
  | GeneratingDescriptors
  | DescriptorsDone
  | CachingInterestPoints (path1 path2 : string)
  | MatchingInterestPoints
  | CachingMatches (path : string)
  | PutativeMatches (n : nat)
  | RejectingOutliers
  | RemovedDuplicates (n : Z)
  | AlignMatrix (T : Matrix D)
  | AlignmentFailedWarning
  | ComputingMinMax (left_lo left_hi right_lo right_hi : D)
  | MapProjectedDetected
  | UnprojectedDetected
  | WritingPreAligned
  | AlignmentMatrixIs (m : Matrix D)
  | CouldNotReadAlignment (path : string).

(** What a session does that can be seen from outside, in order. *)
Inductive Event : Type :=
  | Say (m : Message)
  | OpenImage (path : string)
  | ReadBinaryMatchFile (path : string)
  | ReadBinaryIpFile (path : string)
  | WriteBinaryIpFile (path : string)
  | WriteBinaryMatchFile (path : string)
  | DetectInterestPoints (path : string)
  | GenerateDescriptors (path : string)
  | RunMatcher
  | RunRansac
  | WriteMatrix (path : string)
  | ReadMatrix (path : string)
  | WriteImage (path : string).

Record World : Type := mkWorld {
  files : gmap string File;
  events : list Event
}.

(** How a computation can end other than by returning: an exception, a call
    of [exit], or behaviour the language leaves undefined. *)
Inductive Stop : Type :=
  | Raised (e : Exn)
  | Exited (code : Z)
  | Undefined.

Inductive Step (A : Type) : Type :=
  | Done (a : A)
  | Stopped (s : Stop).
Arguments Done {A} a.
Arguments Stopped {A} s.

Definition Session (A : Type) : Type := World -> Step A * World.

#[export] Instance Session_ret : MRet Session := fun A a w => (Done a, w).

#[export] Instance Session_bind : MBind Session := fun A B f m w =>
  match m w with
  | (Done a, w') => f a w'
  | (Stopped s, w') => (Stopped s, w')
  end.

Definition emit (e : Event) : Session unit := fun w =>
  (Done tt, {| files := files w; events := events w ++ [e] |}).

Definition vw_out (m : Message) : Session unit := emit (Say m).

Definition throw {A : Type} (e : Exn) : Session A := fun w =>
  (Stopped (Raised e), w).

Definition exit {A : Type} (code : Z) : Session A := fun w =>
  (Stopped (Exited code), w).

Definition undefined {A : Type} : Session A := fun w => (Stopped Undefined, w).

(** [try { m } catch (...) { handler }]. *)
Definition try_catch_all {A : Type} (m handler : Session A) : Session A :=
  fun w =>
    match m w with
    | (Stopped (Raised _), w') => handler w'
    | r => r
    end.

(** [try { m } catch (vw::IOErr &e) { handler }]. *)
Definition try_catch_IOErr {A : Type} (m handler : Session A) : Session A :=
  fun w =>
    match m w with
    | (Stopped (Raised (IOErr _)), w') => handler w'
    | r => r
    end.

(** [boost::filesystem::exists]. *)
Definition fs_exists (path : string) : Session bool := fun w =>
  (Done (bool_decide (is_Some (files w !! path))), w).

Definition store (path : string) (f : File) : Session unit := fun w =>
  (Done tt, {| files := <[path := f]> (files w); events := events w |}).

Definition load (path : string) : Session (option File) := fun w =>
  (Done (files w !! path), w).

(** [DiskImageView<...>(path)] on an image file. *)
Definition DiskImageView (path : string) : Session Image :=
  emit (OpenImage path);;
  f ← load path;
  match f with
  | Some (ImageFile image) => mret image
  | _ => throw (IOErr path)
  end.

Definition read_binary_match_file (path : string)
  : Session (list InterestPoint * list InterestPoint) :=
  emit (ReadBinaryMatchFile path);;
  f ← load path;
  match f with
  | Some (MatchFile ip1 ip2) => mret (ip1, ip2)
  | _ => throw (IOErr path)
  end.

Definition read_binary_ip_file (path : string) : Session (list InterestPoint) :=
  emit (ReadBinaryIpFile path);;
  f ← load path;
  match f with
  | Some (IpFile ip) => mret ip
  | _ => throw (IOErr path)
  end.

Definition write_binary_ip_file (path : string) (ip : list InterestPoint)
  : Session unit :=
  emit (WriteBinaryIpFile path);; store path (IpFile ip).

Definition write_binary_match_file (path : string)
    (ip1 ip2 : list InterestPoint) : Session unit :=
  emit (WriteBinaryMatchFile path);; store path (MatchFile ip1 ip2).

Definition write_matrix (path : string) (m : Matrix D) : Session unit :=
  emit (WriteMatrix path);; store path (MatrixFile m).

Definition read_matrix (path : string) : Session (Matrix D) :=
  emit (ReadMatrix path);;
  f ← load path;
  match f with
  | Some (MatrixFile m) => mret m
  | _ => throw (IOErr path)
  end.

Definition write_image (path : string) (f : File) : Session unit :=
  emit (WriteImage path);; store path f.
End Session.

Arguments Done {A} a.
Arguments Stopped {A} s.
Arguments Message D : clear implicits.
Arguments Event D : clear implicits.
#[export] Existing Instance Session_ret.
#[export] Existing Instance Session_bind.

Section StereoSessionIsis.
Context {D : Type} {ops : DoubleOps D} {vw : VisionWorkbench D}.

(** [stereo_settings()], the flags the session consults. *)
Record StereoSettings : Type := mkStereoSettings {
  keypoint_alignment : bool;
  mask_flatfield : bool
}.

(** The data members of the session object the hooks use. *)
Record StereoSessionIsis : Type := mkStereoSessionIsis {
  m_out_prefix : string;
  m_left_image_file : string;
  m_right_image_file : string
}.

(** [vw::cartography::GeoReference], reduced to its transform. *)
Record GeoReference : Type := mkGeoReference {
  transform : Matrix D
}.

(** Modelled from the spec: the default constructor of [GeoReference]
    belongs to Vision Workbench. By the specification an image without a
    georeference is one whose transform is the identity, which is what a
    default-constructed object stands for. *)
Definition GeoReference_default : GeoReference :=
  {| transform := identity_matrix3 |}.

(** The worst case of [determine_image_alignment]: no interest point file
    is on disk. *)
Definition locate_interest_points (input_file1 input_file2 : string) (lo hi : D)
  : Session (list InterestPoint * list InterestPoint) :=
  vw_out LocatingInterestPoints;;
  left_disk_image ← DiskImageView input_file1;
  right_disk_image ← DiskImageView input_file2;
  let left_image :=
    normalize (remove_isis_special_pixels left_disk_image lo) lo hi dzero done in
  let right_image :=
    normalize (remove_isis_special_pixels right_disk_image lo) lo hi dzero done in
  vw_out (Processing input_file1);;
  emit (DetectInterestPoints input_file1);;
  let ip1 := detect_interest_points left_image in
  vw_out (Located (length ip1));;
  vw_out (Processing input_file2);;
  emit (DetectInterestPoints input_file2);;
  let ip2 := detect_interest_points right_image in
  vw_out (Located (length ip2));;
  vw_out GeneratingDescriptors;;
  emit (GenerateDescriptors input_file1);;
  let ip1 := descriptor left_image ip1 in
  emit (GenerateDescriptors input_file2);;
  let ip2 := descriptor right_image ip2 in
  vw_out DescriptorsDone;;
  vw_out (CachingInterestPoints (prefix_from_filename input_file1 +:+ ".vwip")
                                (prefix_from_filename input_file2 +:+ ".vwip"));;
  write_binary_ip_file (prefix_from_filename input_file1 +:+ ".vwip") ip1;;
  write_binary_ip_file (prefix_from_filename input_file2 +:+ ".vwip") ip2;;
  ip1_copy ← read_binary_ip_file (prefix_from_filename input_file1 +:+ ".vwip");
  ip2_copy ← read_binary_ip_file (prefix_from_filename input_file2 +:+ ".vwip");
  mret (ip1_copy, ip2_copy).

(** The first part of [determine_image_alignment], up to "End matching":
    [matched_ip1] and [matched_ip2]. *)
Definition matched_interest_points (input_file1 input_file2 : string) (lo hi : D)
  : Session (list InterestPoint * list InterestPoint) :=
  let match_file := prefix_from_filename input_file1 +:+ "__" +:+
                    prefix_from_filename input_file2 +:+ ".match" in
  found ← fs_exists match_file;
  if found : bool then
    vw_out (FoundCachedMatchFile match_file);;
    read_binary_match_file match_file
  else
    found1 ← fs_exists (prefix_from_filename input_file1 +:+ ".vwip");
    found2 ← (if found1 : bool
              then fs_exists (prefix_from_filename input_file2 +:+ ".vwip")
              else mret false);
    copies ←
      (if found2 : bool then
         vw_out (FoundCachedIpFiles (prefix_from_filename input_file1 +:+ ".vwip")
                                    (prefix_from_filename input_file2 +:+ ".vwip"));;
         ip1_copy ← read_binary_ip_file (prefix_from_filename input_file1 +:+ ".vwip");
         ip2_copy ← read_binary_ip_file (prefix_from_filename input_file2 +:+ ".vwip");
         mret (ip1_copy, ip2_copy)
       else locate_interest_points input_file1 input_file2 lo hi);
    vw_out MatchingInterestPoints;;
    emit RunMatcher;;
    let matched := matcher (fst copies) (snd copies) in
    vw_out (CachingMatches match_file);;
    write_binary_match_file match_file (fst matched) (snd matched);;
    mret matched.

(** The second part of [determine_image_alignment]: duplicates are culled
    and the homography is fitted. *)
Definition fit_alignment (matched_ip1 matched_ip2 : list InterestPoint)
  : Session (Matrix D) :=
  vw_out (PutativeMatches (length matched_ip1));;
  vw_out RejectingOutliers;;
  match remove_duplicates (iplist_to_vectorlist matched_ip1)
                          (iplist_to_vectorlist matched_ip2) with
  | None => undefined
  | Some (ransac_ip1, ransac_ip2) =>
      vw_out (RemovedDuplicates (Z.of_nat (length matched_ip1)
                                 - Z.of_nat (length ransac_ip1)));;
      try_catch_all
        (emit RunRansac;;
         match ransac ransac_ip2 ransac_ip1 with
         | Some T => vw_out (AlignMatrix T);; mret T
         | None => throw OtherErr
         end)
        (vw_out AlignmentFailedWarning;;
         mret identity_matrix3)
  end.

Definition determine_image_alignment (input_file1 input_file2 : string)
    (lo hi : D) : Session (Matrix D) :=
  matched ← matched_interest_points input_file1 input_file2 lo hi;
  fit_alignment (fst matched) (snd matched).

(** The [if] statement that ends [pre_preprocessing_hook], with the two
    georeference objects it tests. *)
Definition align_and_write (self : StereoSessionIsis) (settings : StereoSettings)
    (input_georef1 input_georef2 : GeoReference)
    (input_file1 input_file2 : string)
    (left_disk_image right_disk_image : Image) (lo hi : D)
    (output_file1 output_file2 : string) : Session unit :=
  if negb (Matrix_eq (transform input_georef1) identity_matrix3) &&
     negb (Matrix_eq (transform input_georef2) identity_matrix3)
  then
    vw_out MapProjectedDetected;;
    let common_georef := input_georef1 in
    let Limg :=
      normalize (remove_isis_special_pixels left_disk_image lo) lo hi dzero done in
    let Rimg :=
      crop (geo_transform
              (normalize (remove_isis_special_pixels right_disk_image lo)
                 lo hi dzero done)
              (transform input_georef2) (transform common_georef))
           0 0 (cols left_disk_image) (rows left_disk_image) in
    write_image output_file1 (ImageFile (channel_cast_rescale_uint8 Limg));;
    write_image output_file2 (ImageFile (channel_cast_rescale_uint8 Rimg))
  else
    vw_out UnprojectedDetected;;
    align_matrix ←
      (if keypoint_alignment settings
       then determine_image_alignment input_file1 input_file2 lo hi
       else mret identity_matrix3);
    write_matrix (m_out_prefix self +:+ "-align.exr") align_matrix;;
    let Limg :=
      normalize (remove_isis_special_pixels left_disk_image lo) lo hi dzero done in
    let Rimg :=
      homography_transform
        (normalize (remove_isis_special_pixels right_disk_image lo)
           lo hi dzero done)
        align_matrix (cols left_disk_image) (rows left_disk_image) in
    vw_out WritingPreAligned;;
    write_image output_file1 (ImageFile (channel_cast_rescale_uint8 Limg));;
    write_image output_file2 (ImageFile (channel_cast_rescale_uint8 Rimg)).

(** [pre_preprocessing_hook]: returns [output_file1] and [output_file2].
    The two georeference objects are default-constructed; the code that
    would fill them from the input files is commented out. *)
Definition pre_preprocessing_hook (self : StereoSessionIsis)
    (settings : StereoSettings) (input_file1 input_file2 : string)
  : Session (string * string) :=
  left_disk_image ← DiskImageView input_file1;
  right_disk_image ← DiskImageView input_file2;
  let output_file1 := m_out_prefix self +:+ "-L.tif" in
  let output_file2 := m_out_prefix self +:+ "-R.tif" in
  let left_nodata := get_no_data_value left_disk_image in
  let right_nodata := get_no_data_value right_disk_image in
  let input_georef1 := GeoReference_default in
  let input_georef2 := GeoReference_default in
  let left_range := isis_min_max_channel_values left_disk_image left_nodata in
  let right_range := isis_min_max_channel_values right_disk_image right_nodata in
  vw_out (ComputingMinMax (fst left_range) (snd left_range)
                          (fst right_range) (snd right_range));;
  let lo := std_min (fst left_range) (fst right_range) in
  let hi := std_min (snd left_range) (snd right_range) in
  align_and_write self settings input_georef1 input_georef2
    input_file1 input_file2 left_disk_image right_disk_image lo hi
    output_file1 output_file2;;
  mret (output_file1, output_file2).

(** [DiskImageView<PixelDisparity<float> >(path)]. *)
Definition DiskDisparityView (path : string) : Session (DisparityImage D) :=
  emit (OpenImage path);;
  f ← load path;
  match f with
  | Some (DisparityFile d) => mret d
  | _ => throw (IOErr path)
  end.

(** Modelled from the spec: [stereo::disparity::transform_disparities] is a
    function of Vision Workbench. By the specification it applies the
    coordinate transform to every disparity vector: the target of the cell
    at (col, row) with disparity (h, v) is (col + h, row + v); the
    transformed disparity points from the cell to the image of the target.
    Missing cells stay missing. *)
Definition transform_disparities (f : D * D -> D * D) (d : DisparityImage D)
  : DisparityImage D :=
  imap (fun row cells =>
    imap (fun col px =>
      match px with
      | Some (h, v) =>
          let c := of_int (Z.of_nat col) in
          let r := of_int (Z.of_nat row) in
          let t := f ((c + h)%D, (r + v)%D) in
          Some ((fst t - c)%D, (snd t - r)%D)
      | None => None
      end) cells) d.

(** A target coordinate within the pixel bounds of an image of the given
    size. *)
Definition in_bounds (width height : Z) (x y : D) : bool :=
  dleb dzero x && dltb x (of_int width) &&
  dleb dzero y && dltb y (of_int height).

(** Modelled from the spec: [stereo::disparity::remove_invalid_pixels] is a
    function of Vision Workbench. By the specification it marks invalid
    every disparity vector whose target coordinate falls outside the pixel
    bounds of the second image, and leaves the others. *)
Definition remove_invalid_pixels (d : DisparityImage D) (width height : Z)
  : DisparityImage D :=
  imap (fun row cells =>
    imap (fun col px =>
      match px with
      | Some (h, v) =>
          if in_bounds width height (of_int (Z.of_nat col) + h)%D
                                     (of_int (Z.of_nat row) + v)%D
          then Some (h, v) else None
      | None => None
      end) cells) d.

(** [pre_pointcloud_hook]: returns [output_file]. *)
Definition pre_pointcloud_hook (self : StereoSessionIsis) (input_file : string)
  : Session string :=
  disparity_map ← DiskDisparityView input_file;
  let output_file := m_out_prefix self +:+ "-F-corrected.exr" in
  let input_georef1 := GeoReference_default in
  let input_georef2 := GeoReference_default in
  result ←
    (if negb (Matrix_eq (transform input_georef1) identity_matrix3) &&
        negb (Matrix_eq (transform input_georef2) identity_matrix3)
     then
       vw_out MapProjectedDetected;;
       mret (transform_disparities
               (geo_point (transform input_georef2) (transform input_georef1))
               disparity_map)
     else
       vw_out UnprojectedDetected;;
       align_matrix ←
         try_catch_IOErr
           (m ← read_matrix (m_out_prefix self +:+ "-align.exr");
            vw_out (AlignmentMatrixIs m);;
            mret m)
           (vw_out (CouldNotReadAlignment (m_out_prefix self +:+ "-align.exr"));;
            exit 1);
       let result := transform_disparities (homography_point align_matrix)
                       disparity_map in
       right_disk_image ← DiskImageView (m_right_image_file self);
       mret (remove_invalid_pixels result (cols right_disk_image)
                                          (rows right_disk_image)));
  write_image output_file (DisparityFile result);;
  mret output_file.
End StereoSessionIsis.

(** *** pre_filtering_hook *)

(** The functions of Vision Workbench the masking of the filtering stage
    calls, besides those of [VisionWorkbench]. *)
Class DisparityMasking (D : Type) {vw : VisionWorkbench D} : Type := {
  (** [clamp(image, low, high)]. *)
  clamp : Image -> D -> D -> Image;
  (** [disparity::mask_black_pixels(image, mask)]: the mask as the call
      leaves it. *)
  mask_black_pixels : Image -> Image -> Image;
  (** [disparity::mask(disparity_map, left_mask, right_mask)]. *)
  disparity_mask : DisparityImage D -> Image -> Image -> DisparityImage D
}.

Section Filtering.
Context {D : Type} {ops : DoubleOps D} {vw : VisionWorkbench D}
        {masking : DisparityMasking D}.

(** What the filtering stage does that can be seen from outside: the events
    of a session and two more, the notice that pixels are masked and the
    tile size chosen for the output file. *)
Inductive FilterEvent : Type :=
  | SessionEvent (e : Event D)
  | SayMaskingPixels
  | SetTiledWrite (path : string) (tile_cols tile_rows : Z).

(** A session whose events are recorded, in order, together with those two. *)
Definition FilterSession (A : Type) : Type :=
  World * list FilterEvent -> Step A * (World * list FilterEvent).

#[export] Instance FilterSession_ret : MRet FilterSession :=
  fun A a st => (Done a, st).

#[export] Instance FilterSession_bind : MBind FilterSession := fun A B f m st =>
  match m st with
  | (Done a, st') => f a st'
  | (Stopped s, st') => (Stopped s, st')
  end.

(** A computation of the session runs as it does; the events it adds are
    recorded. *)
Definition lift {A : Type} (m : Session A) : FilterSession A := fun st =>
  let '(r, w') := m (fst st) in
  (r, (w', snd st ++ map SessionEvent (drop (length (events (fst st))) (events w')))).

Definition note (e : FilterEvent) : FilterSession unit := fun st =>
  (Done tt, (fst st, snd st ++ [e])).

(** Columns and rows of a disparity image. *)
Definition disparity_cols (d : DisparityImage D) : Z :=
  Z.of_nat (length (hd [] d)).

Definition disparity_rows (d : DisparityImage D) : Z := Z.of_nat (length d).

(** [pre_filtering_hook]: returns [output_file]. [read_image] opens an image
    file as [DiskImageView] does. *)
Definition pre_filtering_hook (self : StereoSessionIsis)
    (settings : StereoSettings) (input_file : string) : FilterSession string :=
  let output_file := input_file in
  if mask_flatfield settings then
    note SayMaskingPixels;;
    let output_file := m_out_prefix self +:+ "-R-masked.exr" in
    left_disk_image ← lift (DiskImageView (m_left_image_file self));
    right_disk_image ← lift (DiskImageView (m_right_image_file self));
    Lmask ← lift (DiskImageView (m_out_prefix self +:+ "-lMask.tif"));
    Rmask ← lift (DiskImageView (m_out_prefix self +:+ "-rMask.tif"));
    let Lmask :=
      mask_black_pixels (clamp left_disk_image dzero (of_int 1000000)) Lmask in
    let Rmask :=
      mask_black_pixels (clamp right_disk_image dzero (of_int 1000000)) Rmask in
    lift (write_image (m_out_prefix self +:+ "-lMaskDebug.tif") (ImageFile Lmask));;
    lift (write_image (m_out_prefix self +:+ "-rMaskDebug.tif") (ImageFile Rmask));;
    disparity_disk_image ← lift (DiskDisparityView input_file);
    let disparity_map := disparity_mask disparity_disk_image Lmask Rmask in
    note (SetTiledWrite output_file
            (Z.min 512 (disparity_cols disparity_map))
            (Z.min 512 (disparity_rows disparity_map)));;
    lift (write_image output_file (DisparityFile disparity_map));;
    mret output_file
  else mret output_file.
End Filtering.
#[export] Existing Instance FilterSession_ret.
#[export] Existing Instance FilterSession_bind.

(** *** camera_model *)

(** [std::tolower] in the "C" locale, which [boost::to_lower_copy] applies
    to every character: the letters A to Z are mapped to a to z, every other
    character stays. *)
Definition to_lower (c : ascii) : ascii :=
  let n := nat_of_ascii c in
  if (65 <=? n)%nat && (n <=? 90)%nat then ascii_of_nat (n + 32) else c.

Fixpoint to_lower_copy (s : string) : string :=
  match s with
  | EmptyString => EmptyString
  | String c rest => String (to_lower c) (to_lower_copy rest)
  end.

(** [boost::ends_with]: [test] is a suffix of [input]. *)
Definition ends_with (input test : string) : bool :=
  let n := String.length input in
  let m := String.length test in
  (m <=? n)%nat && String.eqb (substring (n - m) m input) test.

(** What the session needs to read the adjustment equations of a camera
    file: input streams and [read_equation], which belong to the C++
    library and to the camera code. *)
Class EquationReader : Type := {
  Stream : Type;
  BaseEquation : Type;
  (** [std::ifstream input(path)]; a file that does not open gives a stream
      in the failed state. *)
  ifstream : string -> Stream;
  (** [read_equation(input, eq)]: the equation read and the stream after
      it, or the exception thrown. *)
  read_equation : Stream -> Outcome (BaseEquation * Stream)
}.

Section CameraModel.
Context {reader : EquationReader}.

(** The camera model objects the session constructs, by their constructor
    and its arguments. *)
Inductive CameraModel : Type :=
  | IsisAdjustCameraModel (image_file : string) (posF poseF : BaseEquation)
  | IsisCameraModel (image_file : string).

Inductive CameraMessage : Type :=
  | UsingAdjustedIsisCameraModel (camera_file : string)
  | UsingStandardIsisCameraModel (image_file : string).

(** [StereoSessionIsis::camera_model]: what is printed and the camera model
    returned, or the exception that ends the call. *)
Definition camera_model (image_file camera_file : string)
  : list CameraMessage * Outcome CameraModel :=
  if ends_with (to_lower_copy camera_file) ".isis_adjust" then
    let said := [UsingAdjustedIsisCameraModel camera_file] in
    let input := ifstream camera_file in
    match read_equation input with
    | Thrown e => (said, Thrown e)
    | Returned (posF, input) =>
        match read_equation input with
        | Thrown e => (said, Thrown e)
        | Returned (poseF, input) =>
            (said, Returned (IsisAdjustCameraModel image_file posF poseF))
        end
    end
  else
    ([UsingStandardIsisCameraModel image_file],
     Returned (IsisCameraModel image_file)).
End CameraModel.


(** ** Sample data of the specification *)

(** The samples 2, 4, 4, 4, 5, 5, 7, 9 of the specification's example. *)
Definition spec_samples : list Z := [2; 4; 4; 4; 5; 5; 7; 9]%Z.

Definition spec_doubles {D : Type} {ops : DoubleOps D} : list D := map of_int spec_samples.

(** The running sum of squared deviations an accumulator holds. After the
    first push it is kept in [m_oldS]; [m_newS] is a copy from the second
    push on. *)
Definition SumSq {D : Type} (s : RunningStandardDeviation D) : D := m_oldS s.

(** The sum of a list of rationals. *)
Definition Qsum (xs : list Q) : Q := fold_right Qplus 0%Q xs.

(** The state of the code on exact rationals and the triple of the
    specification's recurrence agree. *)
Definition tracks (s : RunningStandardDeviation Q) (w : Z * Q * Q) : Prop :=
  m_n s = fst (fst w) /\ (m_oldM s == snd (fst w))%Q /\ (m_oldS s == snd w)%Q.

(** ** What the offset estimator is expected to compute *)

Section OffsetReadings.
Context {D : Type} {ops : DoubleOps D}.

(** The valid cells of a row, in column order. *)
Definition valid_cells (cells : list DisparityPixel) : list (Z * Z) :=
  omap (fun px : DisparityPixel => px) cells.

(** The horizontal and the vertical samples of a row: the components of its
    valid cells as the [float] the loop stores them in, taken as doubles. *)
Definition samples_x (cells : list DisparityPixel) : list D :=
  map (fun p => of_int (int_to_float (fst p))) (valid_cells cells).

Definition samples_y (cells : list DisparityPixel) : list D :=
  map (fun p => of_int (int_to_float (snd p))) (valid_cells cells).

(** Every component of the valid cells of a row has at most 24 significant
    bits, as the disparities within a search window have. *)
Definition single_precision (cells : list DisparityPixel) : Prop :=
  Forall (fun p : Z * Z => (Z.abs (fst p) <= 16777216)%Z /\
                           (Z.abs (snd p) <= 16777216)%Z) (valid_cells cells).

(** All samples of a map in the order the cells are visited: row by row,
    each row by columns. *)
Definition all_samples_x (dm : DisparityMap) : list D := concat (map samples_x dm).
Definition all_samples_y (dm : DisparityMap) : list D := concat (map samples_y dm).

(** A sum accumulated from 0.0, first element first. *)
Definition dsum (xs : list D) : D := fold_left dadd xs dzero.

(** The mean of the samples of one row: their sum over their number, and 0
    for a row without samples. *)
Definition row_mean (xs : list D) : D :=
  match xs with
  | [] => dzero
  | _ :: _ => (dsum xs / of_int (Z.of_nat (length xs)))%D
  end.

Definition has_valid_cell (cells : list DisparityPixel) : bool :=
  existsb (fun px : DisparityPixel => bool_decide (is_Some px)) cells.

(** The number of rows with at least one valid cell. *)
Definition valid_rows (dm : DisparityMap) : nat :=
  length (filter (fun cells => has_valid_cell cells = true) dm).

(** The lines of the row log for the rows of [dm], the first of which has
    index [row]. *)
Fixpoint row_lines (row : Z) (dm : DisparityMap) : list (LogLine D) :=
  match dm with
  | [] => []
  | cells :: rest =>
      LogRow row (row_mean (samples_y cells)) (row_mean (samples_x cells))
        :: row_lines (row + 1) rest
  end.

(** The mean of the per-row means of the rows that have a valid cell (the
    computation the source has commented out). *)
Definition mean_of_row_means (sample : list DisparityPixel -> list D)
    (dm : DisparityMap) : D :=
  let means := map (fun cells => row_mean (sample cells))
                   (filter (fun cells => has_valid_cell cells = true) dm) in
  (dsum means / of_int (Z.of_nat (length means)))%D.

(** The numbers of rows and of columns fit an [int], as the dimensions of an
    image do. *)
Definition fits_int (dm : DisparityMap) : Prop :=
  (Z.of_nat (length dm) <= INT_MAX)%Z /\
  Forall (fun cells : list DisparityPixel => (Z.of_nat (length cells) <= INT_MAX)%Z) dm.

(** The disparity map a call of [determineShifts] obtains from the
    correlator: both input files exist and load. *)
Definition correlated (env : Env D) (params : Parameters D) : option DisparityMap :=
  if file_exists env (leftFilePath params) && file_exists env (rightFilePath params)
  then
    match image_size env (leftFilePath params),
          image_size env (rightFilePath params) with
    | Some (lcols, lrows), Some (rcols, rrows) =>
        let leftCropStartX :=
          int_sub (Z.quot (Z.min lcols rcols) 2) (Z.quot (cropWidth params) 2) in
        let corr_type := cost_function (correlator_type params) in
        Some (if usePyramid params
              then pyramid_correlate env params corr_type leftCropStartX
                     (Z.min lrows rrows)
              else correlate env params corr_type leftCropStartX
                     (Z.min lrows rrows))
    | _, _ => None
    end
  else None.

(** No row log is asked for, or the log file opens. *)
Definition log_ready (env : Env D) (params : Parameters D) : bool :=
  string_empty (rowLogFilePath params) || log_opens env (rowLogFilePath params).

(** A call ends in the "no valid matches" failure: it returns [false] after
    printing that diagnostic last, and leaves the two offsets as they were. *)
Definition fails_NoValidMatches (r : Shifts D) (dX0 dY0 : D) : Prop :=
  result r = Returned false /\
  last (console r) = Some ErrorNoValidMatches /\
  dX r = dX0 /\ dY r = dY0.
End OffsetReadings.

(** ** Sample runs *)

(** The options of the tool with their default values; [sigma] stands for
    1.4, the default of [log]. *)
Definition default_parameters {D : Type} (sigma : D)
    (leftPath rightPath rowLog : string) : Parameters D := {|
  leftFilePath := leftPath; rightFilePath := rightPath; rowLogFilePath := rowLog;
  log := sigma;
  h_corr_min := -30; h_corr_max := 30; v_corr_min := -5; v_corr_max := 5;
  xkernel := 15; ykernel := 15; lrthresh := 2; correlator_type := 0;
  cropWidth := 300; usePyramid := false
|}.

(** An environment in which every file but [missing.cub] exists, images are
    5064 samples wide, the correlator yields [dm], the log file opens or not
    as [can_log] says, and uninitialised variables hold [junk]. The command
    line is [lrojitreg <left> <right>], optionally followed by the path of
    the row log. *)
Definition sample_env {D : Type} (sigma junk : D) (dm : DisparityMap)
    (can_log : bool) : Env D := {|
  check_command_line := fun argv =>
    match argv with
    | [_; leftPath; rightPath] =>
        Some {| cl_opt := default_parameters sigma leftPath rightPath "";
                cl_count_left := true; cl_count_right := true;
                cl_count_pyramid := false |}
    | [_; leftPath; rightPath; rowLog] =>
        Some {| cl_opt := default_parameters sigma leftPath rightPath rowLog;
                cl_count_left := true; cl_count_right := true;
                cl_count_pyramid := false |}
    | _ => None
    end;
  file_exists := fun path => negb (String.eqb path "missing.cub");
  image_size := fun _ => Some (5064, Z.of_nat (length dm))%Z;
  pyramid_correlate := fun _ _ _ _ => dm;
  correlate := fun _ _ _ _ => dm;
  log_opens := fun _ => can_log;
  indeterminate := fun _ => junk
|}.

(** The same on binary64, with the [float] nearest to 1.4, and on exact
    rationals. *)
Definition float_env (dm : DisparityMap) (can_log : bool) : Env float :=
  sample_env 0x1.666666p+0%float 7%float dm can_log.

Definition Q_env (dm : DisparityMap) (can_log : bool) : Env Q :=
  sample_env (14 # 10)%Q (7 # 1)%Q dm can_log.

(** The parameters [handle_arguments] delivers for these command lines. *)
Definition float_parameters (leftPath rightPath rowLog : string) : Parameters float :=
  default_parameters 0x1.666666p+0%float leftPath rightPath rowLog.

Definition Q_parameters (leftPath rightPath rowLog : string) : Parameters Q :=
  default_parameters (14 # 10)%Q leftPath rightPath rowLog.

(** A map whose rows hold one and two valid cells. *)
Definition two_rows : DisparityMap :=
  [ [Some (0, 0); None]; [Some (3, 6); Some (3, 6)] ]%Z.

(** A map without any valid cell. *)
Definition no_matches : DisparityMap := [ [None; None]; [None; None] ].

(** A map with one cell whose components need 25 significant bits. *)
Definition wide_cell : DisparityMap := [ [Some (16777217, -16777217)] ]%Z.

(** Runs of [determineShifts] on binary64 with the inputs [left.cub] and
    [right.cub], the row log [rows.log] that opens or not, and the offsets
    holding 0 at the call. *)
Definition logged_run (dm : DisparityMap) (can_log : bool) : Shifts float :=
  determineShifts (ops := float_ops) (float_env dm can_log)
    (float_parameters "left.cub" "right.cub" "rows.log")
    PrimFloat.zero PrimFloat.zero.

(** The same without a row log. *)
Definition plain_run (dm : DisparityMap) : Shifts float :=
  determineShifts (ops := float_ops) (float_env dm true)
    (float_parameters "left.cub" "right.cub" "")
    PrimFloat.zero PrimFloat.zero.

(** The lines of a row log that report a row. *)
Definition is_row_line {D : Type} (line : LogLine D) : bool :=
  match line with
  | LogRow _ _ _ => true
  | _ => false
  end.

(** A run on exact rationals, without a row log. *)
Definition exact_run (dm : DisparityMap) : Shifts Q :=
  determineShifts (ops := Q_ops (fun q => q)) (Q_env dm true)
    (Q_parameters "left.cub" "right.cub" "") 0%Q 0%Q.

(** ** What [remove_duplicates] is expected to keep *)

Section Duplicates.
Context {D : Type} {ops : DoubleOps D}.

(** The entries [i] and [j] share an endpoint: their coordinates compare
    equal in the first or in the second sequence. *)
Definition shares (ip1 ip2 : list (Vector3 D)) (i j : nat) : bool :=
  match ip1 !! i, ip1 !! j, ip2 !! i, ip2 !! j with
  | Some a, Some b, Some c, Some d => Vector3_eq a b || Vector3_eq c d
  | _, _, _, _ => false
  end.

(** Some other entry shares an endpoint with entry [i]. *)
Definition duplicated (ip1 ip2 : list (Vector3 D)) (i : nat) : bool :=
  existsb (fun j => negb (Nat.eqb i j) && shares ip1 ip2 i j) (seq 0 (length ip1)).

(** The indices that are to survive, in increasing order. *)
Definition survivors (ip1 ip2 : list (Vector3 D)) : list nat :=
  List.filter (fun i => negb (duplicated ip1 ip2 i)) (seq 0 (length ip1)).
End Duplicates.

(** Three correspondences on binary64; the first and the last have the same
    left endpoint. *)
Definition sample_ip1 : list (Vector3 float) :=
  [ (1, 2, 1); (5, 5, 1); (1, 2, 1) ]%float.
Definition sample_ip2 : list (Vector3 float) :=
  [ (7, 7, 1); (8, 8, 1); (9, 9, 1) ]%float.

(** ** Reading the events of a session *)

Section EventReadings.
Context {D : Type} {ops : DoubleOps D} {vw : VisionWorkbench D}.

Definition is_say (e : Event D) : bool :=
  match e with
  | Say _ => true
  | _ => false
  end.

(** The events other than messages: files opened, read and written, and the
    collaborators that were run. *)
Definition actions (evs : list (Event D)) : list (Event D) :=
  List.filter (fun e => negb (is_say e)) evs.

(** Interest point detection or description. *)
Definition is_detection (e : Event D) : bool :=
  match e with
  | DetectInterestPoints _ | GenerateDescriptors _ => true
  | _ => false
  end.

(** A file is written. *)
Definition is_write (e : Event D) : bool :=
  match e with
  | WriteBinaryIpFile _ | WriteBinaryMatchFile _ | WriteMatrix _ | WriteImage _ => true
  | _ => false
  end.

(** An interest point or match artifact is read or written, or one of the
    collaborators of the alignment (detector, descriptor, matcher, RANSAC) is
    run. *)
Definition is_alignment_work (e : Event D) : bool :=
  match e with
  | ReadBinaryMatchFile _ | ReadBinaryIpFile _
  | WriteBinaryIpFile _ | WriteBinaryMatchFile _
  | DetectInterestPoints _ | GenerateDescriptors _
  | RunMatcher | RunRansac => true
  | _ => false
  end.

(** What was done between the world [w] and the later world [w']. *)
Definition new_actions (w w' : World) : list (Event D) :=
  actions (drop (length (events w)) (events w')).

(** The names of the three cache artifacts of a pair of input files. *)
Definition match_file (input_file1 input_file2 : string) : string :=
  prefix_from_filename input_file1 +:+ "__" +:+
  prefix_from_filename input_file2 +:+ ".match".

Definition vwip_file (input_file : string) : string :=
  prefix_from_filename input_file +:+ ".vwip".
End EventReadings.

(** ** Reading the fit *)

Section FitReadings.
Context {D : Type} {ops : DoubleOps D} {vw : VisionWorkbench D}.

(** What the fit gives on the matches [ip1], [ip2]: the matrix RANSAC finds
    for the matches freed of duplicates, second image first, and the identity
    when RANSAC throws; nothing when the culling of duplicates reads past the
    end of a vector. *)
Definition fitted (ip1 ip2 : list InterestPoint) : option (Matrix D) :=
  match remove_duplicates (iplist_to_vectorlist ip1) (iplist_to_vectorlist ip2) with
  | Some (ransac_ip1, ransac_ip2) =>
      Some (match ransac ransac_ip2 ransac_ip1 with
            | Some T => T
            | None => identity_matrix3
            end)
  | None => None
  end.

(** How [determine_image_alignment] ends once it has the matches, and what
    it does after it has them. *)
Definition fit_outcome (ip1 ip2 : list InterestPoint) : Step (Matrix D) :=
  match fitted ip1 ip2 with
  | Some T => Done T
  | None => Stopped Undefined
  end.

Definition fit_actions (ip1 ip2 : list InterestPoint) : list (Event D) :=
  match fitted ip1 ip2 with
  | Some _ => [RunRansac]
  | None => []
  end.
End FitReadings.

(** ** A sample Vision Workbench on binary64 *)

(** The projective map of a 3x3 matrix. *)
Definition apply_homography (m : Matrix float) (p : float * float) : float * float :=
  let e := fun i j : nat => nth j (nth i m []) PrimFloat.zero in
  let '(x, y) := p in
  let w := (e 2%nat 0%nat * x + e 2%nat 1%nat * y + e 2%nat 2%nat)%float in
  (((e 0%nat 0%nat * x + e 0%nat 1%nat * y + e 0%nat 2%nat) / w)%float,
   ((e 1%nat 0%nat * x + e 1%nat 1%nat * y + e 1%nat 2%nat) / w)%float).

(** Images are their size and the transform of their georeference; interest
    points are positions. The detector finds two points, the matcher pairs
    the points in order, and the robust fit needs four correspondences. *)
Definition sample_vw : VisionWorkbench float := {|
  Image := Z * Z * Matrix float;
  InterestPoint := float * float;
  cols := fun image => fst (fst image);
  rows := fun image => snd (fst image);
  get_no_data_value := fun _ => PrimFloat.zero;
  read_georeference := fun image => snd image;
  isis_min_max_channel_values := fun _ _ => (0, 1)%float;
  remove_isis_special_pixels := fun image _ => image;
  normalize := fun image _ _ _ _ => image;
  geo_transform := fun image _ _ => image;
  crop := fun image _ _ width height => (width, height, snd image);
  homography_transform := fun image _ width height => (width, height, snd image);
  channel_cast_rescale_uint8 := fun image => image;
  detect_interest_points := fun _ => [(1, 1); (2, 3)]%float;
  descriptor := fun _ ip => ip;
  matcher := fun ip1 ip2 =>
    (take (min (length ip1) (length ip2)) ip1,
     take (min (length ip1) (length ip2)) ip2);
  iplist_to_vectorlist := map (fun p => (fst p, snd p, 1%float));
  ransac := fun ip2 ip1 =>
    if (length ip2 <? 4)%nat then None
    else Some [ [1; 0; 2]; [0; 1; 0]; [0; 0; 1] ]%float;
  homography_point := apply_homography;
  geo_point := fun _ _ p => p
|}.

(** A map projection: a georeference transform that is not the identity. *)
Definition sample_projection : Matrix float :=
  [ [2; 0; 10]; [0; 2; 20]; [0; 0; 1] ]%float.

(** A world with nothing on disk but the two map-projected input images. *)
Definition sample_world : World (vw := sample_vw) := {|
  files := {[ "left.cub" := ImageFile (vw := sample_vw) (100, 80, sample_projection)%Z;
              "right.cub" := ImageFile (vw := sample_vw) (100, 80, sample_projection)%Z ]};
  events := []
|}.

Definition sample_session : StereoSessionIsis := {|
  m_out_prefix := "out";
  m_left_image_file := "left.cub";
  m_right_image_file := "right.cub"
|}.

(** The sample world after a first alignment of the two images: the three
    cache artifacts are on disk. *)
Definition cached_world : World (vw := sample_vw) :=
  {| files := files (snd (determine_image_alignment (ops := float_ops) (vw := sample_vw)
                            "left.cub" "right.cub" 0%float 1%float sample_world));
     events := [] |}.

(** A world with the interest point files of the two images and no match
    file. *)
Definition vwip_world : World (vw := sample_vw) := {|
  files := {[ "left.vwip" := IpFile (vw := sample_vw) [(1, 1); (2, 3)]%float;
              "right.vwip" := IpFile (vw := sample_vw) [(4, 1); (5, 3)]%float ]};
  events := []
|}.

(** The sample world with an interest point file for the left image only,
    holding one point. *)
Definition partial_world : World (vw := sample_vw) := {|
  files := <[ "left.vwip" := IpFile (vw := sample_vw) [(9, 9)]%float ]>
             (files sample_world);
  events := []
|}.

(** The settings with key point alignment switched on. *)
Definition sample_settings : StereoSettings := {|
  keypoint_alignment := true;
  mask_flatfield := false
|}.

(** The preprocessing of the two map-projected sample images. *)
Definition sample_preprocessing : Step (string * string) * World (vw := sample_vw) :=
  pre_preprocessing_hook (ops := float_ops) (vw := sample_vw) sample_session
    sample_settings "left.cub" "right.cub" sample_world.

Definition says_map_projected {D : Type} (e : Event D) : bool :=
  match e with
  | Say MapProjectedDetected => true
  | _ => false
  end.

Definition says_unprojected {D : Type} (e : Event D) : bool :=
  match e with
  | Say UnprojectedDetected => true
  | _ => false
  end.

(** The cell of a disparity image at a row and a column, if there is one. *)
Definition cell {D : Type} (d : DisparityImage D) (row col : nat)
  : option (option (D * D)) :=
  match d !! row with
  | Some cells => cells !! col
  | None => None
  end.

(** The target in the second image of the cell at (col, row) with disparity
    (h, v). *)
Definition target {D : Type} {ops : DoubleOps D} (row col : nat) (hv : D * D)
  : D * D :=
  ((of_int (Z.of_nat col) + fst hv)%D, (of_int (Z.of_nat row) + snd hv)%D).

(** A disparity image to undo the sample alignment on: three valid cells, one
    of them pointing outside an image of 100 by 80 pixels, and a missing
    cell. *)
Definition sample_disparity : DisparityImage float :=
  [ [Some (5, 0); Some (200, 0)]; [None; Some (1, 2)] ]%float.

(** The sample world after correlation: the disparity image is on disk, the
    alignment matrix is or is not. *)
Definition pointcloud_world (with_matrix : bool) : World (vw := sample_vw) := {|
  files :=
    if with_matrix then
      <[ "out-align.exr" := MatrixFile (vw := sample_vw)
                              [ [1; 0; 2]; [0; 1; 0]; [0; 0; 1] ]%float ]>
        (<[ "out-F.exr" := DisparityFile (vw := sample_vw) sample_disparity ]>
           (files sample_world))
    else
      <[ "out-F.exr" := DisparityFile (vw := sample_vw) sample_disparity ]>
        (files sample_world);
  events := []
|}.

(** The sample world after correlation with the alignment matrix on disk and
    the right image gone. *)
Definition no_right_world : World (vw := sample_vw) := {|
  files := delete "right.cub" (files (pointcloud_world true));
  events := []
|}.

(** ** Reading the console *)

(** The two lines that print the offsets. *)
Definition is_offset_line {D : Type} (line : ConsoleLine D) : bool :=
  match line with
  | MeanSampleOffset _ | MeanLineOffset _ => true
  | _ => false
  end.

(** The diagnostics of the three failures [determineShifts] reports by
    returning [false]. *)
Definition is_diagnostic {D : Type} (line : ConsoleLine D) : bool :=
  match line with
  | ErrorInputMissing _ | FailedCreateLog _ | ErrorNoValidMatches => true
  | _ => false
  end.

(** ** Further readings *)

(** The sum of the squares of a list of rationals. *)
Definition Qsumsq (xs : list Q) : Q := fold_right (fun x acc => x * x + acc)%Q 0%Q xs.

(** The arithmetic mean and the unbiased sample variance of a list of
    rationals, as textbooks define them. *)
Definition average (xs : list Q) : Q := (Qsum xs / inject_Z (Z.of_nat (length xs)))%Q.

Definition sample_variance (xs : list Q) : Q :=
  (Qsum (map (fun x => (x - average xs) * (x - average xs)) xs)
     / (inject_Z (Z.of_nat (length xs)) - 1))%Q.


(** The environment [env] with other contents [g] in the variables that are
    read before anything was assigned to them. *)
Definition with_indeterminate {D : Type} (env : Env D) (g : nat -> D) : Env D := {|
  check_command_line := check_command_line env;
  file_exists := file_exists env;
  image_size := image_size env;
  pyramid_correlate := pyramid_correlate env;
  correlate := correlate env;
  log_opens := log_opens env;
  indeterminate := g
|}.

Section RowLoopReadings.
Context {D : Type} {ops : DoubleOps D}.

(** Two states of the row loop that differ in the two accumulators at
    most. *)
Definition same_but_calc (st st' : Accumulation D) : Prop :=
  numValidRows st = numValidRows st' /\
  totalNumValidPixels st = totalNumValidPixels st' /\
  rowOffsets st = rowOffsets st' /\
  colOffsets st = colOffsets st' /\
  out st = out st'.

End RowLoopReadings.

(** The character [c] occurs in [s]. *)
Fixpoint occurs (c : ascii) (s : string) : bool :=
  match s with
  | EmptyString => false
  | String a rest => Ascii.eqb a c || occurs c rest
  end.

Section Frames.
Context {D : Type} {ops : DoubleOps D} {vw : VisionWorkbench D}.

(** A computation touches the files at [paths] at most: from whatever world
    it starts and however it ends, every other path holds what it held, no
    file has disappeared, and the events of before are still there, followed
    by those of the computation. *)
Definition writes_only {A : Type} (paths : list string) (m : Session A) : Prop :=
  forall w : World,
    (forall p, p ∉ paths -> files (snd (m w)) !! p = files w !! p) /\
    (forall p, is_Some (files w !! p) -> is_Some (files (snd (m w)) !! p)) /\
    exists more, events (snd (m w)) = events w ++ more.
End Frames.

Section FilterReadings.
Context {D : Type} {ops : DoubleOps D} {vw : VisionWorkbench D}
        {masking : DisparityMasking D}.

(** [writes_only] for the filtering stage: the files at [paths] at most are
    touched, no file disappears, and the record of events only grows. *)
Definition filter_writes_only {A : Type} (paths : list string)
    (m : FilterSession A) : Prop :=
  forall st : World * list FilterEvent,
    (forall p, p ∉ paths ->
       files (fst (snd (m st))) !! p = files (fst st) !! p) /\
    (forall p, is_Some (files (fst st) !! p) ->
       is_Some (files (fst (snd (m st))) !! p)) /\
    exists more, snd (snd (m st)) = snd st ++ more.
End FilterReadings.

(** The settings with key point alignment switched off. *)
Definition plain_settings : StereoSettings := {|
  keypoint_alignment := false;
  mask_flatfield := false
|}.

(** A world with two images whose names have the same prefix. *)
Definition same_prefix_world : World (vw := sample_vw) := {|
  files := {[ "pair.left" := ImageFile (vw := sample_vw) (100, 80, sample_projection)%Z;
              "pair.right" := ImageFile (vw := sample_vw) (100, 80, sample_projection)%Z ]};
  events := []
|}.

(** A sample masking on the sample Vision Workbench: images are their size,
    so clamping and masking leave them as they are. *)
Definition sample_masking : DisparityMasking float (vw := sample_vw) := {|
  clamp := fun image _ _ => image;
  mask_black_pixels := fun _ mask => mask;
  disparity_mask := fun d _ _ => d
|}.

(** The settings with the masking of flat fields switched on. *)
Definition masking_settings : StereoSettings := {|
  keypoint_alignment := true;
  mask_flatfield := true
|}.

(** The sample world with the two masks and a disparity map on disk. *)
Definition masking_world : World (vw := sample_vw) := {|
  files :=
    <[ "out-lMask.tif" := ImageFile (vw := sample_vw) (100, 80, sample_projection)%Z ]>
      (<[ "out-rMask.tif" := ImageFile (vw := sample_vw) (100, 80, sample_projection)%Z ]>
         (<[ "out-F.exr" := DisparityFile (vw := sample_vw) sample_disparity ]>
            (files sample_world)));
  events := []
|}.

Section RowLoop.
Context {D : Type} {ops : DoubleOps D}.

(** The state in which the loop over the rows of [determineShifts] ends on
    the map [dm]; [writeLogFile] and [out0] are the flag and the lines of the
    log when the loop starts. *)
Definition row_loop (env : Env D) (writeLogFile : bool)
    (out0 : list (LogLine D)) (dm : DisparityMap) : Accumulation D :=
  let g := indeterminate env in
  accumulate_rows writeLogFile 0 dm
    {| numValidRows := 0; totalNumValidPixels := 0;
       stdCalcX := RunningStandardDeviation_new (g 0%nat) (g 1%nat) (g 2%nat) (g 3%nat);
       stdCalcY := RunningStandardDeviation_new (g 4%nat) (g 5%nat) (g 6%nat) (g 7%nat);
       rowOffsets := replicate (length dm) dzero;
       colOffsets := replicate (length dm) dzero;
       out := out0 |}.
End RowLoop.

(* ===================================================================== *)
(** * Part II: properties                                                 *)
(* ===================================================================== *)

(** ** Machine integers *)

Lemma wrap32_in_int (z : Z) : in_int z -> wrap32 z = z.
Proof.
  unfold in_int, INT_MIN, INT_MAX, wrap32. intros Hz.
  rewrite Z.mod_small; lia.
Qed.

Lemma wrap32_range (z : Z) : in_int (wrap32 z).
Proof.
  unfold in_int, INT_MIN, INT_MAX, wrap32.
  pose proof (Z.mod_pos_bound (z + 2147483648) 4294967296 ltac:(lia)). lia.
Qed.

Lemma int_add_small (a b : Z) : in_int (a + b) -> int_add a b = (a + b)%Z.
Proof. apply wrap32_in_int. Qed.

Lemma int_sub_small (a b : Z) : in_int (a - b) -> int_sub a b = (a - b)%Z.
Proof. apply wrap32_in_int. Qed.

Lemma int_succ (n : Z) : (0 <= n < INT_MAX)%Z -> int_add n 1 = (n + 1)%Z.
Proof. intros Hn. apply int_add_small. unfold in_int, INT_MIN, INT_MAX in *. lia. Qed.

(** An [int] of up to 24 significant bits is its own [float]. *)
Lemma int_to_float_exact (z : Z) :
  (Z.abs z <= 16777216)%Z -> int_to_float z = z.
Proof.
  intros Hz. unfold int_to_float.
  destruct (Z.ltb_spec (Z.abs z) 16777216) as [_|Hge]; [done|].
  assert (Ha : Z.abs z = 16777216%Z) by lia.
  rewrite Ha.
  change (Z.log2 16777216 - 23)%Z with 1%Z.
  change (16777216 / 2 ^ 1)%Z with 8388608%Z.
  change (16777216 mod 2 ^ 1)%Z with 0%Z.
  simpl. lia.
Qed.

(** Beyond 24 bits the nearest [float] is taken, the even one on a tie. *)
Lemma int_to_float_rounds :
  int_to_float 16777217 = 16777216%Z /\
  int_to_float 16777219 = 16777220%Z /\
  int_to_float (-16777217) = (-16777216)%Z /\
  int_to_float 33554435 = 33554436%Z /\
  int_to_float INT_MAX = 2147483648%Z /\
  int_to_float INT_MIN = INT_MIN.
Proof. repeat split; vm_compute; reflexivity. Qed.

(** ** The streaming statistics *)

Section RunningStatsFacts.
Context {D : Type} {ops : DoubleOps D}.
Local Open Scope Z_scope.

Lemma Push_settled (s : RunningStandardDeviation D) (x : D) : settled (Push s x).
Proof.
  unfold settled, Push.
  destruct (int_add (m_n s) 1 =? 1) eqn:E; simpl.
  - apply Z.eqb_eq in E. repeat split; congruence.
  - apply Z.eqb_neq in E. repeat split; congruence.
Qed.

Lemma pushes_snoc (xs : list D) (x : D) (s : RunningStandardDeviation D) :
  pushes (xs ++ [x]) s = Push (pushes xs s) x.
Proof. unfold pushes. by rewrite fold_left_app. Qed.

Lemma pushes_settled (xs : list D) (s : RunningStandardDeviation D) :
  xs <> [] -> settled (pushes xs s).
Proof.
  destruct xs as [|y ys] using rev_ind; [done|].
  intros _. rewrite pushes_snoc. apply Push_settled.
Qed.

Lemma pushes_count (xs : list D) (s : RunningStandardDeviation D) :
  0 <= m_n s ->
  m_n s + Z.of_nat (length xs) <= INT_MAX ->
  m_n (pushes xs s) = m_n s + Z.of_nat (length xs).
Proof.
  unfold pushes. revert s.
  induction xs as [|x xs IH]; intros s H0 Hb; simpl in *.
  - lia.
  - assert (Hs : m_n (Push s x) = m_n s + 1).
    { unfold Push. destruct (_ =? 1); simpl; apply int_succ; lia. }
    rewrite IH; rewrite Hs; lia.
Qed.

(** The first push stores the sample and resets the sum. *)
Lemma Push_first (s : RunningStandardDeviation D) (x : D) :
  m_n s = 0 ->
  Push s x = {| m_n := 1; m_oldM := x; m_newM := x;
                m_oldS := dzero; m_newS := m_newS s |}.
Proof. intros E. unfold Push. rewrite E. reflexivity. Qed.

(** Every later push is the update of Welford's recurrence. *)
Lemma Push_next (s : RunningStandardDeviation D) (x : D) :
  1 <= m_n s < INT_MAX ->
  let newM := (m_oldM s + (x - m_oldM s) / of_int (m_n s + 1))%D in
  let newS := (m_oldS s + (x - m_oldM s) * (x - newM))%D in
  Push s x = {| m_n := m_n s + 1; m_oldM := newM; m_newM := newM;
                m_oldS := newS; m_newS := newS |}.
Proof.
  intros Hn. unfold Push. rewrite int_succ by lia.
  destruct (m_n s + 1 =? 1) eqn:E; [apply Z.eqb_eq in E; lia | reflexivity].
Qed.

Lemma Mean_settled (s : RunningStandardDeviation D) :
  settled s -> 1 <= m_n s -> Mean s = m_oldM s.
Proof.
  intros (HM & _) Hn. unfold Mean.
  destruct (0 <? m_n s) eqn:E; [done | apply Z.ltb_ge in E; lia].
Qed.

Lemma Variance_settled (s : RunningStandardDeviation D) :
  settled s -> 0 <= m_n s <= INT_MAX ->
  Variance s = if 1 <? m_n s then (m_oldS s / of_int (m_n s - 1))%D else dzero.
Proof.
  intros (_ & _ & HS) Hn. unfold Variance.
  destruct (1 <? m_n s) eqn:E; [|done].
  apply Z.ltb_lt in E. rewrite HS by lia.
  rewrite int_sub_small; [done|]. unfold in_int, INT_MIN, INT_MAX in *. lia.
Qed.

(** Two or more pushes overwrite every field: what the constructor left in
    the doubles is gone. *)
Lemma Push_twice_fresh (s1 s2 : RunningStandardDeviation D) (x y : D) :
  m_n s1 = 0 -> m_n s2 = 0 ->
  Push (Push s1 x) y = Push (Push s2 x) y.
Proof.
  intros E1 E2. rewrite (Push_first s1), (Push_first s2) by done.
  unfold Push; simpl. reflexivity.
Qed.

Lemma observe_first (s1 s2 : RunningStandardDeviation D) (x : D) :
  m_n s1 = 0 -> m_n s2 = 0 ->
  observe (Push s1 x) = observe (Push s2 x).
Proof.
  intros E1 E2. rewrite (Push_first s1), (Push_first s2) by done. reflexivity.
Qed.

Lemma observe_pushes_fresh (s1 s2 : RunningStandardDeviation D) (xs : list D) :
  m_n s1 = 0 -> m_n s2 = 0 ->
  observe (pushes xs s1) = observe (pushes xs s2).
Proof.
  intros E1 E2. destruct xs as [|x [|y r]].
  - unfold observe, StandardDeviation, Variance, Mean, NumDataValues; simpl.
    by rewrite E1, E2.
  - simpl. by apply observe_first.
  - unfold pushes; simpl. by rewrite (Push_twice_fresh s1 s2).
Qed.
End RunningStatsFacts.

(** C10. After [Clear()] an accumulator cannot be told from a new one: for
    every state [s] it is called on, every content [g1 .. g4] of the
    uninitialised doubles of a new instance and every sequence [xs] of pushes,
    [NumDataValues()], [Mean()], [Variance()] and [StandardDeviation()] return
    the same values on both; right after [Clear()], [Mean()] and [Variance()]
    return 0. This holds for every arithmetic on [double], the machine's
    included. *)
Theorem Clear_behaves_as_new :
  forall (D : Type) (ops : DoubleOps D) (s : RunningStandardDeviation D)
         (g1 g2 g3 g4 : D) (xs : list D),
    observe (pushes xs (Clear s))
      = observe (pushes xs (RunningStandardDeviation_new g1 g2 g3 g4)) /\
    NumDataValues (Clear s) = 0%Z /\
    Mean (Clear s) = dzero /\
    Variance (Clear s) = dzero.
Proof.
  intros D ops s g1 g2 g3 g4 xs. split; [|by repeat split].
  by apply observe_pushes_fresh.
Qed.

Section RunningStatsReads.
Context {D : Type} {ops : DoubleOps D}.

Lemma Mean_pushes_fresh (s1 s2 : RunningStandardDeviation D) (xs : list D) :
  m_n s1 = 0%Z -> m_n s2 = 0%Z -> Mean (pushes xs s1) = Mean (pushes xs s2).
Proof.
  intros E1 E2. pose proof (observe_pushes_fresh s1 s2 xs E1 E2) as Ho.
  unfold observe in Ho. congruence.
Qed.

Lemma Variance_pushes_fresh (s1 s2 : RunningStandardDeviation D) (xs : list D) :
  m_n s1 = 0%Z -> m_n s2 = 0%Z -> Variance (pushes xs s1) = Variance (pushes xs s2).
Proof.
  intros E1 E2. pose proof (observe_pushes_fresh s1 s2 xs E1 E2) as Ho.
  unfold observe in Ho. congruence.
Qed.
End RunningStatsReads.

(** *** Exact arithmetic: the code computes the specification's recurrence *)

Section Exact.
Variable sqrtQ : Q -> Q.
Local Open Scope Z_scope.

Abbreviation RSDQ := (RunningStandardDeviation Q).

Lemma welford_step_tracks (s : RSDQ) (w : Z * Q * Q) (x : Q) :
  1 <= m_n s < INT_MAX -> tracks s w ->
  tracks (Push (ops := Q_ops sqrtQ) s x) (welford_step (ops := Q_ops sqrtQ) w x).
Proof.
  intros Hn (En & EM & ES). destruct w as [[n mean] sumSq]. simpl in *.
  rewrite Push_next by done. unfold tracks; simpl.
  split; [lia|]. rewrite <- En.
  split.
  - by rewrite EM.
  - by rewrite EM, ES.
Qed.

Lemma welford_tracks (xs : list Q) (s : RSDQ) (w : Z * Q * Q) :
  1 <= m_n s -> m_n s + Z.of_nat (length xs) <= INT_MAX -> tracks s w ->
  tracks (pushes (ops := Q_ops sqrtQ) xs s)
         (fold_left (welford_step (ops := Q_ops sqrtQ)) xs w).
Proof.
  unfold pushes. revert s w.
  induction xs as [|x xs IH]; intros s w H1 Hb Ht; simpl in *; [done|].
  apply IH.
  - rewrite Push_next by lia. simpl. lia.
  - rewrite Push_next by lia. simpl. lia.
  - apply welford_step_tracks; [lia | done].
Qed.

Lemma inject_Z_succ_nonzero (n : Z) : 0 <= n -> ~ (inject_Z (n + 1) == 0)%Q.
Proof.
  intros Hn E. unfold Qeq in E. simpl in E. lia.
Qed.

Lemma tracks_first (s : RSDQ) (x : Q) :
  m_n s = 0 ->
  tracks (Push (ops := Q_ops sqrtQ) s x)
         (welford_step (ops := Q_ops sqrtQ) (0, 0%Q, 0%Q) x).
Proof.
  intros E. rewrite Push_first by done. unfold tracks; simpl.
  change (inject_Z (0 + 1)) with 1%Q.
  split; [done|]. split; field.
Qed.

Lemma mean_step (n : Z) (mean x : Q) :
  0 <= n ->
  (inject_Z (n + 1) * (mean + (x - mean) / inject_Z (n + 1))
     == inject_Z n * mean + x)%Q.
Proof.
  intros Hn. pose proof (inject_Z_succ_nonzero n Hn) as Hnz.
  rewrite inject_Z_plus in *. change (inject_Z 1) with 1%Q in *.
  field. exact Hnz.
Qed.

(** In exact arithmetic the accessors return what the recurrence of the
    specification yields. *)
Lemma exact_refines_welford (s : RSDQ) (xs : list Q) :
  m_n s = 0 -> Z.of_nat (length xs) <= INT_MAX ->
  (Mean (ops := Q_ops sqrtQ) (pushes (ops := Q_ops sqrtQ) xs s)
     == welford_mean (ops := Q_ops sqrtQ) xs)%Q /\
  (Variance (ops := Q_ops sqrtQ) (pushes (ops := Q_ops sqrtQ) xs s)
     == welford_variance (ops := Q_ops sqrtQ) xs)%Q.
Proof.
  intros E Hb. destruct xs as [|x r].
  - unfold Mean, Variance, welford_mean, welford_variance; simpl.
    rewrite E; simpl. split; reflexivity.
  - simpl in Hb.
    assert (Ht : tracks (pushes (ops := Q_ops sqrtQ) (x :: r) s)
                        (welford (ops := Q_ops sqrtQ) (x :: r))).
    { unfold welford; simpl. apply welford_tracks.
      - rewrite Push_first by done. simpl. lia.
      - rewrite Push_first by done. simpl. lia.
      - by apply tracks_first. }
    assert (Hs : settled (pushes (ops := Q_ops sqrtQ) (x :: r) s))
      by (by apply pushes_settled).
    assert (Hn : m_n (pushes (ops := Q_ops sqrtQ) (x :: r) s)
                 = Z.of_nat (length (x :: r))).
    { rewrite pushes_count; rewrite ?E; simpl; lia. }
    simpl length in Hn.
    destruct Ht as (En & EM & ES).
    split.
    + rewrite Mean_settled by (done || lia). exact EM.
    + rewrite Variance_settled by (done || lia).
      unfold welford_variance.
      destruct (welford (ops := Q_ops sqrtQ) (x :: r)) as [[n mean] sumSq].
      simpl in *. rewrite En.
      destruct (1 <? n); [|reflexivity]. by rewrite ES.
Qed.

Lemma welford_mean_invariant (xs : list Q) (w : Z * Q * Q) (total : Q) :
  0 <= fst (fst w) ->
  (inject_Z (fst (fst w)) * snd (fst w) == total)%Q ->
  let w' := fold_left (welford_step (ops := Q_ops sqrtQ)) xs w in
  fst (fst w') = fst (fst w) + Z.of_nat (length xs) /\
  (inject_Z (fst (fst w')) * snd (fst w') == total + Qsum xs)%Q.
Proof.
  revert w total. induction xs as [|x xs IH]; intros [[n mean] sumSq] total Hn Hm.
  - simpl in *. split; [lia|]. rewrite Hm. ring.
  - simpl fold_left. cbv zeta.
    specialize (IH (welford_step (ops := Q_ops sqrtQ) (n, mean, sumSq) x) (total + x)%Q).
    simpl in IH, Hn, Hm. simpl.
    destruct IH as (IHn & IHm).
    + lia.
    + rewrite <- Hm. rewrite mean_step by done. ring.
    + split; [lia|]. rewrite IHm. ring.
Qed.

(** In exact arithmetic the running mean is the arithmetic mean. *)
Lemma exact_Mean_is_average (s : RSDQ) (xs : list Q) :
  m_n s = 0 -> Z.of_nat (length xs) <= INT_MAX ->
  (Mean (ops := Q_ops sqrtQ) (pushes (ops := Q_ops sqrtQ) xs s)
     == Qsum xs / inject_Z (Z.of_nat (length xs)))%Q.
Proof.
  intros E Hb.
  destruct (exact_refines_welford s xs E Hb) as (HM & _). rewrite HM.
  unfold welford_mean, welford.
  destruct (welford_mean_invariant xs (0, 0%Q, 0%Q) 0%Q) as (Hn & Hm);
    [simpl; lia | simpl; ring |].
  simpl in Hn, Hm.
  destruct xs as [|x r]; [reflexivity|].
  set (w := fold_left _ _ _) in *.
  assert (Hnz : ~ (inject_Z (Z.of_nat (length (x :: r))) == 0)%Q).
  { simpl length. rewrite Nat2Z.inj_succ. unfold Z.succ.
    apply inject_Z_succ_nonzero. lia. }
  rewrite Z.add_0_l in Hn. rewrite Hn in Hm.
  rewrite <- (Qplus_0_l (Qsum (x :: r))), <- Hm.
  field. exact Hnz.
Qed.
End Exact.

(** *** The example of the specification *)

Lemma spec_samples_exact (sqrtQ : Q -> Q) (s : RunningStandardDeviation Q) :
  m_n s = 0%Z ->
  (Mean (ops := Q_ops sqrtQ) (pushes (ops := Q_ops sqrtQ) (spec_doubles (ops := Q_ops sqrtQ)) s) == 5)%Q /\
  (Variance (ops := Q_ops sqrtQ) (pushes (ops := Q_ops sqrtQ) (spec_doubles (ops := Q_ops sqrtQ)) s) == 32 # 7)%Q.
Proof.
  intros E.
  rewrite (Mean_pushes_fresh s (RunningStandardDeviation_new 0 0 0 0)%Q) by done.
  rewrite (Variance_pushes_fresh s (RunningStandardDeviation_new 0 0 0 0)%Q) by done.
  split; vm_compute; reflexivity.
Qed.

Lemma spec_samples_binary64 (s : RunningStandardDeviation float) :
  m_n s = 0%Z ->
  Mean (ops := float_ops) (pushes (ops := float_ops) (spec_doubles (ops := float_ops)) s) = 5%float /\
  Variance (ops := float_ops) (pushes (ops := float_ops) (spec_doubles (ops := float_ops)) s)
    = (32 / 7)%float.
Proof.
  intros E.
  rewrite (Mean_pushes_fresh s (RunningStandardDeviation_new 0 0 0 0)%float) by done.
  rewrite (Variance_pushes_fresh s (RunningStandardDeviation_new 0 0 0 0)%float) by done.
  split; vm_compute; reflexivity.
Qed.

(** C1. [RunningStandardDeviation] is Welford's single-pass update. For a new
    accumulator (whatever its uninitialised doubles hold) and every sequence
    [xs] of pushes that the counter can count:
    - before any push [Mean()] and [Variance()] return 0;
    - the count is the number of pushes, and [Variance()] returns
      [sumSq / (n - 1)] when [n > 1] and 0 otherwise;
    - a further push of [x] stores [x] as the mean and 0 as [sumSq] when it is
      the first, and otherwise replaces the mean by
      [mean + (x - mean) / n] and [sumSq] by
      [sumSq + (x - oldMean) * (x - newMean)], for every arithmetic on
      [double];
    - in exact arithmetic [Mean()] and [Variance()] are the values of the
      recurrence the specification writes down, started from 0;
    - on 2, 4, 4, 4, 5, 5, 7, 9 exact arithmetic gives mean 5 and variance
      32/7, within 0.0001 of 4.5714, and binary64 gives mean 5 and the double
      nearest to 32/7. *)
Theorem RunningStandardDeviation_welford :
  forall (D : Type) (ops : DoubleOps D) (g1 g2 g3 g4 : D) (xs : list D) (x : D)
         (sqrtQ : Q -> Q) (qs : list Q) (q : RunningStandardDeviation Q)
         (f : RunningStandardDeviation float),
    (Z.of_nat (length xs) < INT_MAX)%Z ->
    (Z.of_nat (length qs) <= INT_MAX)%Z ->
    m_n q = 0%Z ->
    m_n f = 0%Z ->
    let fresh := RunningStandardDeviation_new g1 g2 g3 g4 in
    let s := pushes xs fresh in
    let n := Z.of_nat (length xs) in
    (Mean fresh = dzero /\ Variance fresh = dzero) /\
    NumDataValues s = n /\
    Variance s = (if (1 <? n)%Z then (SumSq s / of_int (n - 1))%D else dzero) /\
    NumDataValues (Push s x) = (n + 1)%Z /\
    (xs = [] -> Mean (Push s x) = x /\ SumSq (Push s x) = dzero) /\
    (xs <> [] ->
       Mean (Push s x) = (Mean s + (x - Mean s) / of_int (n + 1))%D /\
       SumSq (Push s x) = (SumSq s + (x - Mean s) * (x - Mean (Push s x)))%D) /\
    ((Mean (ops := Q_ops sqrtQ) (pushes (ops := Q_ops sqrtQ) qs q)
        == welford_mean (ops := Q_ops sqrtQ) qs)%Q /\
     (Variance (ops := Q_ops sqrtQ) (pushes (ops := Q_ops sqrtQ) qs q)
        == welford_variance (ops := Q_ops sqrtQ) qs)%Q) /\
    ((Mean (ops := Q_ops sqrtQ)
        (pushes (ops := Q_ops sqrtQ) (spec_doubles (ops := Q_ops sqrtQ)) q) == 5)%Q /\
     (Variance (ops := Q_ops sqrtQ)
        (pushes (ops := Q_ops sqrtQ) (spec_doubles (ops := Q_ops sqrtQ)) q) == 32 # 7)%Q /\
     (Qabs ((32 # 7) - (45714 # 10000)) < 1 # 10000)%Q) /\
    (Mean (ops := float_ops)
       (pushes (ops := float_ops) (spec_doubles (ops := float_ops)) f) = 5%float /\
     Variance (ops := float_ops)
       (pushes (ops := float_ops) (spec_doubles (ops := float_ops)) f) = (32 / 7)%float).
Proof.
  intros D ops g1 g2 g3 g4 xs x sqrtQ qs q f Hxs Hqs Eq Ef fresh s n.
  assert (Hn : m_n s = n).
  { subst s n. rewrite pushes_count; simpl; lia. }
  assert (Hpos : (0 <= n)%Z) by (subst n; lia).
  split; [by split|].
  split; [exact Hn|].
  split.
  { destruct xs as [|y r].
    - reflexivity.
    - unfold SumSq. rewrite <- Hn. apply Variance_settled.
      + by apply pushes_settled.
      + rewrite Hn. lia. }
  split.
  { unfold NumDataValues, Push. destruct (_ =? 1)%Z; simpl;
      rewrite Hn; apply int_succ; lia. }
  split.
  { intros ->. subst s. simpl. rewrite Push_first by done. by split. }
  split.
  { intros Hne.
    assert (Hs : settled s) by (by apply pushes_settled).
    assert (H1 : (1 <= n)%Z).
    { subst n. destruct xs; [done | simpl; lia]. }
    assert (Hp : settled (Push s x)) by apply Push_settled.
    rewrite (Mean_settled (Push s x)) by (done || rewrite Push_next; simpl; lia).
    rewrite (Mean_settled s) by (done || lia).
    unfold SumSq. rewrite Push_next by lia. simpl. rewrite Hn. by split. }
  split; [by apply exact_refines_welford|].
  split; [|by apply spec_samples_binary64].
  destruct (spec_samples_exact sqrtQ q Eq) as (HM & HV).
  repeat split; done.
Qed.

Lemma RunningStandardDeviation_welford_witness :
  (Z.of_nat (length [1; 2; 6]%float) < INT_MAX)%Z /\
  (Z.of_nat (length [1; 3]%Q) <= INT_MAX)%Z /\
  NumDataValues
    (pushes (ops := float_ops) [1; 2; 6]%float
       (RunningStandardDeviation_new 7 7 7 7)%float) = 3%Z /\
  Mean (ops := float_ops)
    (pushes (ops := float_ops) (spec_doubles (ops := float_ops))
       (RunningStandardDeviation_new 7 7 7 7)%float) = 5%float.
Proof.
  pose proof (RunningStandardDeviation_welford float float_ops 7%float 7%float 7%float 7%float
                [1; 2; 6]%float 9%float (fun q => q) [1; 3]%Q
                (RunningStandardDeviation_new 0 0 0 0)%Q
                (RunningStandardDeviation_new 7 7 7 7)%float
                ltac:(vm_compute; reflexivity) ltac:(vm_compute; congruence)
                eq_refl eq_refl) as W.
  cbv zeta in W.
  split; [vm_compute; reflexivity|].
  split; [vm_compute; congruence|].
  split; [exact (proj1 (proj2 W))|].
  exact (proj1 (proj2 (proj2 (proj2 (proj2 (proj2 (proj2 (proj2 (proj2 W))))))))).
Defined.

(** ** The offset estimator *)

Section OffsetFacts.
Context {D : Type} {ops : DoubleOps D}.
Local Open Scope Z_scope.

Lemma valid_cells_length (cells : list DisparityPixel) :
  (length (valid_cells cells) <= length cells)%nat.
Proof.
  induction cells as [|[p|] cells IH]; simpl; lia.
Qed.

Lemma has_valid_cell_spec (cells : list DisparityPixel) :
  has_valid_cell cells = negb (Nat.eqb (length (valid_cells cells)) 0).
Proof.
  induction cells as [|[p|] cells IH]; simpl; [done | done | exact IH].
Qed.

Lemma row_mean_nonempty (xs : list D) :
  xs <> [] -> row_mean xs = (dsum xs / of_int (Z.of_nat (length xs)))%D.
Proof. destruct xs; done. Qed.

(** The inner loop: sums, count and accumulators after the cells of a row. *)
Lemma accumulate_cells (cells : list DisparityPixel) (a : RowAccumulation D) :
  0 <= numValidInRow a ->
  numValidInRow a + Z.of_nat (length cells) <= INT_MAX ->
  let a' := fold_left accumulate_cell cells a in
  rowSum a' = fold_left dadd (samples_y cells) (rowSum a) /\
  colSum a' = fold_left dadd (samples_x cells) (colSum a) /\
  numValidInRow a' = numValidInRow a + Z.of_nat (length (valid_cells cells)) /\
  rowCalcX a' = pushes (samples_x cells) (rowCalcX a) /\
  rowCalcY a' = pushes (samples_y cells) (rowCalcY a).
Proof.
  revert a. induction cells as [|px cells IH]; intros a H0 Hb; simpl in *.
  - repeat split; lia.
  - destruct px as [[x y]|]; simpl.
    + rewrite (int_succ (numValidInRow a)) by lia.
      match goal with
      | |- context [fold_left accumulate_cell cells ?a0] =>
          destruct (IH a0) as (H1 & H2 & H3 & H4 & H5); simpl; [lia | lia |]
      end.
      simpl in H1, H2, H3, H4, H5.
      repeat split; try done. lia.
    + destruct (IH a) as (H1 & H2 & H3 & H4 & H5); [lia | lia |].
      repeat split; done.
Qed.

(** The accumulators see the samples only, whatever the count does. *)
Lemma accumulate_cells_calc (cells : list DisparityPixel) (a : RowAccumulation D) :
  let a' := fold_left accumulate_cell cells a in
  rowCalcX a' = pushes (samples_x cells) (rowCalcX a) /\
  rowCalcY a' = pushes (samples_y cells) (rowCalcY a).
Proof.
  revert a. induction cells as [|px cells IH]; intros a; simpl in *; [done|].
  destruct px as [[x y]|]; simpl; [|apply IH].
  destruct (IH (accumulate_cell a (Some (x, y)))) as (H4 & H5). done.
Qed.

Lemma pushes_app (xs ys : list D) (s : RunningStandardDeviation D) :
  pushes (xs ++ ys) s = pushes ys (pushes xs s).
Proof. unfold pushes. apply fold_left_app. Qed.

(** One round of the outer loop. *)
Lemma accumulate_row_spec (w : bool) (row : Z) (cells : list DisparityPixel)
    (st : Accumulation D) :
  Z.of_nat (length cells) <= INT_MAX ->
  0 <= row ->
  (Z.to_nat row < length (rowOffsets st))%nat ->
  length (colOffsets st) = length (rowOffsets st) ->
  0 <= numValidRows st < INT_MAX ->
  let st' := accumulate_row w row cells st in
  numValidRows st' = numValidRows st + (if has_valid_cell cells then 1 else 0) /\
  stdCalcX st' = pushes (samples_x cells) (stdCalcX st) /\
  stdCalcY st' = pushes (samples_y cells) (stdCalcY st) /\
  length (rowOffsets st') = length (rowOffsets st) /\
  length (colOffsets st') = length (rowOffsets st) /\
  out st' = out st ++ (if w then [LogRow row (row_mean (samples_y cells))
                                         (row_mean (samples_x cells))] else []).
Proof.
  intros Hc Hr Hi Hl Hv. unfold accumulate_row.
  set (a0 := {| rowSum := dzero; colSum := dzero; numValidInRow := 0;
                rowCalcX := stdCalcX st; rowCalcY := stdCalcY st |}).
  destruct (accumulate_cells cells a0) as (H1 & H2 & H3 & H4 & H5);
    [simpl; lia | simpl; lia |].
  simpl in H1, H2, H3, H4, H5.
  set (a := fold_left accumulate_cell cells a0) in *.
  rewrite has_valid_cell_spec.
  assert (Hsy : length (samples_y cells) = length (valid_cells cells))
    by (unfold samples_y; apply length_map).
  assert (Hsx : length (samples_x cells) = length (valid_cells cells))
    by (unfold samples_x; apply length_map).
  destruct (numValidInRow a =? 0) eqn:E.
  - apply Z.eqb_eq in E.
    assert (Hk : length (valid_cells cells) = 0%nat) by lia.
    rewrite Hk; simpl.
    assert (Ey : samples_y cells = []) by (apply length_zero_iff_nil; lia).
    assert (Ex : samples_x cells = []) by (apply length_zero_iff_nil; lia).
    destruct w; simpl; rewrite ?length_insert, ?list_lookup_insert_eq by lia;
      rewrite ?Ex, ?Ey in *; simpl; rewrite ?app_nil_r;
      repeat split; (done || lia).
  - apply Z.eqb_neq in E.
    assert (Hk : length (valid_cells cells) <> 0%nat) by lia.
    destruct (Nat.eqb_spec (length (valid_cells cells)) 0) as [|_]; [done|].
    assert (Ry : row_mean (samples_y cells)
                 = (rowSum a / of_int (numValidInRow a))%D).
    { rewrite row_mean_nonempty by (intros Es; rewrite Es in Hsy; simpl in Hsy; lia).
      unfold dsum. rewrite H1, H3, Hsy. reflexivity. }
    assert (Rx : row_mean (samples_x cells)
                 = (colSum a / of_int (numValidInRow a))%D).
    { rewrite row_mean_nonempty by (intros Es; rewrite Es in Hsx; simpl in Hsx; lia).
      unfold dsum. rewrite H2, H3, Hsx. reflexivity. }
    destruct w; simpl; rewrite ?length_insert, ?list_lookup_insert_eq by lia;
      simpl; rewrite ?Rx, ?Ry, ?app_nil_r, ?int_succ by lia;
      repeat split; (done || lia).
Qed.

Lemma valid_rows_cons (cells : list DisparityPixel) (dm : DisparityMap) :
  valid_rows (cells :: dm)
  = ((if has_valid_cell cells then 1 else 0) + valid_rows dm)%nat.
Proof.
  unfold valid_rows, DisparityMap. rewrite filter_cons.
  destruct (decide (has_valid_cell cells = true)) as [E|E].
  - rewrite E. reflexivity.
  - apply not_true_is_false in E. rewrite E. reflexivity.
Qed.

Lemma valid_rows_le (dm : DisparityMap) : (valid_rows dm <= length dm)%nat.
Proof.
  induction dm as [|cells dm IH]; [done|].
  rewrite valid_rows_cons. simpl. destruct (has_valid_cell cells); lia.
Qed.

(** The outer loop. *)
Lemma accumulate_rows_spec (w : bool) (dm : DisparityMap) :
  forall (row : Z) (st : Accumulation D),
    Forall (fun cells : list DisparityPixel =>
              Z.of_nat (length cells) <= INT_MAX) dm ->
    0 <= row ->
    row + Z.of_nat (length dm) <= INT_MAX ->
    (Z.to_nat row + length dm <= length (rowOffsets st))%nat ->
    length (colOffsets st) = length (rowOffsets st) ->
    0 <= numValidRows st ->
    numValidRows st + Z.of_nat (length dm) <= INT_MAX ->
    let st' := accumulate_rows w row dm st in
    numValidRows st' = numValidRows st + Z.of_nat (valid_rows dm) /\
    stdCalcX st' = pushes (all_samples_x dm) (stdCalcX st) /\
    stdCalcY st' = pushes (all_samples_y dm) (stdCalcY st) /\
    out st' = out st ++ (if w then row_lines row dm else []).
Proof.
  induction dm as [|cells dm IH]; intros row st Hf Hr Hb Hi Hl Hv Hvb.
  - change (valid_rows []) with 0%nat. simpl.
    destruct w; rewrite ?app_nil_r; repeat split; (done || lia).
  - simpl in Hb, Hi, Hvb |- *.
    apply Forall_cons in Hf as (Hc & Hf).
    destruct (accumulate_row_spec w row cells st) as (A1 & A2 & A3 & A4 & A5 & A6);
      [done | done | lia | done | lia |].
    rewrite int_succ by lia.
    destruct (IH (row + 1) (accumulate_row w row cells st))
      as (B1 & B2 & B3 & B4); try done; try lia.
    { rewrite A1. destruct (has_valid_cell cells); lia. }
    { rewrite A1. destruct (has_valid_cell cells); lia. }
    rewrite B1, B2, B3, B4, A1, A2, A3, A6, valid_rows_cons.
    unfold all_samples_x, all_samples_y. simpl. rewrite !pushes_app.
    repeat split; try done.
    + destruct (has_valid_cell cells); lia.
    + destruct w; rewrite <- ?app_assoc; simpl; rewrite ?app_nil_r; done.
Qed.

(** The accumulators hold the samples of the whole map, whatever its size. *)
Lemma accumulate_rows_calc (w : bool) (dm : DisparityMap) :
  forall (row : Z) (st : Accumulation D),
    let st' := accumulate_rows w row dm st in
    stdCalcX st' = pushes (all_samples_x dm) (stdCalcX st) /\
    stdCalcY st' = pushes (all_samples_y dm) (stdCalcY st).
Proof.
  induction dm as [|cells dm IH]; intros row st; [done|].
  simpl. destruct (IH (int_add row 1) (accumulate_row w row cells st)) as (B2 & B3).
  rewrite B2, B3. unfold all_samples_x, all_samples_y. simpl. rewrite !pushes_app.
  assert (A : stdCalcX (accumulate_row w row cells st)
              = pushes (samples_x cells) (stdCalcX st) /\
              stdCalcY (accumulate_row w row cells st)
              = pushes (samples_y cells) (stdCalcY st)).
  { unfold accumulate_row.
    match goal with
    | |- context [fold_left accumulate_cell cells ?a0] =>
        destruct (accumulate_cells_calc cells a0) as (C1 & C2)
    end.
    simpl in C1, C2.
    destruct (_ =? 0); destruct w; simpl; by rewrite C1, C2. }
  destruct A as (-> & ->). done.
Qed.
End OffsetFacts.

Section DetermineShiftsFacts.
Context {D : Type} {ops : DoubleOps D}.
Local Open Scope Z_scope.

(** A run that gets its disparity map and its log file: what it returns, the
    offsets and the log are determined by the samples of the map. *)
Lemma determineShifts_accumulated (env : Env D) (params : Parameters D)
    (dX0 dY0 : D) (dm : DisparityMap) :
  correlated env params = Some dm ->
  log_ready env params = true ->
  fits_int dm ->
  let r := determineShifts env params dX0 dY0 in
  let g := indeterminate env in
  let X := pushes (all_samples_x dm)
             (RunningStandardDeviation_new (g 0%nat) (g 1%nat) (g 2%nat) (g 3%nat)) in
  let Y := pushes (all_samples_y dm)
             (RunningStandardDeviation_new (g 4%nat) (g 5%nat) (g 6%nat) (g 7%nat)) in
  (valid_rows dm = 0%nat -> fails_NoValidMatches r dX0 dY0) /\
  (valid_rows dm <> 0%nat ->
     result r = Returned true /\ dX r = Mean X /\ dY r = Mean Y /\
     forall line, last (console r) = Some line -> line <> ErrorNoValidMatches) /\
  (if string_empty (rowLogFilePath params) then logfile r = None
   else exists h wd l rr,
     logfile r = Some
       (log_header params h wd l rr ++ row_lines 0 dm ++
        [LogRegistration (cropWidth params) h (xkernel params) (ykernel params)
           (cost_function (correlator_type params));
         if Nat.eqb (valid_rows dm) 0 then LogAveragesNull
         else LogAverages (Mean X) (StandardDeviation X)
                          (Mean Y) (StandardDeviation Y)])).
Proof.
  intros Hc Hl (Hrows & Hcols) r g X Y. subst r.
  unfold correlated in Hc. unfold determineShifts.
  destruct (file_exists env (leftFilePath params)); [|done].
  destruct (file_exists env (rightFilePath params)); [|done].
  simpl in Hc |- *.
  destruct (image_size env (leftFilePath params)) as [[lcols lrows]|]; [|done].
  destruct (image_size env (rightFilePath params)) as [[rcols rrows]|]; [|done].
  set (start := int_sub (Z.quot (Z.min lcols rcols) 2) (Z.quot (cropWidth params) 2)) in *.
  set (h := Z.min lrows rrows) in *.
  assert (Hdm : (if usePyramid params
                 then pyramid_correlate env params
                        (cost_function (correlator_type params)) start h
                 else correlate env params
                        (cost_function (correlator_type params)) start h) = dm)
    by congruence.
  clear Hc.
  unfold log_ready in Hl.
  set (w := negb (string_empty (rowLogFilePath params))).
  assert (Hw : w && negb (log_opens env (rowLogFilePath params)) = false).
  { subst w. destruct (string_empty _); [done|]. simpl in *. by rewrite Hl. }
  destruct (usePyramid params); rewrite Hdm; rewrite Hw.
  all: match goal with
       | |- context [accumulate_rows ?w0 0 ?dm0 ?st0] =>
           destruct (accumulate_rows_spec w0 dm0 0 st0) as (S1 & S2 & S3 & S4);
             [done | done | lia | simpl; rewrite length_replicate; lia
             | simpl; by rewrite !length_replicate | simpl; lia | simpl; lia |];
           set (st := accumulate_rows w0 0 dm0 st0) in *
       end.
  all: simpl in S1, S2, S3, S4; fold g in S2, S3; fold X in S2; fold Y in S3.
  all: split; [|split].
  all: try (intros Hz; rewrite Hz in S1; simpl in S1; rewrite S1; simpl;
            unfold fails_NoValidMatches; simpl;
            rewrite last_snoc; by repeat split).
  all: try (intros Hz;
            destruct (numValidRows st =? 0) eqn:E; [apply Z.eqb_eq in E; lia|];
            simpl; rewrite S2, S3; repeat split; try done;
            intros line; rewrite last_snoc; congruence).
  all: subst w; destruct (string_empty (rowLogFilePath params)); simpl;
         [by destruct (numValidRows st =? 0)|].
  all: exists h, (Z.min lcols rcols), start, start.
  all: unfold log_summary; rewrite S4, S1, S2, S3; simpl.
  all: destruct (valid_rows dm) eqn:Ev; simpl; rewrite <- ?app_assoc; done.
Qed.
End DetermineShiftsFacts.

Section DetermineShiftsFailures.
Context {D : Type} {ops : DoubleOps D}.

(** A run whose log file does not open returns [false] with that diagnostic,
    whatever the disparity map holds. *)
Lemma determineShifts_log_unwritable (env : Env D) (params : Parameters D)
    (dX0 dY0 : D) (dm : DisparityMap) :
  correlated env params = Some dm ->
  log_ready env params = false ->
  let r := determineShifts env params dX0 dY0 in
  result r = Returned false /\
  last (console r) = Some (FailedCreateLog (rowLogFilePath params)) /\
  logfile r = None /\ dX r = dX0 /\ dY r = dY0.
Proof.
  intros Hc Hl r. subst r.
  unfold correlated in Hc. unfold determineShifts.
  destruct (file_exists env (leftFilePath params)); [|done].
  destruct (file_exists env (rightFilePath params)); [|done].
  simpl in Hc |- *.
  destruct (image_size env (leftFilePath params)) as [[lcols lrows]|]; [|done].
  destruct (image_size env (rightFilePath params)) as [[rcols rrows]|]; [|done].
  unfold log_ready in Hl. apply orb_false_iff in Hl as (He & Ho).
  rewrite He, Ho.
  destruct (usePyramid params); simpl; done.
Qed.

(** A run that does not get a disparity map does not return [true]. *)
Lemma determineShifts_not_correlated (env : Env D) (params : Parameters D)
    (dX0 dY0 : D) :
  correlated env params = None ->
  result (determineShifts env params dX0 dY0) <> Returned true /\
  logfile (determineShifts env params dX0 dY0) = None.
Proof.
  intros Hc. unfold correlated in Hc. unfold determineShifts.
  destruct (file_exists env (leftFilePath params)); [|done].
  destruct (file_exists env (rightFilePath params)); [|done].
  simpl in Hc |- *.
  destruct (image_size env (leftFilePath params)) as [[lcols lrows]|]; [|done].
  destruct (image_size env (rightFilePath params)) as [[rcols rrows]|]; done.
Qed.

Lemma row_lines_rows (row : Z) (dm : DisparityMap) (line : LogLine D) :
  In line (row_lines row dm) -> exists i a b, line = LogRow i a b.
Proof.
  revert row. induction dm as [|cells dm IH]; intros row; simpl; [done|].
  intros [<-|Hin]; [by eexists _, _, _ | by eapply IH].
Qed.
End DetermineShiftsFailures.

(** C4, as stated, fails when the row log cannot be created: with a map
    without valid cells the call fails, but with the diagnostic of the log
    file and not with "no valid matches"; with a map that has valid rows the
    call does not succeed either. *)
Lemma NoValidMatches_iff_fails_on_unwritable_log :
  correlated (float_env no_matches false)
    (float_parameters "left.cub" "right.cub" "rows.log") = Some no_matches /\
  valid_rows no_matches = 0%nat /\
  ~ fails_NoValidMatches (logged_run no_matches false) PrimFloat.zero PrimFloat.zero /\
  last (console (logged_run no_matches false)) = Some (FailedCreateLog "rows.log") /\
  correlated (float_env two_rows false)
    (float_parameters "left.cub" "right.cub" "rows.log") = Some two_rows /\
  valid_rows two_rows <> 0%nat /\
  result (logged_run two_rows false) = Returned false.
Proof.
  split; [vm_compute; reflexivity|].
  split; [vm_compute; reflexivity|].
  split.
  { intros (_ & Hlast & _). vm_compute in Hlast. discriminate Hlast. }
  split; [vm_compute; reflexivity|].
  split; [vm_compute; reflexivity|].
  split; [vm_compute; discriminate|].
  vm_compute; reflexivity.
Qed.

(** C4, amended. A call of [determineShifts] that got its disparity map:
    - when the row log is not asked for or opens, it fails with "no valid
      matches" (it returns [false] after that diagnostic and leaves the
      offsets alone) if and only if no row of the map has a valid cell;
      otherwise it returns [true] and has assigned to the offsets the means
      of the two accumulators over the samples of the map;
    - when a row log is asked for and cannot be created, it returns [false]
      with the diagnostic of the log file as the last line printed, whatever
      the map holds: it leaves no log file and the offsets alone, and this is
      not the "no valid matches" failure. *)
Theorem determineShifts_NoValidMatches_iff :
  forall (D : Type) (ops : DoubleOps D) (env : Env D) (params : Parameters D)
         (dX0 dY0 : D) (dm : DisparityMap),
    correlated env params = Some dm ->
    fits_int dm ->
    let r := determineShifts env params dX0 dY0 in
    let g := indeterminate env in
    (log_ready env params = true ->
       (fails_NoValidMatches r dX0 dY0 <-> valid_rows dm = 0%nat) /\
       (valid_rows dm <> 0%nat ->
          result r = Returned true /\
          dX r = Mean (pushes (all_samples_x dm)
                         (RunningStandardDeviation_new (g 0%nat) (g 1%nat) (g 2%nat) (g 3%nat))) /\
          dY r = Mean (pushes (all_samples_y dm)
                         (RunningStandardDeviation_new (g 4%nat) (g 5%nat) (g 6%nat) (g 7%nat))))) /\
    (log_ready env params = false ->
       result r = Returned false /\
       last (console r) = Some (FailedCreateLog (rowLogFilePath params)) /\
       logfile r = None /\
       dX r = dX0 /\ dY r = dY0 /\
       ~ fails_NoValidMatches r dX0 dY0).
Proof.
  intros D ops env params dX0 dY0 dm Hc Hf r g. split.
  - intros Hl.
    destruct (determineShifts_accumulated env params dX0 dY0 dm Hc Hl Hf)
      as (Hzero & Hsome & _).
    split; [split|].
    + intros (Hres & _). destruct (Nat.eq_dec (valid_rows dm) 0) as [|Hne]; [done|].
      destruct (Hsome Hne) as (Htrue & _). subst r. congruence.
    + exact Hzero.
    + intros Hne. destruct (Hsome Hne) as (H1 & H2 & H3 & _). done.
  - intros Hl.
    destruct (determineShifts_log_unwritable env params dX0 dY0 dm Hc Hl)
      as (H1 & H2 & H3 & H4 & H5).
    repeat split; try done.
    intros (_ & Hlast & _). subst r. rewrite H2 in Hlast. discriminate Hlast.
Qed.

Lemma determineShifts_NoValidMatches_iff_witness :
  correlated (float_env two_rows true)
    (float_parameters "left.cub" "right.cub" "") = Some two_rows /\
  log_ready (float_env two_rows true)
    (float_parameters "left.cub" "right.cub" "") = true /\
  fits_int two_rows /\
  result (plain_run two_rows) = Returned true /\
  dX (plain_run two_rows) = 2%float.
Proof.
  assert (Hf : fits_int two_rows).
  { split; [vm_compute; congruence|]. repeat constructor; vm_compute; congruence. }
  pose proof (determineShifts_NoValidMatches_iff float float_ops
                (float_env two_rows true)
                (float_parameters "left.cub" "right.cub" "")
                PrimFloat.zero PrimFloat.zero two_rows
                eq_refl Hf) as W.
  cbv zeta in W. destruct W as (W & _).
  destruct (W eq_refl) as (_ & W').
  destruct (W' ltac:(vm_compute; discriminate)) as (W1 & W2 & _).
  split; [reflexivity|]. split; [reflexivity|]. split; [exact Hf|].
  split; [exact W1|].
  unfold plain_run. rewrite W2. vm_compute. reflexivity.
Defined.

(** C9, as stated, fails: with a row log and a map without valid cells the
    log ends with the NULL summary, and only then does the call fail. *)
Lemma NULL_summary_is_reached :
  exists lines,
    logfile (logged_run no_matches true) = Some lines /\
    In LogAveragesNull lines /\
    fails_NoValidMatches (logged_run no_matches true) PrimFloat.zero PrimFloat.zero.
Proof.
  eexists. split; [vm_compute; reflexivity|].
  split; [simpl; tauto|].
  vm_compute. repeat split.
Qed.

(** C9, amended. The NULL summary is written exactly when a row log is
    written and no row of the disparity map has a valid cell; the summary
    precedes the test for valid rows, so the call then goes on to fail with
    "no valid matches". When some row has a valid cell the log holds the
    averages and no NULL line. *)
Theorem NULL_summary_iff_no_valid_rows :
  forall (D : Type) (ops : DoubleOps D) (env : Env D) (params : Parameters D)
         (dX0 dY0 : D) (dm : DisparityMap) (lines : list (LogLine D)),
    correlated env params = Some dm ->
    fits_int dm ->
    logfile (determineShifts env params dX0 dY0) = Some lines ->
    (In LogAveragesNull lines <-> valid_rows dm = 0%nat) /\
    (In LogAveragesNull lines ->
       fails_NoValidMatches (determineShifts env params dX0 dY0) dX0 dY0) /\
    (~ In LogAveragesNull lines ->
       result (determineShifts env params dX0 dY0) = Returned true).
Proof.
  intros D ops env params dX0 dY0 dm lines Hc Hf Hlog.
  destruct (log_ready env params) eqn:Hl.
  2:{ destruct (determineShifts_log_unwritable env params dX0 dY0 dm Hc Hl)
        as (_ & _ & Hnone & _). congruence. }
  destruct (determineShifts_accumulated env params dX0 dY0 dm Hc Hl Hf)
    as (Hzero & Hsome & Hfile).
  destruct (string_empty (rowLogFilePath params)); [congruence|].
  destruct Hfile as (h & wd & l & rr & Hfile). rewrite Hfile in Hlog.
  injection Hlog as <-.
  assert (Hiff : In LogAveragesNull
                   (log_header params h wd l rr ++ row_lines 0 dm ++
                    [LogRegistration (cropWidth params) h (xkernel params)
                       (ykernel params) (cost_function (correlator_type params));
                     if Nat.eqb (valid_rows dm) 0 then LogAveragesNull
                     else LogAverages
                            (Mean (pushes (all_samples_x dm)
                               (RunningStandardDeviation_new (indeterminate env 0%nat)
                                  (indeterminate env 1%nat) (indeterminate env 2%nat)
                                  (indeterminate env 3%nat))))
                            (StandardDeviation (pushes (all_samples_x dm)
                               (RunningStandardDeviation_new (indeterminate env 0%nat)
                                  (indeterminate env 1%nat) (indeterminate env 2%nat)
                                  (indeterminate env 3%nat))))
                            (Mean (pushes (all_samples_y dm)
                               (RunningStandardDeviation_new (indeterminate env 4%nat)
                                  (indeterminate env 5%nat) (indeterminate env 6%nat)
                                  (indeterminate env 7%nat))))
                            (StandardDeviation (pushes (all_samples_y dm)
                               (RunningStandardDeviation_new (indeterminate env 4%nat)
                                  (indeterminate env 5%nat) (indeterminate env 6%nat)
                                  (indeterminate env 7%nat))))])
                 <-> valid_rows dm = 0%nat).
  { rewrite !in_app_iff. split.
    - intros [Hh | [Hr | Hs]].
      + simpl in Hh. destruct Hh as [Hh | [Hh | [Hh | []]]]; discriminate Hh.
      + apply row_lines_rows in Hr as (i & a & b & Hr). discriminate Hr.
      + simpl in Hs. destruct Hs as [Hs | [Hs | []]]; [discriminate Hs|].
        destruct (Nat.eqb_spec (valid_rows dm) 0); [done | discriminate Hs].
    - intros Hz. right; right. rewrite Hz. simpl. tauto. }
  split; [exact Hiff|]. split.
  - intros Hin. apply Hzero. by apply Hiff.
  - intros Hnin. apply Hsome. intros Hz. apply Hnin. by apply Hiff.
Qed.

Lemma NULL_summary_iff_no_valid_rows_witness :
  correlated (float_env no_matches true)
    (float_parameters "left.cub" "right.cub" "rows.log") = Some no_matches /\
  fits_int no_matches /\
  (exists lines, logfile (logged_run no_matches true) = Some lines /\
                 (In LogAveragesNull lines <-> valid_rows no_matches = 0%nat)).
Proof.
  assert (Hf : fits_int no_matches).
  { split; [vm_compute; congruence|]. repeat constructor; vm_compute; congruence. }
  split; [reflexivity|]. split; [exact Hf|].
  eexists. split; [vm_compute; reflexivity|].
  refine (proj1 (NULL_summary_iff_no_valid_rows float float_ops
                   (float_env no_matches true)
                   (float_parameters "left.cub" "right.cub" "rows.log")
                   PrimFloat.zero PrimFloat.zero no_matches _ eq_refl Hf _)).
  vm_compute. reflexivity.
Defined.

Section RowLog.
Context {D : Type} {ops : DoubleOps D}.

Lemma row_lines_filter (row : Z) (dm : DisparityMap) :
  List.filter is_row_line (row_lines row dm) = row_lines row dm.
Proof.
  revert row. induction dm as [|cells dm IH]; intros row; simpl; [done|].
  by rewrite IH.
Qed.

Lemma row_mean_of_row (sample : list DisparityPixel -> list D)
    (cells : list DisparityPixel) :
  length (sample cells) = length (valid_cells cells) ->
  row_mean (sample cells)
  = if has_valid_cell cells
    then (dsum (sample cells) / of_int (Z.of_nat (length (valid_cells cells))))%D
    else dzero.
Proof.
  intros Hlen. rewrite has_valid_cell_spec, <- Hlen.
  destruct (sample cells); reflexivity.
Qed.

Lemma valid_cells_app (xs ys : list DisparityPixel) :
  valid_cells (xs ++ ys) = valid_cells xs ++ valid_cells ys.
Proof. unfold valid_cells. apply omap_app. Qed.

Lemma all_samples_x_length (dm : DisparityMap) :
  length (all_samples_x dm) = length (valid_cells (concat dm)).
Proof.
  induction dm as [|cells dm IH]; [done|].
  change (all_samples_x (cells :: dm)) with (samples_x cells ++ all_samples_x dm).
  change (concat (cells :: dm)) with (cells ++ concat dm).
  rewrite valid_cells_app, !length_app, IH. unfold samples_x.
  by rewrite length_map.
Qed.

Lemma all_samples_y_length (dm : DisparityMap) :
  length (all_samples_y dm) = length (valid_cells (concat dm)).
Proof.
  induction dm as [|cells dm IH]; [done|].
  change (all_samples_y (cells :: dm)) with (samples_y cells ++ all_samples_y dm).
  change (concat (cells :: dm)) with (cells ++ concat dm).
  rewrite valid_cells_app, !length_app, IH. unfold samples_y.
  by rewrite length_map.
Qed.

(** Within single precision the samples are the components themselves. *)
Lemma samples_single_precision (cells : list DisparityPixel) :
  single_precision cells ->
  samples_x cells = map (fun p => of_int (fst p)) (valid_cells cells) /\
  samples_y cells = map (fun p => of_int (snd p)) (valid_cells cells).
Proof.
  unfold single_precision, samples_x, samples_y.
  induction 1 as [|p ps (Hx & Hy) _ (IHx & IHy)]; [done|].
  simpl. rewrite IHx, IHy, !int_to_float_exact by done. done.
Qed.

(** A call that returns [true] had its log file, if any, and found a valid
    row. *)
Lemma determineShifts_success (env : Env D) (params : Parameters D)
    (dX0 dY0 : D) (dm : DisparityMap) :
  correlated env params = Some dm ->
  fits_int dm ->
  result (determineShifts env params dX0 dY0) = Returned true ->
  log_ready env params = true /\ valid_rows dm <> 0%nat.
Proof.
  intros Hc Hf Hres.
  destruct (log_ready env params) eqn:Hl.
  - split; [done|]. intros Hz.
    destruct (determineShifts_accumulated env params dX0 dY0 dm Hc Hl Hf)
      as (Hzero & _).
    destruct (Hzero Hz) as (Hfalse & _). congruence.
  - destruct (determineShifts_log_unwritable env params dX0 dY0 dm Hc Hl)
      as (Hfalse & _). congruence.
Qed.
End RowLog.

(** C3. For every disparity map the correlator hands over (its dimensions fit
    an [int]) on which [determineShifts] succeeds:
    - the offsets [(dX, dY)] are the means held by the two accumulators after
      every valid sample of the map was pushed, in scan order; what the
      uninitialised fields of the accumulators held does not matter;
    - a sample is the component of a valid cell as the [float] the loop
      stores it in: the component itself when it has at most 24 significant
      bits, as every disparity within a search window has, and the nearest
      [float] otherwise, as on the map [wide_cell], where the components
      16777217 and -16777217 give the offsets 16777216 and -16777216;
    - the row lines of the log, when one is written, carry for each row the
      mean of its valid vertical and horizontal samples: their sum over their
      number, and 0 for a row without valid cell; nothing else of the result
      depends on these per-row means;
    - in exact arithmetic each offset is the sum of the valid samples of its
      axis over their number;
    - this is not the mean of the per-row means: on the map [two_rows] the
      horizontal offset is 2, the mean of the row means is 1.5. *)
Theorem determineShifts_offsets_are_sample_means :
  forall (D : Type) (ops : DoubleOps D) (env : Env D) (params : Parameters D)
         (dX0 dY0 : D) (dm : DisparityMap) (a b c d : D)
         (sqrtQ : Q -> Q) (envQ : Env Q) (paramsQ : Parameters Q)
         (qX0 qY0 : Q) (dmQ : DisparityMap),
    correlated env params = Some dm ->
    fits_int dm ->
    result (determineShifts env params dX0 dY0) = Returned true ->
    correlated envQ paramsQ = Some dmQ ->
    fits_int dmQ ->
    result (determineShifts (ops := Q_ops sqrtQ) envQ paramsQ qX0 qY0)
      = Returned true ->
    (Z.of_nat (length (valid_cells (concat dmQ))) <= INT_MAX)%Z ->
    (dX (determineShifts env params dX0 dY0)
       = Mean (pushes (all_samples_x dm) (RunningStandardDeviation_new a b c d)) /\
     dY (determineShifts env params dX0 dY0)
       = Mean (pushes (all_samples_y dm) (RunningStandardDeviation_new a b c d))) /\
    (forall lines,
       logfile (determineShifts env params dX0 dY0) = Some lines ->
       List.filter is_row_line lines = row_lines 0 dm) /\
    (forall cells : list DisparityPixel,
       row_mean (samples_x cells)
       = (if has_valid_cell cells
          then (dsum (samples_x cells) / of_int (Z.of_nat (length (valid_cells cells))))%D
          else dzero) /\
       row_mean (samples_y cells)
       = (if has_valid_cell cells
          then (dsum (samples_y cells) / of_int (Z.of_nat (length (valid_cells cells))))%D
          else dzero)) /\
    ((dX (determineShifts (ops := Q_ops sqrtQ) envQ paramsQ qX0 qY0)
        == Qsum (all_samples_x (ops := Q_ops sqrtQ) dmQ)
           / inject_Z (Z.of_nat (length (valid_cells (concat dmQ)))))%Q /\
     (dY (determineShifts (ops := Q_ops sqrtQ) envQ paramsQ qX0 qY0)
        == Qsum (all_samples_y (ops := Q_ops sqrtQ) dmQ)
           / inject_Z (Z.of_nat (length (valid_cells (concat dmQ)))))%Q) /\
    (dX (plain_run two_rows) = 2%float /\
     mean_of_row_means (ops := float_ops) (samples_x (ops := float_ops)) two_rows
       = 1.5%float) /\
    (forall cells : list DisparityPixel,
       single_precision cells ->
       samples_x cells = map (fun p => of_int (fst p)) (valid_cells cells) /\
       samples_y cells = map (fun p => of_int (snd p)) (valid_cells cells)) /\
    (result (plain_run wide_cell) = Returned true /\
     dX (plain_run wide_cell) = 16777216%float /\
     dY (plain_run wide_cell) = (-16777216)%float).
Proof.
  intros D ops env params dX0 dY0 dm a b c d sqrtQ envQ paramsQ qX0 qY0 dmQ
         Hc Hf Hres HcQ HfQ HresQ HbQ.
  destruct (determineShifts_success env params dX0 dY0 dm Hc Hf Hres) as (Hl & Hv).
  destruct (determineShifts_accumulated env params dX0 dY0 dm Hc Hl Hf)
    as (_ & Hsome & Hfile).
  destruct (Hsome Hv) as (_ & HX & HY & _).
  split.
  { rewrite HX, HY. split; by apply Mean_pushes_fresh. }
  split.
  { intros lines Hlog.
    destruct (string_empty (rowLogFilePath params)); [congruence|].
    destruct Hfile as (h & wd & l & rr & Hfile). rewrite Hfile in Hlog.
    injection Hlog as <-.
    simpl. rewrite List.filter_app, row_lines_filter. simpl.
    destruct (Nat.eqb (valid_rows dm) 0); simpl; by rewrite app_nil_r. }
  split.
  { intros cells. split; apply row_mean_of_row.
    - unfold samples_x. apply length_map.
    - unfold samples_y. apply length_map. }
  split; [|split; [split; vm_compute; reflexivity|];
            split; [apply samples_single_precision|];
            repeat split; vm_compute; reflexivity].
  destruct (determineShifts_success (ops := Q_ops sqrtQ) envQ paramsQ qX0 qY0
              dmQ HcQ HfQ HresQ) as (HlQ & HvQ).
  destruct (determineShifts_accumulated (ops := Q_ops sqrtQ) envQ paramsQ qX0 qY0
              dmQ HcQ HlQ HfQ) as (_ & HsomeQ & _).
  destruct (HsomeQ HvQ) as (_ & HXQ & HYQ & _).
  assert (Hlx := all_samples_x_length (ops := Q_ops sqrtQ) dmQ).
  assert (Hly := all_samples_y_length (ops := Q_ops sqrtQ) dmQ).
  rewrite HXQ, HYQ, <- Hlx at 1. rewrite <- Hly.
  split; apply exact_Mean_is_average; try done; lia.
Qed.

Lemma two_rows_fits_int : fits_int two_rows.
Proof.
  split; [vm_compute; congruence|]. repeat constructor; vm_compute; congruence.
Qed.

Lemma determineShifts_offsets_are_sample_means_witness :
  correlated (float_env two_rows true)
    (float_parameters "left.cub" "right.cub" "") = Some two_rows /\
  fits_int two_rows /\
  result (plain_run two_rows) = Returned true /\
  correlated (Q_env two_rows true)
    (Q_parameters "left.cub" "right.cub" "") = Some two_rows /\
  result (exact_run two_rows) = Returned true /\
  (Z.of_nat (length (valid_cells (concat two_rows))) <= INT_MAX)%Z /\
  (dX (exact_run two_rows)
     == Qsum (all_samples_x (ops := Q_ops (fun q => q)) two_rows)
        / inject_Z (Z.of_nat (length (valid_cells (concat two_rows)))))%Q /\
  (dY (exact_run two_rows)
     == Qsum (all_samples_y (ops := Q_ops (fun q => q)) two_rows)
        / inject_Z (Z.of_nat (length (valid_cells (concat two_rows)))))%Q.
Proof.
  assert (Hb : (Z.of_nat (length (valid_cells (concat two_rows))) <= INT_MAX)%Z)
    by (vm_compute; congruence).
  pose proof (determineShifts_offsets_are_sample_means float float_ops
                (float_env two_rows true)
                (float_parameters "left.cub" "right.cub" "")
                PrimFloat.zero PrimFloat.zero two_rows
                PrimFloat.zero PrimFloat.zero PrimFloat.zero PrimFloat.zero
                (fun q => q) (Q_env two_rows true)
                (Q_parameters "left.cub" "right.cub" "") 0%Q 0%Q two_rows
                eq_refl two_rows_fits_int eq_refl
                eq_refl two_rows_fits_int eq_refl Hb) as W.
  split; [reflexivity|]. split; [exact two_rows_fits_int|].
  split; [reflexivity|]. split; [reflexivity|]. split; [reflexivity|].
  split; [exact Hb|].
  exact (proj1 (proj2 (proj2 (proj2 W)))).
Defined.

(** ** The driver *)

Section DriverFacts.
Context {D : Type} {ops : DoubleOps D}.

(** [determineShifts] prints no offset, and when it returns [false] the last
    line it printed is the diagnostic of the failure. *)
Lemma determineShifts_console (env : Env D) (params : Parameters D) (dX0 dY0 : D) :
  existsb is_offset_line (console (determineShifts env params dX0 dY0)) = false /\
  (result (determineShifts env params dX0 dY0) = Returned false ->
   exists diag,
     last (console (determineShifts env params dX0 dY0)) = Some diag /\
     is_diagnostic diag = true).
Proof.
  unfold determineShifts.
  destruct (file_exists env (leftFilePath params)); simpl; [|by eauto].
  destruct (file_exists env (rightFilePath params)); simpl; [|by eauto].
  destruct (image_size env (leftFilePath params)) as [[lcols lrows]|]; simpl; [|done].
  destruct (image_size env (rightFilePath params)) as [[rcols rrows]|]; simpl; [|done].
  destruct (usePyramid params), (string_empty (rowLogFilePath params)),
    (log_opens env (rowLogFilePath params)); simpl;
    try (destruct (numValidRows _ =? 0)%Z; simpl);
    (split; [done|]); (done || eauto).
Qed.

(** The offsets are printed only when [determineShifts] returned [true]. *)
Lemma main_prints_offsets_on_success_only (env : Env D) (argv : list string) :
  existsb is_offset_line (fst (fst (main env argv))) = true ->
  exists params,
    handle_arguments env argv = Returned (true, params) /\
    result (determineShifts env params (indeterminate env 8%nat)
              (indeterminate env 9%nat)) = Returned true.
Proof.
  unfold main. destruct (handle_arguments env argv) as [[[|] params]|e]; simpl;
    [|done|done].
  intros Hp. exists params. split; [done|].
  destruct (determineShifts_console env params (indeterminate env 8%nat)
              (indeterminate env 9%nat)) as (Hno & _).
  destruct (result _) as [[|]|e]; simpl in Hp; [done| |].
  - congruence.
  - rewrite existsb_app, Hno in Hp. done.
Qed.
End DriverFacts.

(** C8. What [main] does when [determineShifts] reports a failure by
    returning [false], as it does when an input file is missing, the log file
    cannot be created, or no valid match was found: the last line printed is
    the diagnostic of [determineShifts], no offset is printed, and the exit
    status is 0. *)
Theorem main_exit_status_on_failure :
  forall (D : Type) (ops : DoubleOps D) (env : Env D) (argv : list string)
         (params : Parameters D),
    handle_arguments env argv = Returned (true, params) ->
    result (determineShifts env params (indeterminate env 8%nat)
              (indeterminate env 9%nat)) = Returned false ->
    main env argv
    = (console (determineShifts env params (indeterminate env 8%nat)
                  (indeterminate env 9%nat)),
       logfile (determineShifts env params (indeterminate env 8%nat)
                  (indeterminate env 9%nat)),
       0%Z) /\
    existsb is_offset_line (fst (fst (main env argv))) = false /\
    exists diag,
      last (fst (fst (main env argv))) = Some diag /\ is_diagnostic diag = true.
Proof.
  intros D ops env argv params Hargs Hres.
  assert (Hmain : main env argv
                  = (console (determineShifts env params (indeterminate env 8%nat)
                                (indeterminate env 9%nat)),
                     logfile (determineShifts env params (indeterminate env 8%nat)
                                (indeterminate env 9%nat)),
                     0%Z)).
  { unfold main. rewrite Hargs, Hres. reflexivity. }
  destruct (determineShifts_console env params (indeterminate env 8%nat)
              (indeterminate env 9%nat)) as (Hno & Hdiag).
  rewrite Hmain. simpl. split; [done|]. split; [exact Hno | by apply Hdiag].
Qed.

Lemma main_exit_status_on_failure_witness :
  handle_arguments (float_env two_rows true)
    ["lrojitreg"; "missing.cub"; "right.cub"]
  = Returned (true, float_parameters "missing.cub" "right.cub" "") /\
  result (determineShifts (ops := float_ops) (float_env two_rows true)
            (float_parameters "missing.cub" "right.cub" "")
            (indeterminate (float_env two_rows true) 8%nat)
            (indeterminate (float_env two_rows true) 9%nat)) = Returned false /\
  main (ops := float_ops) (float_env two_rows true)
    ["lrojitreg"; "missing.cub"; "right.cub"]
  = ([ErrorInputMissing "missing.cub"], None, 0%Z).
Proof.
  split; [reflexivity|]. split; [reflexivity|].
  rewrite (proj1 (main_exit_status_on_failure float float_ops
                    (float_env two_rows true)
                    ["lrojitreg"; "missing.cub"; "right.cub"]
                    (float_parameters "missing.cub" "right.cub" "")
                    eq_refl eq_refl)).
  reflexivity.
Defined.

(** The three failures of the claim, run on binary64: each ends with exit
    status 0. A failure that surfaces as an exception ends with status 1. *)
Lemma main_failing_runs :
  main (ops := float_ops) (float_env two_rows true)
    ["lrojitreg"; "missing.cub"; "right.cub"]
  = ([ErrorInputMissing "missing.cub"], None, 0%Z) /\
  snd (main (ops := float_ops) (float_env two_rows false)
         ["lrojitreg"; "left.cub"; "right.cub"; "rows.log"]) = 0%Z /\
  last (fst (fst (main (ops := float_ops) (float_env two_rows false)
                    ["lrojitreg"; "left.cub"; "right.cub"; "rows.log"])))
  = Some (FailedCreateLog "rows.log") /\
  snd (main (ops := float_ops) (float_env no_matches true)
         ["lrojitreg"; "left.cub"; "right.cub"]) = 0%Z /\
  last (fst (fst (main (ops := float_ops) (float_env no_matches true)
                    ["lrojitreg"; "left.cub"; "right.cub"])))
  = Some ErrorNoValidMatches /\
  main (ops := float_ops) (float_env two_rows true) ["lrojitreg"]
  = ([CaughtError ArgumentErr], None, 1%Z).
Proof. repeat split; vm_compute; reflexivity. Qed.

(** ** remove_duplicates *)

Section RemoveDuplicatesFacts.
Context {D : Type} {ops : DoubleOps D}.

Lemma duplicate_scan_spec (ip1 ip2 : list (Vector3 D)) (i : nat) (js : list nat) (bad_entry : bool) :
  length ip1 = length ip2 ->
  (i < length ip1)%nat ->
  Forall (fun j => (j < length ip1)%nat) js ->
  duplicate_scan ip1 ip2 i js bad_entry
  = Some (bad_entry ||
          existsb (fun j => negb (Nat.eqb i j) && shares ip1 ip2 i j) js).
Proof.
  intros Hlen Hi. revert bad_entry.
  induction js as [|j js IH]; intros bad_entry Hjs.
  - simpl. by rewrite orb_false_r.
  - apply Forall_cons in Hjs as (Hj & Hjs). simpl.
    destruct (Nat.eqb i j) eqn:E; simpl; [by apply IH|].
    destruct (lookup_lt_is_Some_2 ip1 i Hi) as (a & Ha).
    destruct (lookup_lt_is_Some_2 ip1 j Hj) as (b & Hb).
    destruct (lookup_lt_is_Some_2 ip2 i ltac:(lia)) as (c & Hc).
    destruct (lookup_lt_is_Some_2 ip2 j ltac:(lia)) as (d & Hd).
    assert (Hs : shares ip1 ip2 i j = Vector3_eq a b || Vector3_eq c d)
      by (unfold shares; by rewrite Ha, Hb, Hc, Hd).
    rewrite Hs, Ha, Hb, Hc, Hd. simpl.
    destruct (Vector3_eq a b); simpl.
    + rewrite IH by done. by rewrite orb_true_r.
    + destruct (Vector3_eq c d); simpl.
      * rewrite IH by done. by rewrite orb_true_r.
      * by apply IH.
Qed.

Lemma duplicate_filter_spec (ip1 ip2 : list (Vector3 D)) (pending : list nat)
    (new_ip1 new_ip2 : list (Vector3 D)) :
  length ip1 = length ip2 ->
  Forall (fun i => (i < length ip1)%nat) pending ->
  duplicate_filter ip1 ip2 pending new_ip1 new_ip2
  = Some (new_ip1 ++ omap (fun i => ip1 !! i)
                       (List.filter (fun i => negb (duplicated ip1 ip2 i)) pending),
          new_ip2 ++ omap (fun i => ip2 !! i)
                       (List.filter (fun i => negb (duplicated ip1 ip2 i)) pending)).
Proof.
  intros Hlen. revert new_ip1 new_ip2.
  induction pending as [|i pending IH]; intros new_ip1 new_ip2 Hpending.
  - simpl. by rewrite !app_nil_r.
  - apply Forall_cons in Hpending as (Hi & Hpending). simpl.
    rewrite duplicate_scan_spec; [|done|done|].
    2:{ apply Forall_forall. intros j Hj. apply list_elem_of_In, in_seq in Hj. lia. }
    simpl. fold (duplicated ip1 ip2 i).
    destruct (duplicated ip1 ip2 i); simpl; [by apply IH|].
    destruct (lookup_lt_is_Some_2 ip1 i Hi) as (a & Ha).
    destruct (lookup_lt_is_Some_2 ip2 i ltac:(lia)) as (c & Hc).
    rewrite Ha, Hc. simpl. rewrite IH by done.
    by rewrite <- !app_assoc.
Qed.

Lemma omap_lookup_Forall2 (ip : list (Vector3 D)) (kept : list nat) :
  Forall (fun i => (i < length ip)%nat) kept ->
  Forall2 (fun i a => ip !! i = Some a) kept (omap (fun i => ip !! i) kept).
Proof.
  induction kept as [|i kept IH]; intros Hk; simpl; [constructor|].
  apply Forall_cons in Hk as (Hi & Hk).
  destruct (lookup_lt_is_Some_2 ip i Hi) as (a & Ha). rewrite Ha.
  constructor; [done | by apply IH].
Qed.

Lemma filter_seq_sorted (f : nat -> bool) (start len : nat) :
  StronglySorted lt (List.filter f (seq start len)).
Proof.
  revert start. induction len as [|len IH]; intros start; simpl; [constructor|].
  destruct (f start); [|apply IH].
  constructor; [apply IH|].
  apply Forall_forall. intros j Hj.
  apply list_elem_of_In, filter_In in Hj as (Hj & _). apply in_seq in Hj. lia.
Qed.

Lemma sorted_lookup_lt (l : list nat) (p q i j : nat) :
  StronglySorted lt l -> (p < q)%nat ->
  l !! p = Some i -> l !! q = Some j -> (i < j)%nat.
Proof.
  intros Hs. revert p q. induction Hs as [|x l Hs IH Hall]; intros p q Hpq Hp Hq.
  - done.
  - destruct q as [|q]; [lia|]. simpl in Hq.
    destruct p as [|p]; simpl in Hp.
    + injection Hp as <-. rewrite Forall_forall in Hall. apply Hall.
      by eapply list_elem_of_lookup_2.
    + apply (IH p q); (done || lia).
Qed.

Lemma survivors_spec (ip1 ip2 : list (Vector3 D)) (i : nat) :
  In i (survivors ip1 ip2) <->
  (i < length ip1)%nat /\
  forall j, (j < length ip1)%nat -> j <> i -> shares ip1 ip2 i j = false.
Proof.
  unfold survivors. rewrite filter_In, in_seq. unfold duplicated.
  rewrite negb_true_iff. split.
  - intros (Hi & Hex). split; [lia|]. intros j Hj Hne.
    destruct (shares ip1 ip2 i j) eqn:Es; [|done].
    assert (Ht : existsb (fun j => negb (Nat.eqb i j) && shares ip1 ip2 i j)
                   (seq 0 (length ip1)) = true).
    { apply existsb_exists. exists j. split; [apply in_seq; lia|].
      rewrite Es. destruct (Nat.eqb_spec i j); [congruence | done]. }
    congruence.
  - intros (Hi & Hall). split; [lia|].
    apply not_true_is_false. intros Ht.
    apply existsb_exists in Ht as (j & Hj & Hs).
    apply in_seq in Hj. apply andb_true_iff in Hs as (Hne & Hs).
    destruct (Nat.eqb_spec i j); [done|].
    rewrite Hall in Hs by (lia || congruence). done.
Qed.
End RemoveDuplicatesFacts.

(** C5. On two sequences of equal length [remove_duplicates] returns, and
    leaves two sequences of equal length that hold the entries of the
    surviving indices [kept] in increasing order of index. An index survives
    exactly when no other index shares its coordinate in either sequence, so
    every index with such a partner is removed; and no two distinct surviving
    entries share a coordinate in either output sequence. *)
Theorem remove_duplicates_spec :
  forall (D : Type) (ops : DoubleOps D) (ip1 ip2 : list (Vector3 D)),
    length ip1 = length ip2 ->
    exists (new_ip1 new_ip2 : list (Vector3 D)) (kept : list nat),
      remove_duplicates ip1 ip2 = Some (new_ip1, new_ip2) /\
      length new_ip1 = length new_ip2 /\
      StronglySorted lt kept /\
      Forall2 (fun i a => ip1 !! i = Some a) kept new_ip1 /\
      Forall2 (fun i c => ip2 !! i = Some c) kept new_ip2 /\
      (forall i, In i kept <->
         (i < length ip1)%nat /\
         forall j, (j < length ip1)%nat -> j <> i -> shares ip1 ip2 i j = false) /\
      (forall i j, (i < length ip1)%nat -> (j < length ip1)%nat -> j <> i ->
         shares ip1 ip2 i j = true -> ~ In i kept) /\
      (forall p q a b c d,
         p <> q ->
         new_ip1 !! p = Some a -> new_ip1 !! q = Some b ->
         new_ip2 !! p = Some c -> new_ip2 !! q = Some d ->
         Vector3_eq a b = false /\ Vector3_eq c d = false).
Proof.
  intros D ops ip1 ip2 Hlen.
  set (kept := survivors ip1 ip2).
  assert (Hk1 : Forall (fun i => (i < length ip1)%nat) kept).
  { apply Forall_forall. intros i Hi.
    apply list_elem_of_In, survivors_spec in Hi as (Hi & _). done. }
  assert (Hk2 : Forall (fun i => (i < length ip2)%nat) kept) by (by rewrite <- Hlen).
  assert (Hsorted : StronglySorted lt kept) by apply filter_seq_sorted.
  pose proof (omap_lookup_Forall2 ip1 kept Hk1) as F1.
  pose proof (omap_lookup_Forall2 ip2 kept Hk2) as F2.
  exists (omap (fun i => ip1 !! i) kept), (omap (fun i => ip2 !! i) kept), kept.
  split.
  { unfold remove_duplicates. rewrite duplicate_filter_spec; [done | done |].
    apply Forall_forall. intros i Hi. apply list_elem_of_In, in_seq in Hi. lia. }
  split.
  { by rewrite <- (Forall2_length _ _ _ F1), <- (Forall2_length _ _ _ F2). }
  split; [done|]. split; [done|]. split; [done|].
  split; [intros i; apply survivors_spec|].
  split.
  { intros i j Hi Hj Hne Hs Hin. apply survivors_spec in Hin as (_ & Hall).
    rewrite Hall in Hs by done. done. }
  intros p q a b c d Hpq Ha Hb Hc Hd.
  destruct (Forall2_lookup_r _ _ _ _ _ F1 Ha) as (i & Hpi & Hia).
  destruct (Forall2_lookup_r _ _ _ _ _ F1 Hb) as (j & Hqj & Hjb).
  destruct (Forall2_lookup_r _ _ _ _ _ F2 Hc) as (i' & Hpi' & Hic).
  destruct (Forall2_lookup_r _ _ _ _ _ F2 Hd) as (j' & Hqj' & Hjd).
  assert (i' = i) as -> by congruence. assert (j' = j) as -> by congruence.
  assert (Hij : i <> j).
  { destruct (Nat.lt_total p q) as [Hlt | [Heq | Hgt]]; [|done|].
    - pose proof (sorted_lookup_lt kept p q i j Hsorted Hlt Hpi Hqj). lia.
    - pose proof (sorted_lookup_lt kept q p j i Hsorted Hgt Hqj Hpi). lia. }
  assert (Hin : In i kept) by (apply list_elem_of_In; by eapply list_elem_of_lookup_2).
  apply survivors_spec in Hin as (Hi & Hall).
  assert (Hj : (j < length ip1)%nat) by (by eapply lookup_lt_Some).
  specialize (Hall j Hj ltac:(congruence)).
  unfold shares in Hall. rewrite Hia, Hjb, Hic, Hjd in Hall.
  by apply orb_false_iff in Hall.
Qed.

Lemma remove_duplicates_spec_witness :
  length sample_ip1 = length sample_ip2 /\
  remove_duplicates (ops := float_ops) sample_ip1 sample_ip2
  = Some ([ (5, 5, 1) ]%float, [ (8, 8, 1) ]%float) /\
  exists (new_ip1 new_ip2 : list (Vector3 float)) (kept : list nat),
    remove_duplicates (ops := float_ops) sample_ip1 sample_ip2
      = Some (new_ip1, new_ip2) /\
    length new_ip1 = length new_ip2.
Proof.
  split; [reflexivity|]. split; [vm_compute; reflexivity|].
  destruct (remove_duplicates_spec float float_ops sample_ip1 sample_ip2 eq_refl)
    as (n1 & n2 & kept & H1 & H2 & _).
  exists n1, n2, kept. by split.
Defined.

(** ** The stereo session *)

(** Runs one step of a session computation. *)
Ltac session_run :=
  repeat (unfold mbind, mret, Session_bind, Session_ret, vw_out, emit, throw,
            exit, undefined, fs_exists, store, load, try_catch_all,
            try_catch_IOErr, read_binary_match_file, read_binary_ip_file,
            write_binary_ip_file, write_binary_match_file, write_matrix,
            read_matrix, write_image, DiskImageView, DiskDisparityView;
          simpl).

Section AlignmentFacts.
Context {D : Type} {ops : DoubleOps D} {vw : VisionWorkbench D}.

(** The second part of [determine_image_alignment] when the two vectors of
    matches are of one length: the fitted matrix, or the identity after the
    warning when the fit throws; no file is touched. *)
Lemma fit_alignment_run (matched_ip1 matched_ip2 : list InterestPoint)
    (ransac_ip1 ransac_ip2 : list (Vector3 D)) (w : World) :
  remove_duplicates (iplist_to_vectorlist matched_ip1)
                    (iplist_to_vectorlist matched_ip2)
    = Some (ransac_ip1, ransac_ip2) ->
  fit_alignment matched_ip1 matched_ip2 w
  = (Done (match ransac ransac_ip2 ransac_ip1 with
           | Some T => T
           | None => identity_matrix3
           end),
     {| files := files w;
        events := events w ++
          [Say (PutativeMatches (length matched_ip1));
           Say RejectingOutliers;
           Say (RemovedDuplicates (Z.of_nat (length matched_ip1)
                                   - Z.of_nat (length ransac_ip1)));
           RunRansac;
           Say (match ransac ransac_ip2 ransac_ip1 with
                | Some T => AlignMatrix T
                | None => AlignmentFailedWarning
                end)] |}).
Proof.
  intros Hrd. unfold fit_alignment. session_run. rewrite Hrd. session_run.
  destruct (ransac ransac_ip2 ransac_ip1); session_run;
    by rewrite <- !app_assoc.
Qed.

Lemma fit_alignment_undefined (matched_ip1 matched_ip2 : list InterestPoint)
    (w : World) :
  remove_duplicates (iplist_to_vectorlist matched_ip1)
                    (iplist_to_vectorlist matched_ip2) = None ->
  fit_alignment matched_ip1 matched_ip2 w
  = (Stopped Undefined,
     {| files := files w;
        events := events w ++
          [Say (PutativeMatches (length matched_ip1)); Say RejectingOutliers] |}).
Proof.
  intros Hrd. unfold fit_alignment. session_run. rewrite Hrd. session_run.
  by rewrite <- !app_assoc.
Qed.

(** Whatever the matches, fitting touches no file and runs nothing but
    RANSAC, at most once. *)
Lemma fit_alignment_frame (matched_ip1 matched_ip2 : list InterestPoint)
    (w : World) :
  exists evs,
    snd (fit_alignment matched_ip1 matched_ip2 w)
      = {| files := files w; events := events w ++ evs |} /\
    (actions evs = [] \/ actions evs = [RunRansac]).
Proof.
  destruct (remove_duplicates (iplist_to_vectorlist matched_ip1)
              (iplist_to_vectorlist matched_ip2)) as [[r1 r2]|] eqn:Hrd.
  - rewrite (fit_alignment_run _ _ r1 r2) by done. eexists. split; [done|].
    right. reflexivity.
  - rewrite fit_alignment_undefined by done. eexists. split; [done|].
    left. reflexivity.
Qed.

(** First tier: the match file is on disk. *)
Lemma matched_interest_points_cached (input_file1 input_file2 : string)
    (lo hi : D) (w : World) (f : File) :
  files w !! match_file input_file1 input_file2 = Some f ->
  matched_interest_points input_file1 input_file2 lo hi w
  = (match f with
     | MatchFile ip1 ip2 => Done (ip1, ip2)
     | _ => Stopped (Raised (IOErr (match_file input_file1 input_file2)))
     end,
     {| files := files w;
        events := events w ++
          [Say (FoundCachedMatchFile (match_file input_file1 input_file2));
           ReadBinaryMatchFile (match_file input_file1 input_file2)] |}).
Proof.
  unfold match_file. intros Hm. unfold matched_interest_points. session_run.
  rewrite Hm. rewrite bool_decide_true by eauto. session_run. rewrite Hm.
  destruct f; session_run; by rewrite <- !app_assoc.
Qed.

(** Second tier: no match file, both interest point files on disk. *)
Lemma matched_interest_points_vwip (input_file1 input_file2 : string)
    (lo hi : D) (w : World) (ip1 ip2 : list InterestPoint) :
  files w !! match_file input_file1 input_file2 = None ->
  files w !! vwip_file input_file1 = Some (IpFile ip1) ->
  files w !! vwip_file input_file2 = Some (IpFile ip2) ->
  matched_interest_points input_file1 input_file2 lo hi w
  = (Done (matcher ip1 ip2),
     {| files := <[match_file input_file1 input_file2 :=
                     MatchFile (fst (matcher ip1 ip2)) (snd (matcher ip1 ip2))]>
                   (files w);
        events := events w ++
          [Say (FoundCachedIpFiles (vwip_file input_file1) (vwip_file input_file2));
           ReadBinaryIpFile (vwip_file input_file1);
           ReadBinaryIpFile (vwip_file input_file2);
           Say MatchingInterestPoints;
           RunMatcher;
           Say (CachingMatches (match_file input_file1 input_file2));
           WriteBinaryMatchFile (match_file input_file1 input_file2)] |}).
Proof.
  unfold match_file, vwip_file. intros Hm H1 H2.
  unfold matched_interest_points. session_run.
  rewrite Hm. rewrite bool_decide_false by (intros [? ?]; congruence).
  session_run. rewrite H1. rewrite bool_decide_true by eauto.
  session_run. rewrite H2. rewrite bool_decide_true by eauto.
  session_run. rewrite H1. session_run. rewrite H2. session_run.
  rewrite <- !app_assoc. simpl. by destruct (matcher ip1 ip2).
Qed.

(** Third tier: no match file and not both interest point files; the two
    input images load. *)
Lemma matched_interest_points_fresh (input_file1 input_file2 : string)
    (lo hi : D) (w : World) (image1 image2 : Image) :
  files w !! match_file input_file1 input_file2 = None ->
  files w !! vwip_file input_file1 = None \/
    files w !! vwip_file input_file2 = None ->
  files w !! input_file1 = Some (ImageFile image1) ->
  files w !! input_file2 = Some (ImageFile image2) ->
  let left_image :=
    normalize (remove_isis_special_pixels image1 lo) lo hi dzero done in
  let right_image :=
    normalize (remove_isis_special_pixels image2 lo) lo hi dzero done in
  let ip1 := descriptor left_image (detect_interest_points left_image) in
  let ip2 := descriptor right_image (detect_interest_points right_image) in
  let ip1_copy :=
    if decide (vwip_file input_file1 = vwip_file input_file2) then ip2 else ip1 in
  matched_interest_points input_file1 input_file2 lo hi w
  = (Done (matcher ip1_copy ip2),
     {| files :=
          <[match_file input_file1 input_file2 :=
              MatchFile (fst (matcher ip1_copy ip2)) (snd (matcher ip1_copy ip2))]>
            (<[vwip_file input_file2 := IpFile ip2]>
               (<[vwip_file input_file1 := IpFile ip1]> (files w)));
        events := events w ++
          [Say LocatingInterestPoints;
           OpenImage input_file1; OpenImage input_file2;
           Say (Processing input_file1); DetectInterestPoints input_file1;
           Say (Located (length (detect_interest_points left_image)));
           Say (Processing input_file2); DetectInterestPoints input_file2;
           Say (Located (length (detect_interest_points right_image)));
           Say GeneratingDescriptors;
           GenerateDescriptors input_file1; GenerateDescriptors input_file2;
           Say DescriptorsDone;
           Say (CachingInterestPoints (vwip_file input_file1) (vwip_file input_file2));
           WriteBinaryIpFile (vwip_file input_file1);
           WriteBinaryIpFile (vwip_file input_file2);
           ReadBinaryIpFile (vwip_file input_file1);
           ReadBinaryIpFile (vwip_file input_file2);
           Say MatchingInterestPoints;
           RunMatcher;
           Say (CachingMatches (match_file input_file1 input_file2));
           WriteBinaryMatchFile (match_file input_file1 input_file2)] |}).
Proof.
  intros Hm Hv H1 H2 left_image right_image ip1 ip2 ip1_copy.
  unfold match_file, vwip_file in *.
  set (v1 := prefix_from_filename input_file1 +:+ ".vwip") in *.
  set (v2 := prefix_from_filename input_file2 +:+ ".vwip") in *.
  assert (Hfound : (if bool_decide (is_Some (files w !! v1))
                    then bool_decide (is_Some (files w !! v2)) else false) = false).
  { destruct Hv as [Hv | Hv]; rewrite Hv.
    - by rewrite bool_decide_false by (intros [? ?]; congruence).
    - rewrite (bool_decide_false (is_Some None)) by (intros [? ?]; congruence).
      by destruct (bool_decide _). }
  unfold matched_interest_points, locate_interest_points. session_run.
  rewrite Hm. rewrite bool_decide_false by (intros [? ?]; congruence).
  session_run. fold v1 v2.
  destruct (bool_decide (is_Some (files w !! v1))) eqn:E1; session_run.
  - rewrite Hfound. session_run. rewrite H1. session_run. rewrite H2. session_run.
    fold left_image right_image ip1 ip2.
    assert (Hback : <[v2 := IpFile ip2]> (<[v1 := IpFile ip1]> (files w)) !! v1
                    = Some (IpFile ip1_copy)).
    { subst ip1_copy. destruct (decide (v1 = v2)) as [->|Hne].
      - by rewrite lookup_insert_eq.
      - by rewrite lookup_insert_ne, lookup_insert_eq. }
    rewrite Hback. session_run. rewrite lookup_insert_eq. session_run.
    rewrite <- !app_assoc. simpl. by destruct (matcher ip1_copy ip2).
  - rewrite H1. session_run. rewrite H2. session_run.
    fold left_image right_image ip1 ip2.
    assert (Hback : <[v2 := IpFile ip2]> (<[v1 := IpFile ip1]> (files w)) !! v1
                    = Some (IpFile ip1_copy)).
    { subst ip1_copy. destruct (decide (v1 = v2)) as [->|Hne].
      - by rewrite lookup_insert_eq.
      - by rewrite lookup_insert_ne, lookup_insert_eq. }
    rewrite Hback. session_run. rewrite lookup_insert_eq. session_run.
    rewrite <- !app_assoc. simpl. by destruct (matcher ip1_copy ip2).
Qed.
End AlignmentFacts.

Section CacheTiers.
Context {D : Type} {ops : DoubleOps D} {vw : VisionWorkbench D}.

Lemma new_actions_app (w w' : World) (evs : list (Event D)) :
  events w' = events w ++ evs -> new_actions w w' = actions evs.
Proof. intros E. unfold new_actions. by rewrite E, drop_app_length. Qed.

Lemma actions_app (evs1 evs2 : list (Event D)) :
  actions (evs1 ++ evs2) = actions evs1 ++ actions evs2.
Proof. apply List.filter_app. Qed.

Lemma determine_image_alignment_unfold (input_file1 input_file2 : string)
    (lo hi : D) (w : World) :
  determine_image_alignment input_file1 input_file2 lo hi w
  = match matched_interest_points input_file1 input_file2 lo hi w with
    | (Done matched, w1) => fit_alignment (fst matched) (snd matched) w1
    | (Stopped s, w1) => (Stopped s, w1)
    end.
Proof. reflexivity. Qed.

(** The alignment after the cache part left the matches [matched] in the
    world [w1], having done [acts] since [w]. *)
Lemma alignment_after_matching (input_file1 input_file2 : string) (lo hi : D)
    (w w1 : World) (matched : list InterestPoint * list InterestPoint)
    (evs : list (Event D)) :
  matched_interest_points input_file1 input_file2 lo hi w = (Done matched, w1) ->
  events w1 = events w ++ evs ->
  files (snd (determine_image_alignment input_file1 input_file2 lo hi w)) = files w1 /\
  exists tail,
    new_actions w (snd (determine_image_alignment input_file1 input_file2 lo hi w))
      = actions evs ++ tail /\
    (tail = [] \/ tail = [RunRansac]).
Proof.
  intros Hm Hev. rewrite determine_image_alignment_unfold, Hm.
  destruct (fit_alignment_frame (fst matched) (snd matched) w1) as (evs2 & Hw & Ht).
  rewrite Hw. simpl. split; [done|].
  exists (actions evs2). split; [|done].
  rewrite (new_actions_app w _ (evs ++ evs2)); [apply actions_app|].
  simpl. by rewrite Hev, <- app_assoc.
Qed.
(** A second look-up after a successful first one finds the match file and
    returns the same matches, reading that file and doing nothing else. *)
Lemma matched_interest_points_twice (input_file1 input_file2 : string)
    (lo hi : D) (w : World) :
  (exists ip1 ip2,
     files w !! match_file input_file1 input_file2 = Some (MatchFile ip1 ip2)) \/
  (files w !! match_file input_file1 input_file2 = None /\
   ((exists ip1 ip2,
       files w !! vwip_file input_file1 = Some (IpFile ip1) /\
       files w !! vwip_file input_file2 = Some (IpFile ip2)) \/
    ((files w !! vwip_file input_file1 = None \/
      files w !! vwip_file input_file2 = None) /\
     exists image1 image2,
       files w !! input_file1 = Some (ImageFile image1) /\
       files w !! input_file2 = Some (ImageFile image2)))) ->
  exists matched w1,
    matched_interest_points input_file1 input_file2 lo hi w = (Done matched, w1) /\
    matched_interest_points input_file1 input_file2 lo hi w1
    = (Done matched,
       {| files := files w1;
          events := events w1 ++
            [Say (FoundCachedMatchFile (match_file input_file1 input_file2));
             ReadBinaryMatchFile (match_file input_file1 input_file2)] |}).
Proof.
  intros [(ip1 & ip2 & Hm) | (Hm & [(ip1 & ip2 & H1 & H2) |
                                    (Hv & image1 & image2 & H1 & H2)])].
  - rewrite (matched_interest_points_cached _ _ _ _ _ (MatchFile ip1 ip2) Hm).
    eexists _, _. split; [reflexivity|].
    by rewrite (matched_interest_points_cached _ _ _ _ _ (MatchFile ip1 ip2)).
  - rewrite (matched_interest_points_vwip _ _ _ _ _ ip1 ip2 Hm H1 H2).
    eexists _, _. split; [reflexivity|].
    erewrite matched_interest_points_cached
      by (simpl; apply lookup_insert_eq).
    by destruct (matcher ip1 ip2).
  - rewrite (matched_interest_points_fresh _ _ _ _ _ image1 image2 Hm Hv H1 H2).
    eexists _, _. split; [reflexivity|].
    erewrite matched_interest_points_cached
      by (simpl; apply lookup_insert_eq).
    by destruct (matcher _ _).
Qed.
End CacheTiers.

Section TierFacts.
Context {D : Type} {ops : DoubleOps D} {vw : VisionWorkbench D}.

(** The alignment once the cache part has left the matches. *)
Lemma alignment_fitted (input_file1 input_file2 : string) (lo hi : D)
    (w w1 : World) (ip1 ip2 : list InterestPoint) (evs : list (Event D)) :
  matched_interest_points input_file1 input_file2 lo hi w = (Done (ip1, ip2), w1) ->
  events w1 = events w ++ evs ->
  let r := determine_image_alignment input_file1 input_file2 lo hi w in
  fst r = fit_outcome ip1 ip2 /\
  files (snd r) = files w1 /\
  new_actions w (snd r) = actions evs ++ fit_actions ip1 ip2.
Proof.
  intros Hm Hev r. subst r.
  rewrite determine_image_alignment_unfold, Hm. simpl.
  unfold fit_outcome, fit_actions, fitted.
  destruct (remove_duplicates (iplist_to_vectorlist ip1) (iplist_to_vectorlist ip2))
    as [[r1 r2]|] eqn:Hrd.
  - rewrite (fit_alignment_run ip1 ip2 r1 r2 w1 Hrd). simpl.
    split; [done|]. split; [done|].
    erewrite new_actions_app by (simpl; rewrite Hev, <- app_assoc; reflexivity).
    rewrite actions_app. by f_equal.
  - rewrite (fit_alignment_undefined ip1 ip2 w1 Hrd). simpl.
    split; [done|]. split; [done|].
    erewrite new_actions_app by (simpl; rewrite Hev, <- app_assoc; reflexivity).
    by rewrite actions_app.
Qed.
End TierFacts.

(** C6, as stated, fails: the left image has its interest point file on
    disk, the right one has none. The cached file is not used: interest
    points are detected and described for both images, and the cached file
    is overwritten. *)
Lemma cached_interest_points_are_detected_again :
  files partial_world !! "left__right.match" = None /\
  is_Some (files partial_world !! "left.vwip") /\
  files partial_world !! "right.vwip" = None /\
  new_actions partial_world
    (snd (determine_image_alignment (ops := float_ops) (vw := sample_vw)
            "left.cub" "right.cub" 0%float 1%float partial_world))
  = [OpenImage "left.cub"; OpenImage "right.cub";
     DetectInterestPoints "left.cub"; DetectInterestPoints "right.cub";
     GenerateDescriptors "left.cub"; GenerateDescriptors "right.cub";
     WriteBinaryIpFile "left.vwip"; WriteBinaryIpFile "right.vwip";
     ReadBinaryIpFile "left.vwip"; ReadBinaryIpFile "right.vwip";
     RunMatcher; WriteBinaryMatchFile "left__right.match"; RunRansac] /\
  files (snd (determine_image_alignment (ops := float_ops) (vw := sample_vw)
                "left.cub" "right.cub" 0%float 1%float partial_world))
    !! "left.vwip"
  <> files partial_world !! "left.vwip".
Proof.
  split; [vm_compute; reflexivity|].
  split; [vm_compute; eauto|].
  split; [vm_compute; reflexivity|].
  split; [vm_compute; reflexivity|].
  vm_compute. intros E. discriminate E.
Qed.

(** C6, amended. [determine_image_alignment] looks its matches up in three
    tiers. In each case the theorem gives how the call ends, the files it
    leaves and, in order, everything it does besides printing messages.
    - The match file of the pair holds matches: they are read and fitted;
      nothing else is done and the files on disk are as before. A match file
      that does not hold matches ends the call with the error of reading it.
    - There is no match file and the interest point files of both images
      hold points: they are read, the matcher is run on them, the match file
      is written with what the matcher returned, and that is fitted.
    - There is no match file and an interest point file is missing, be it
      one or both: both images are opened, interest points are detected and
      described for both, both interest point files are written, one that
      was on disk being overwritten, and read back; then the matcher is run
      on them, the match file is written and the matches are fitted.
    Fitting culls duplicates and runs RANSAC once on what is left; the call
    returns its matrix, or the identity when RANSAC throws. *)
Theorem determine_image_alignment_cache_tiers :
  forall (D : Type) (ops : DoubleOps D) (vw : VisionWorkbench D)
         (input_file1 input_file2 : string) (lo hi : D) (w : World),
    let r := determine_image_alignment input_file1 input_file2 lo hi w in
    let w' := snd r in
    let mf := match_file input_file1 input_file2 in
    let v1 := vwip_file input_file1 in
    let v2 := vwip_file input_file2 in
    (forall ip1 ip2,
       files w !! mf = Some (MatchFile ip1 ip2) ->
       fst r = fit_outcome ip1 ip2 /\
       files w' = files w /\
       new_actions w w' = ReadBinaryMatchFile mf :: fit_actions ip1 ip2) /\
    (forall f,
       files w !! mf = Some f ->
       (forall ip1 ip2, f <> MatchFile ip1 ip2) ->
       fst r = Stopped (Raised (IOErr mf)) /\
       files w' = files w /\
       new_actions w w' = [ReadBinaryMatchFile mf]) /\
    (files w !! mf = None ->
     forall ip1 ip2,
       files w !! v1 = Some (IpFile ip1) ->
       files w !! v2 = Some (IpFile ip2) ->
       let matched := matcher ip1 ip2 in
       fst r = fit_outcome (fst matched) (snd matched) /\
       files w' = <[mf := MatchFile (fst matched) (snd matched)]> (files w) /\
       new_actions w w'
         = [ReadBinaryIpFile v1; ReadBinaryIpFile v2; RunMatcher;
            WriteBinaryMatchFile mf] ++ fit_actions (fst matched) (snd matched)) /\
    (files w !! mf = None ->
     files w !! v1 = None \/ files w !! v2 = None ->
     forall image1 image2,
       files w !! input_file1 = Some (ImageFile image1) ->
       files w !! input_file2 = Some (ImageFile image2) ->
       let left_image :=
         normalize (remove_isis_special_pixels image1 lo) lo hi dzero done in
       let right_image :=
         normalize (remove_isis_special_pixels image2 lo) lo hi dzero done in
       let ip1 := descriptor left_image (detect_interest_points left_image) in
       let ip2 := descriptor right_image (detect_interest_points right_image) in
       let ip1_copy := if decide (v1 = v2) then ip2 else ip1 in
       let matched := matcher ip1_copy ip2 in
       fst r = fit_outcome (fst matched) (snd matched) /\
       files w' = <[mf := MatchFile (fst matched) (snd matched)]>
                    (<[v2 := IpFile ip2]> (<[v1 := IpFile ip1]> (files w))) /\
       new_actions w w'
         = [OpenImage input_file1; OpenImage input_file2;
            DetectInterestPoints input_file1; DetectInterestPoints input_file2;
            GenerateDescriptors input_file1; GenerateDescriptors input_file2;
            WriteBinaryIpFile v1; WriteBinaryIpFile v2;
            ReadBinaryIpFile v1; ReadBinaryIpFile v2;
            RunMatcher; WriteBinaryMatchFile mf]
           ++ fit_actions (fst matched) (snd matched)).
Proof.
  intros D ops vw input_file1 input_file2 lo hi w r w' mf v1 v2.
  split; [|split; [|split]].
  - intros ip1 ip2 Hf.
    pose proof (matched_interest_points_cached input_file1 input_file2 lo hi w
                  (MatchFile ip1 ip2) Hf) as Hrun.
    destruct (alignment_fitted _ _ _ _ _ _ _ _ _ Hrun eq_refl) as (H1 & H2 & H3).
    done.
  - intros f Hf Hno.
    pose proof (matched_interest_points_cached input_file1 input_file2 lo hi w f Hf)
      as Hrun.
    subst r w'. rewrite determine_image_alignment_unfold, Hrun.
    destruct f as [| |ip1 ip2| |]; try (by destruct (Hno ip1 ip2)); simpl;
      (split; [done|]); (split; [done|]);
      by erewrite new_actions_app by reflexivity.
  - intros Hm ip1 ip2 H1 H2 matched.
    pose proof (matched_interest_points_vwip input_file1 input_file2 lo hi w
                  ip1 ip2 Hm H1 H2) as Hrun.
    rewrite (surjective_pairing (matcher ip1 ip2)) in Hrun at 1.
    destruct (alignment_fitted _ _ _ _ _ _ _ _ _ Hrun eq_refl) as (E1 & E2 & E3).
    done.
  - intros Hm Hv image1 image2 H1 H2 left_image right_image ip1 ip2 ip1_copy matched.
    pose proof (matched_interest_points_fresh input_file1 input_file2 lo hi w
                  image1 image2 Hm Hv H1 H2) as Hrun.
    cbv zeta in Hrun. fold left_image right_image ip1 ip2 in Hrun.
    fold v1 v2 in Hrun. fold ip1_copy in Hrun. fold matched in Hrun.
    rewrite (surjective_pairing matched) in Hrun at 1.
    destruct (alignment_fitted _ _ _ _ _ _ _ _ _ Hrun eq_refl) as (E1 & E2 & E3).
    done.
Qed.

Lemma determine_image_alignment_cache_tiers_witness :
  (files cached_world !! "left__right.match"
     = Some (MatchFile (vw := sample_vw) [(1, 1); (2, 3)]%float [(1, 1); (2, 3)]%float) /\
   files (snd (determine_image_alignment (ops := float_ops) (vw := sample_vw)
                 "left.cub" "right.cub" 0%float 1%float cached_world))
     = files cached_world /\
   new_actions cached_world
     (snd (determine_image_alignment (ops := float_ops) (vw := sample_vw)
             "left.cub" "right.cub" 0%float 1%float cached_world))
     = [ReadBinaryMatchFile "left__right.match"; RunRansac]) /\
  (files vwip_world !! "left__right.match" = None /\
   new_actions vwip_world
     (snd (determine_image_alignment (ops := float_ops) (vw := sample_vw)
             "left.cub" "right.cub" 0%float 1%float vwip_world))
     = [ReadBinaryIpFile "left.vwip"; ReadBinaryIpFile "right.vwip"; RunMatcher;
        WriteBinaryMatchFile "left__right.match"; RunRansac]) /\
  (files sample_world !! "left__right.match" = None /\
   files sample_world !! "left.vwip" = None /\
   new_actions sample_world
     (snd (determine_image_alignment (ops := float_ops) (vw := sample_vw)
             "left.cub" "right.cub" 0%float 1%float sample_world))
     = [OpenImage "left.cub"; OpenImage "right.cub";
        DetectInterestPoints "left.cub"; DetectInterestPoints "right.cub";
        GenerateDescriptors "left.cub"; GenerateDescriptors "right.cub";
        WriteBinaryIpFile "left.vwip"; WriteBinaryIpFile "right.vwip";
        ReadBinaryIpFile "left.vwip"; ReadBinaryIpFile "right.vwip";
        RunMatcher; WriteBinaryMatchFile "left__right.match"; RunRansac]).
Proof.
  pose proof (determine_image_alignment_cache_tiers float float_ops sample_vw
                "left.cub" "right.cub" 0%float 1%float) as W.
  assert (H1 : files cached_world !! "left__right.match"
               = Some (MatchFile (vw := sample_vw) [(1, 1); (2, 3)]%float
                         [(1, 1); (2, 3)]%float))
    by (vm_compute; reflexivity).
  split; [|split].
  - split; [exact H1|].
    exact (proj2 (proj1 (W cached_world) _ _ H1)).
  - split; [reflexivity|].
    exact (proj2 (proj2 (proj1 (proj2 (proj2 (W vwip_world))) eq_refl _ _
                           eq_refl eq_refl))).
  - split; [reflexivity|]. split; [reflexivity|].
    exact (proj2 (proj2 (proj2 (proj2 (proj2 (W sample_world))) eq_refl
                           (or_introl eq_refl) _ _ eq_refl eq_refl))).
Defined.

(** ** The preprocessing hook *)

Section PreprocessingFacts.
Context {D : Type} {ops : DoubleOps D} {vw : VisionWorkbench D}.

(** The map-projected branch: two images are written and nothing else is
    done. *)
Lemma align_and_write_map_projected (self : StereoSessionIsis)
    (settings : StereoSettings) (georef1 georef2 : GeoReference)
    (input_file1 input_file2 : string) (image1 image2 : Image) (lo hi : D)
    (output_file1 output_file2 : string) (w : World) :
  Matrix_eq (transform georef1) identity_matrix3 = false ->
  Matrix_eq (transform georef2) identity_matrix3 = false ->
  align_and_write self settings georef1 georef2 input_file1 input_file2
    image1 image2 lo hi output_file1 output_file2 w
  = (Done tt,
     {| files :=
          <[output_file2 :=
              ImageFile (channel_cast_rescale_uint8
                (crop (geo_transform
                         (normalize (remove_isis_special_pixels image2 lo)
                            lo hi dzero done)
                         (transform georef2) (transform georef1))
                   0 0 (cols image1) (rows image1)))]>
            (<[output_file1 :=
                 ImageFile (channel_cast_rescale_uint8
                   (normalize (remove_isis_special_pixels image1 lo)
                      lo hi dzero done))]>
               (files w));
        events := events w ++
          [Say MapProjectedDetected;
           WriteImage output_file1; WriteImage output_file2] |}).
Proof.
  intros H1 H2. unfold align_and_write. rewrite H1, H2. session_run.
  by rewrite <- !app_assoc.
Qed.

(** The hook itself: it tests two default-constructed georeference objects
    and so takes the unprojected branch. *)
Lemma pre_preprocessing_hook_run (self : StereoSessionIsis)
    (settings : StereoSettings) (input_file1 input_file2 : string)
    (image1 image2 : Image) (w : World) :
  Matrix_eq (ops := ops) identity_matrix3 identity_matrix3 = true ->
  files w !! input_file1 = Some (ImageFile image1) ->
  files w !! input_file2 = Some (ImageFile image2) ->
  let left_range := isis_min_max_channel_values image1 (get_no_data_value image1) in
  let right_range := isis_min_max_channel_values image2 (get_no_data_value image2) in
  let lo := std_min (fst left_range) (fst right_range) in
  let hi := std_min (snd left_range) (snd right_range) in
  let w0 := {| files := files w;
               events := events w ++
                 [OpenImage input_file1; OpenImage input_file2;
                  Say (ComputingMinMax (fst left_range) (snd left_range)
                                       (fst right_range) (snd right_range));
                  Say UnprojectedDetected] |} in
  let aligned :=
    if keypoint_alignment settings
    then determine_image_alignment input_file1 input_file2 lo hi w0
    else (Done identity_matrix3, w0) in
  pre_preprocessing_hook self settings input_file1 input_file2 w
  = match fst aligned with
    | Done align_matrix =>
        (Done (m_out_prefix self +:+ "-L.tif", m_out_prefix self +:+ "-R.tif"),
         {| files :=
              <[m_out_prefix self +:+ "-R.tif" :=
                  ImageFile (channel_cast_rescale_uint8
                    (homography_transform
                       (normalize (remove_isis_special_pixels image2 lo)
                          lo hi dzero done)
                       align_matrix (cols image1) (rows image1)))]>
                (<[m_out_prefix self +:+ "-L.tif" :=
                     ImageFile (channel_cast_rescale_uint8
                       (normalize (remove_isis_special_pixels image1 lo)
                          lo hi dzero done))]>
                   (<[m_out_prefix self +:+ "-align.exr" := MatrixFile align_matrix]>
                      (files (snd aligned))));
            events := events (snd aligned) ++
              [WriteMatrix (m_out_prefix self +:+ "-align.exr");
               Say WritingPreAligned;
               WriteImage (m_out_prefix self +:+ "-L.tif");
               WriteImage (m_out_prefix self +:+ "-R.tif")] |})
    | Stopped s => (Stopped s, snd aligned)
    end.
Proof.
  intros Hid H1 H2 left_range right_range lo hi w0 aligned.
  unfold pre_preprocessing_hook, align_and_write. session_run.
  rewrite H1. session_run. rewrite H2. session_run.
  rewrite Hid. session_run.
  fold left_range right_range. fold lo hi.
  rewrite <- !app_assoc. simpl. fold w0.
  subst aligned. destruct (keypoint_alignment settings).
  - destruct (determine_image_alignment input_file1 input_file2 lo hi w0)
      as [[T|s] w1]; session_run; [|done].
    by rewrite <- !app_assoc.
  - session_run. by rewrite <- !app_assoc.
Qed.
End PreprocessingFacts.

(** C7, as stated, fails: both sample images carry a georeference that is
    not the identity, and with key point alignment on the hook announces
    unprojected images, detects, describes and matches interest points, runs
    RANSAC and leaves the cache artifacts and the alignment matrix on disk. *)
Lemma map_projected_pair_is_aligned_by_features :
  (exists image1 image2 : @Image float sample_vw,
     files sample_world !! "left.cub" = Some (ImageFile (vw := sample_vw) image1) /\
     files sample_world !! "right.cub" = Some (ImageFile (vw := sample_vw) image2) /\
     Matrix_eq (ops := float_ops) (@read_georeference float sample_vw image1)
       (identity_matrix3 (ops := float_ops)) = false /\
     Matrix_eq (ops := float_ops) (@read_georeference float sample_vw image2)
       (identity_matrix3 (ops := float_ops)) = false) /\
  fst sample_preprocessing = Done ("out-L.tif", "out-R.tif") /\
  existsb says_map_projected (events (snd sample_preprocessing)) = false /\
  existsb says_unprojected (events (snd sample_preprocessing)) = true /\
  List.filter is_alignment_work (events (snd sample_preprocessing))
  = [DetectInterestPoints "left.cub"; DetectInterestPoints "right.cub";
     GenerateDescriptors "left.cub"; GenerateDescriptors "right.cub";
     WriteBinaryIpFile "left.vwip"; WriteBinaryIpFile "right.vwip";
     ReadBinaryIpFile "left.vwip"; ReadBinaryIpFile "right.vwip";
     RunMatcher; WriteBinaryMatchFile "left__right.match"; RunRansac] /\
  is_Some (files (snd sample_preprocessing) !! "left__right.match") /\
  is_Some (files (snd sample_preprocessing) !! "out-align.exr").
Proof.
  split.
  { eexists _, _. split; [reflexivity|]. split; [reflexivity|].
    split; vm_compute; reflexivity. }
  split; [vm_compute; reflexivity|].
  split; [vm_compute; reflexivity|].
  split; [vm_compute; reflexivity|].
  split; [vm_compute; reflexivity|].
  split; vm_compute; eauto.
Qed.

(** C7, amended. When the two georeference objects the preprocessing tests
    are both different from the identity, it takes the map-projected path:
    it announces it, adopts the first georeference as the common frame,
    transforms the second image into it, crops to the extent of the first
    image and writes the two images; no interest point or match file is read
    or written and no detector, matcher or fit is run. The hook, however,
    tests two default-constructed objects (the code reading the georeferences
    of the input files is commented out): for every pair of images that load,
    whatever georeference they carry, it announces unprojected images, obtains
    the alignment matrix from [determine_image_alignment] when key point
    alignment is on (the identity otherwise), writes it to the matrix file and
    writes the two aligned images. *)
Theorem pre_preprocessing_hook_paths :
  forall (D : Type) (ops : DoubleOps D) (vw : VisionWorkbench D)
         (self : StereoSessionIsis) (settings : StereoSettings)
         (georef1 georef2 : GeoReference) (input_file1 input_file2 : string)
         (image1 image2 : Image) (lo' hi' : D)
         (output_file1 output_file2 : string) (w : World),
    Matrix_eq (ops := ops) identity_matrix3 identity_matrix3 = true ->
    files w !! input_file1 = Some (ImageFile image1) ->
    files w !! input_file2 = Some (ImageFile image2) ->
    Matrix_eq (transform georef1) identity_matrix3 = false ->
    Matrix_eq (transform georef2) identity_matrix3 = false ->
    (let branch := align_and_write self settings georef1 georef2
                     input_file1 input_file2 image1 image2 lo' hi'
                     output_file1 output_file2 w in
     fst branch = Done tt /\
     events (snd branch) = events w ++
       [Say MapProjectedDetected; WriteImage output_file1; WriteImage output_file2] /\
     files (snd branch)
     = <[output_file2 :=
           ImageFile (channel_cast_rescale_uint8
             (crop (geo_transform
                      (normalize (remove_isis_special_pixels image2 lo')
                         lo' hi' dzero done)
                      (transform georef2) (transform georef1))
                0 0 (cols image1) (rows image1)))]>
         (<[output_file1 :=
              ImageFile (channel_cast_rescale_uint8
                (normalize (remove_isis_special_pixels image1 lo')
                   lo' hi' dzero done))]>
            (files w)) /\
     List.filter is_alignment_work (new_actions w (snd branch)) = []) /\
    (let left_range := isis_min_max_channel_values image1 (get_no_data_value image1) in
     let right_range := isis_min_max_channel_values image2 (get_no_data_value image2) in
     let lo := std_min (fst left_range) (fst right_range) in
     let hi := std_min (snd left_range) (snd right_range) in
     let w0 := {| files := files w;
                  events := events w ++
                    [OpenImage input_file1; OpenImage input_file2;
                     Say (ComputingMinMax (fst left_range) (snd left_range)
                                          (fst right_range) (snd right_range));
                     Say UnprojectedDetected] |} in
     let aligned :=
       if keypoint_alignment settings
       then determine_image_alignment input_file1 input_file2 lo hi w0
       else (Done identity_matrix3, w0) in
     pre_preprocessing_hook self settings input_file1 input_file2 w
     = match fst aligned with
       | Done align_matrix =>
           (Done (m_out_prefix self +:+ "-L.tif", m_out_prefix self +:+ "-R.tif"),
            {| files :=
                 <[m_out_prefix self +:+ "-R.tif" :=
                     ImageFile (channel_cast_rescale_uint8
                       (homography_transform
                          (normalize (remove_isis_special_pixels image2 lo)
                             lo hi dzero done)
                          align_matrix (cols image1) (rows image1)))]>
                   (<[m_out_prefix self +:+ "-L.tif" :=
                        ImageFile (channel_cast_rescale_uint8
                          (normalize (remove_isis_special_pixels image1 lo)
                             lo hi dzero done))]>
                      (<[m_out_prefix self +:+ "-align.exr" := MatrixFile align_matrix]>
                         (files (snd aligned))));
               events := events (snd aligned) ++
                 [WriteMatrix (m_out_prefix self +:+ "-align.exr");
                  Say WritingPreAligned;
                  WriteImage (m_out_prefix self +:+ "-L.tif");
                  WriteImage (m_out_prefix self +:+ "-R.tif")] |})
       | Stopped s => (Stopped s, snd aligned)
       end).
Proof.
  intros D ops vw self settings georef1 georef2 input_file1 input_file2
         image1 image2 lo' hi' output_file1 output_file2 w Hid H1 H2 Hg1 Hg2.
  split.
  - cbv zeta. rewrite align_and_write_map_projected by done. simpl.
    repeat split. by erewrite new_actions_app by reflexivity.
  - by apply pre_preprocessing_hook_run.
Qed.

Lemma pre_preprocessing_hook_paths_witness :
  Matrix_eq (ops := float_ops) (identity_matrix3 (ops := float_ops))
    (identity_matrix3 (ops := float_ops)) = true /\
  files sample_world !! "left.cub"
    = Some (ImageFile (vw := sample_vw) (100, 80, sample_projection)%Z) /\
  files sample_world !! "right.cub"
    = Some (ImageFile (vw := sample_vw) (100, 80, sample_projection)%Z) /\
  Matrix_eq (ops := float_ops) sample_projection
    (identity_matrix3 (ops := float_ops)) = false /\
  events (snd (align_and_write (ops := float_ops) (vw := sample_vw)
                 sample_session sample_settings
                 {| transform := sample_projection |}
                 {| transform := sample_projection |}
                 "left.cub" "right.cub"
                 (100, 80, sample_projection)%Z (100, 80, sample_projection)%Z
                 0%float 1%float "out-L.tif" "out-R.tif" sample_world))
  = [Say MapProjectedDetected; WriteImage "out-L.tif"; WriteImage "out-R.tif"].
Proof.
  split; [vm_compute; reflexivity|]. split; [reflexivity|]. split; [reflexivity|].
  split; [vm_compute; reflexivity|].
  exact (proj1 (proj2 (proj1
    (pre_preprocessing_hook_paths float float_ops sample_vw
       sample_session sample_settings
       {| transform := sample_projection |} {| transform := sample_projection |}
       "left.cub" "right.cub"
       (100, 80, sample_projection)%Z (100, 80, sample_projection)%Z
       0%float 1%float "out-L.tif" "out-R.tif" sample_world
       eq_refl eq_refl eq_refl eq_refl eq_refl)))).
Defined.

(** ** Estimation failure and recovery *)

Section PointCloudFacts.
Context {D : Type} {ops : DoubleOps D} {vw : VisionWorkbench D}.

(** A fit that throws is caught: the warning is printed and the identity is
    returned. *)
Lemma determine_image_alignment_fit_fails (input_file1 input_file2 : string)
    (lo hi : D) (w w1 : World)
    (matched : list InterestPoint * list InterestPoint)
    (ransac_ip1 ransac_ip2 : list (Vector3 D)) :
  matched_interest_points input_file1 input_file2 lo hi w = (Done matched, w1) ->
  remove_duplicates (iplist_to_vectorlist (fst matched))
                    (iplist_to_vectorlist (snd matched))
    = Some (ransac_ip1, ransac_ip2) ->
  ransac ransac_ip2 ransac_ip1 = None ->
  determine_image_alignment input_file1 input_file2 lo hi w
  = (Done identity_matrix3,
     {| files := files w1;
        events := events w1 ++
          [Say (PutativeMatches (length (fst matched)));
           Say RejectingOutliers;
           Say (RemovedDuplicates (Z.of_nat (length (fst matched))
                                   - Z.of_nat (length ransac_ip1)));
           RunRansac;
           Say AlignmentFailedWarning] |}).
Proof.
  intros Hm Hrd Hr. rewrite determine_image_alignment_unfold, Hm.
  rewrite (fit_alignment_run _ _ ransac_ip1 ransac_ip2) by done.
  by rewrite Hr.
Qed.

Lemma cell_transform_disparities (f : D * D -> D * D) (d : DisparityImage D)
    (row col : nat) :
  cell (transform_disparities f d) row col
  = (fun px : option (D * D) =>
       match px with
       | Some hv =>
           Some ((fst (f (target row col hv)) - of_int (Z.of_nat col))%D,
                 (snd (f (target row col hv)) - of_int (Z.of_nat row))%D)
       | None => None
       end) <$> cell d row col.
Proof.
  unfold cell, transform_disparities, DisparityImage in *. rewrite list_lookup_imap.
  destruct (d !! row) as [cells|]; simpl; [|done].
  rewrite list_lookup_imap.
  destruct (cells !! col) as [[[h v]|]|]; done.
Qed.

Lemma cell_remove_invalid_pixels (d : DisparityImage D) (width height : Z)
    (row col : nat) :
  cell (remove_invalid_pixels d width height) row col
  = (fun px : option (D * D) =>
       match px with
       | Some hv =>
           if in_bounds width height (fst (target row col hv))
                                     (snd (target row col hv))
           then Some hv else None
       | None => None
       end) <$> cell d row col.
Proof.
  unfold cell, remove_invalid_pixels, DisparityImage in *. rewrite list_lookup_imap.
  destruct (d !! row) as [cells|]; simpl; [|done].
  rewrite list_lookup_imap.
  destruct (cells !! col) as [[[h v]|]|]; done.
Qed.

(** The point cloud hook without a readable alignment matrix: [exit(1)]. *)
Lemma pre_pointcloud_hook_fatal (self : StereoSessionIsis) (input_file : string)
    (w : World) (d : DisparityImage D) :
  Matrix_eq (ops := ops) identity_matrix3 identity_matrix3 = true ->
  files w !! input_file = Some (DisparityFile d) ->
  (forall m, files w !! (m_out_prefix self +:+ "-align.exr") <> Some (MatrixFile m)) ->
  pre_pointcloud_hook self input_file w
  = (Stopped (Exited 1),
     {| files := files w;
        events := events w ++
          [OpenImage input_file; Say UnprojectedDetected;
           ReadMatrix (m_out_prefix self +:+ "-align.exr");
           Say (CouldNotReadAlignment (m_out_prefix self +:+ "-align.exr"))] |}).
Proof.
  intros Hid Hd Hno. unfold pre_pointcloud_hook. session_run.
  rewrite Hd. session_run. rewrite Hid. session_run.
  destruct (files w !! (m_out_prefix self +:+ "-align.exr")) as [f|] eqn:Hf.
  - destruct f; session_run; try (by rewrite <- !app_assoc).
    by destruct (Hno m).
  - session_run. by rewrite <- !app_assoc.
Qed.

(** The point cloud hook with the alignment matrix on disk. *)
Lemma pre_pointcloud_hook_run (self : StereoSessionIsis) (input_file : string)
    (w : World) (d : DisparityImage D) (m : Matrix D) (right_image : Image) :
  Matrix_eq (ops := ops) identity_matrix3 identity_matrix3 = true ->
  files w !! input_file = Some (DisparityFile d) ->
  files w !! (m_out_prefix self +:+ "-align.exr") = Some (MatrixFile m) ->
  files w !! m_right_image_file self = Some (ImageFile right_image) ->
  pre_pointcloud_hook self input_file w
  = (Done (m_out_prefix self +:+ "-F-corrected.exr"),
     {| files :=
          <[m_out_prefix self +:+ "-F-corrected.exr" :=
              DisparityFile
                (remove_invalid_pixels
                   (transform_disparities (homography_point m) d)
                   (cols right_image) (rows right_image))]> (files w);
        events := events w ++
          [OpenImage input_file; Say UnprojectedDetected;
           ReadMatrix (m_out_prefix self +:+ "-align.exr");
           Say (AlignmentMatrixIs m);
           OpenImage (m_right_image_file self);
           WriteImage (m_out_prefix self +:+ "-F-corrected.exr")] |}).
Proof.
  intros Hid Hd Hm Hr. unfold pre_pointcloud_hook. session_run.
  rewrite Hd. session_run. rewrite Hid. session_run.
  rewrite Hm. session_run. rewrite Hr. session_run.
  by rewrite <- !app_assoc.
Qed.
End PointCloudFacts.

(** C2. Failure handling is asymmetric.
    - Estimation: whatever the correspondences, when the robust fit throws,
      [determine_image_alignment] prints the warning and returns the 3x3
      identity; nothing is raised and no file is touched by the fit.
    - Recovery: in the unprojected point cloud stage, when the alignment
      matrix file is absent or is not a readable matrix, the session prints
      that it could not read it and calls [exit(1)]; nothing is written.
    - When the matrix is read, the corrected disparity image is written: every
      disparity vector is moved by the transform of the matrix, and a cell
      stays valid exactly when the target of its moved vector lies within the
      pixel bounds of the second image; the others are marked invalid. *)
Theorem alignment_failure_asymmetry :
  forall (D : Type) (ops : DoubleOps D) (vw : VisionWorkbench D)
         (input_file1 input_file2 : string) (lo hi : D) (w w1 : World)
         (matched : list InterestPoint * list InterestPoint)
         (ransac_ip1 ransac_ip2 : list (Vector3 D))
         (self : StereoSessionIsis) (input_file : string) (wp : World)
         (d : DisparityImage D),
    matched_interest_points input_file1 input_file2 lo hi w = (Done matched, w1) ->
    remove_duplicates (iplist_to_vectorlist (fst matched))
                      (iplist_to_vectorlist (snd matched))
      = Some (ransac_ip1, ransac_ip2) ->
    ransac ransac_ip2 ransac_ip1 = None ->
    Matrix_eq (ops := ops) identity_matrix3 identity_matrix3 = true ->
    files wp !! input_file = Some (DisparityFile d) ->
    determine_image_alignment input_file1 input_file2 lo hi w
    = (Done identity_matrix3,
       {| files := files w1;
          events := events w1 ++
            [Say (PutativeMatches (length (fst matched)));
             Say RejectingOutliers;
             Say (RemovedDuplicates (Z.of_nat (length (fst matched))
                                     - Z.of_nat (length ransac_ip1)));
             RunRansac;
             Say AlignmentFailedWarning] |}) /\
    ((forall m, files wp !! (m_out_prefix self +:+ "-align.exr") <> Some (MatrixFile m)) ->
     pre_pointcloud_hook self input_file wp
     = (Stopped (Exited 1),
        {| files := files wp;
           events := events wp ++
             [OpenImage input_file; Say UnprojectedDetected;
              ReadMatrix (m_out_prefix self +:+ "-align.exr");
              Say (CouldNotReadAlignment (m_out_prefix self +:+ "-align.exr"))] |})) /\
    (forall (m : Matrix D) (right_image : Image),
       files wp !! (m_out_prefix self +:+ "-align.exr") = Some (MatrixFile m) ->
       files wp !! m_right_image_file self = Some (ImageFile right_image) ->
       let moved := transform_disparities (homography_point m) d in
       let corrected :=
         remove_invalid_pixels moved (cols right_image) (rows right_image) in
       pre_pointcloud_hook self input_file wp
       = (Done (m_out_prefix self +:+ "-F-corrected.exr"),
          {| files := <[m_out_prefix self +:+ "-F-corrected.exr" :=
                          DisparityFile corrected]> (files wp);
             events := events wp ++
               [OpenImage input_file; Say UnprojectedDetected;
                ReadMatrix (m_out_prefix self +:+ "-align.exr");
                Say (AlignmentMatrixIs m);
                OpenImage (m_right_image_file self);
                WriteImage (m_out_prefix self +:+ "-F-corrected.exr")] |}) /\
       (forall row col,
          cell moved row col
          = (fun px : option (D * D) =>
               match px with
               | Some hv =>
                   Some ((fst (homography_point m (target row col hv))
                          - of_int (Z.of_nat col))%D,
                         (snd (homography_point m (target row col hv))
                          - of_int (Z.of_nat row))%D)
               | None => None
               end) <$> cell d row col) /\
       (forall row col hv,
          cell moved row col = Some (Some hv) ->
          in_bounds (cols right_image) (rows right_image)
            (fst (target row col hv)) (snd (target row col hv)) = false ->
          cell corrected row col = Some None) /\
       (forall row col hv,
          cell corrected row col = Some (Some hv) ->
          cell moved row col = Some (Some hv) /\
          in_bounds (cols right_image) (rows right_image)
            (fst (target row col hv)) (snd (target row col hv)) = true)).
Proof.
  intros D ops vw input_file1 input_file2 lo hi w w1 matched ransac_ip1
         ransac_ip2 self input_file wp d Hm Hrd Hr Hid Hd.
  split; [by eapply determine_image_alignment_fit_fails|].
  split; [intros Hno; by eapply pre_pointcloud_hook_fatal|].
  intros m right_image Hmx Hri moved corrected.
  split; [by apply pre_pointcloud_hook_run|].
  split; [intros row col; apply cell_transform_disparities|].
  split.
  - intros row col hv Hc Hout. subst corrected.
    rewrite cell_remove_invalid_pixels, Hc.
    unfold fmap, option_fmap, option_map. by rewrite Hout.
  - intros row col hv Hc. subst corrected.
    rewrite cell_remove_invalid_pixels in Hc.
    destruct (cell moved row col) as [[hv'|]|];
      unfold fmap, option_fmap, option_map in Hc; try done.
    destruct (in_bounds _ _ _ _) eqn:Hin; [|done].
    injection Hc as <-. split; [done | exact Hin].
Qed.

Lemma alignment_failure_asymmetry_witness :
  matched_interest_points (ops := float_ops) (vw := sample_vw)
    "left.cub" "right.cub" 0%float 1%float sample_world
  = (Done ([(1, 1); (2, 3)]%float, [(1, 1); (2, 3)]%float),
     snd (matched_interest_points (ops := float_ops) (vw := sample_vw)
            "left.cub" "right.cub" 0%float 1%float sample_world)) /\
  fst (determine_image_alignment (ops := float_ops) (vw := sample_vw)
         "left.cub" "right.cub" 0%float 1%float sample_world)
  = Done (identity_matrix3 (ops := float_ops)) /\
  files (pointcloud_world false) !! "out-F.exr"
  = Some (DisparityFile (vw := sample_vw) sample_disparity) /\
  fst (pre_pointcloud_hook (ops := float_ops) (vw := sample_vw)
         sample_session "out-F.exr" (pointcloud_world false))
  = Stopped (Exited 1).
Proof.
  assert (Hm : matched_interest_points (ops := float_ops) (vw := sample_vw)
                 "left.cub" "right.cub" 0%float 1%float sample_world
               = (Done ([(1, 1); (2, 3)]%float, [(1, 1); (2, 3)]%float),
                  snd (matched_interest_points (ops := float_ops) (vw := sample_vw)
                         "left.cub" "right.cub" 0%float 1%float sample_world)))
    by (vm_compute; reflexivity).
  destruct (alignment_failure_asymmetry float float_ops sample_vw
              "left.cub" "right.cub" 0%float 1%float sample_world _
              ([(1, 1); (2, 3)]%float, [(1, 1); (2, 3)]%float)
              [(1, 1, 1); (2, 3, 1)]%float [(1, 1, 1); (2, 3, 1)]%float
              sample_session "out-F.exr" (pointcloud_world false) sample_disparity
              Hm ltac:(vm_compute; reflexivity) eq_refl
              ltac:(vm_compute; reflexivity) eq_refl)
    as (W1 & W2 & _).
  split; [exact Hm|].
  split; [by rewrite W1|].
  split; [reflexivity|].
  rewrite W2; [reflexivity|].
  intros m Hx. vm_compute in Hx. discriminate Hx.
Defined.

(* ===================================================================== *)
(** * Part III: further properties of the code *)
(* ===================================================================== *)

(** ** The streaming statistics in exact arithmetic *)

Section ExactVariance.
Variable sqrtQ : Q -> Q.
Local Open Scope Z_scope.

Lemma sumsq_step (n : Z) (mean x total2 : Q) :
  0 <= n ->
  ((total2 - inject_Z n * mean * mean)
     + (x - mean) * (x - (mean + (x - mean) / inject_Z (n + 1)))
   == (total2 + x * x)
      - inject_Z (n + 1) * (mean + (x - mean) / inject_Z (n + 1))
                         * (mean + (x - mean) / inject_Z (n + 1)))%Q.
Proof.
  intros Hn. pose proof (inject_Z_succ_nonzero n Hn) as Hnz.
  rewrite inject_Z_plus in *. change (inject_Z 1) with 1%Q in *.
  field. exact Hnz.
Qed.

Lemma welford_sumsq_invariant (xs : list Q) (w : Z * Q * Q) (total2 : Q) :
  0 <= fst (fst w) ->
  (snd w == total2 - inject_Z (fst (fst w)) * snd (fst w) * snd (fst w))%Q ->
  let w' := fold_left (welford_step (ops := Q_ops sqrtQ)) xs w in
  (snd w' == total2 + Qsumsq xs
             - inject_Z (fst (fst w')) * snd (fst w') * snd (fst w'))%Q.
Proof.
  revert w total2. induction xs as [|x xs IH]; intros [[n mean] sumSq] total2 Hn Hs.
  - simpl in *. rewrite Hs. ring.
  - simpl fold_left. cbv zeta.
    specialize (IH (welford_step (ops := Q_ops sqrtQ) (n, mean, sumSq) x) (total2 + x * x)%Q).
    simpl in IH, Hn, Hs. simpl.
    rewrite IH.
    + ring.
    + lia.
    + rewrite Hs. apply sumsq_step. done.
Qed.

Lemma deviation_step_nonneg (n : Z) (mean x : Q) :
  0 <= n ->
  (0 <= (x - mean) * (x - (mean + (x - mean) / inject_Z (n + 1))))%Q.
Proof.
  intros Hn. pose proof (inject_Z_succ_nonzero n Hn) as Hnz.
  rewrite inject_Z_plus in *. change (inject_Z 1) with 1%Q in *.
  assert (H0 : (0 <= inject_Z n)%Q) by (unfold Qle; simpl; lia).
  set (N := inject_Z n) in *.
  set (q := ((x - mean) / (N + 1))%Q).
  assert (E : ((x - mean) * (x - (mean + q)) == q * q * ((N + 1) * N))%Q).
  { unfold q. field. exact Hnz. }
  rewrite E.
  apply Qmult_le_0_compat.
  - nra.
  - apply Qmult_le_0_compat; lra.
Qed.

Lemma welford_sumsq_nonneg (xs : list Q) (w : Z * Q * Q) :
  0 <= fst (fst w) -> (0 <= snd w)%Q ->
  (0 <= snd (fold_left (welford_step (ops := Q_ops sqrtQ)) xs w))%Q.
Proof.
  revert w. induction xs as [|x xs IH]; intros [[n mean] sumSq] Hn Hs; [done|].
  simpl fold_left. apply IH; simpl in *; [lia|].
  pose proof (deviation_step_nonneg n mean x Hn). lra.
Qed.

End ExactVariance.

Lemma Qsum_squared_deviations (m : Q) (xs : list Q) :
  (Qsum (map (fun x => (x - m) * (x - m)) xs)
   == Qsumsq xs - (1 + 1) * m * Qsum xs + inject_Z (Z.of_nat (length xs)) * m * m)%Q.
Proof.
  induction xs as [|x xs IH].
  - simpl. change (inject_Z 0) with 0%Q. ring.
  - simpl map. simpl Qsum. simpl Qsumsq. rewrite IH.
    simpl length. rewrite Nat2Z.inj_succ. unfold Z.succ.
    rewrite inject_Z_plus. change (inject_Z 1) with 1%Q. ring.
Qed.

(** X1. In exact arithmetic, an accumulator that was empty and then received
    two or more samples reports the unbiased sample variance, the sum of the
    squared deviations from the arithmetic mean divided by the number of
    samples less one; that variance is never negative. *)
Theorem exact_Variance_is_sample_variance (sqrtQ : Q -> Q)
    (s : RunningStandardDeviation Q) (xs : list Q) :
  m_n s = 0%Z -> (2 <= Z.of_nat (length xs) <= INT_MAX)%Z ->
  (Variance (ops := Q_ops sqrtQ) (pushes (ops := Q_ops sqrtQ) xs s)
     == sample_variance xs)%Q /\
  (0 <= Variance (ops := Q_ops sqrtQ) (pushes (ops := Q_ops sqrtQ) xs s))%Q.
Proof.
  intros E [H2 Hb].
  destruct (exact_refines_welford sqrtQ s xs E Hb) as (_ & HV).
  assert (HW : (welford_variance (ops := Q_ops sqrtQ) xs == sample_variance xs)%Q /\
               (0 <= welford_variance (ops := Q_ops sqrtQ) xs)%Q).
  { unfold welford_variance, welford.
    destruct (welford_mean_invariant sqrtQ xs (0%Z, 0%Q, 0%Q) 0%Q) as (Hn & Hm);
      [simpl; lia | simpl; ring |].
    pose proof (welford_sumsq_invariant sqrtQ xs (0%Z, 0%Q, 0%Q) 0%Q) as Hs.
    pose proof (welford_sumsq_nonneg sqrtQ xs (0%Z, 0%Q, 0%Q)) as Hp.
    simpl in Hn, Hm, Hs, Hp.
    specialize (Hs ltac:(lia) ltac:(ring)). specialize (Hp ltac:(lia) ltac:(lra)).
    destruct (fold_left _ xs _) as [[n mean] sumSq]. simpl in *.
    rewrite Z.add_0_l in Hn. subst n.
    set (len := Z.of_nat (length xs)) in *.
    replace (1 <? len)%Z with true by (symmetry; apply Z.ltb_lt; lia).
    assert (Hlen : (inject_Z (len - 1) == inject_Z len - 1)%Q).
    { unfold Z.sub. rewrite inject_Z_plus. reflexivity. }
    assert (Hge : (1 + 1 <= inject_Z len)%Q).
    { change (1 + 1)%Q with (inject_Z 2). rewrite <- Zle_Qle. exact H2. }
    split.
    - unfold sample_variance. rewrite Qsum_squared_deviations.
      fold len. rewrite Hlen.
      assert (Ea : (average xs == mean)%Q).
      { unfold average. fold len. rewrite <- (Qplus_0_l (Qsum xs)), <- Hm.
        field. lra. }
      rewrite Ea, Hs.
      assert (Eq : (Qsum xs == inject_Z len * mean)%Q) by (rewrite Hm; ring).
      rewrite Eq. field. lra.
    - rewrite Hlen. apply Qle_shift_div_l; lra. }
  destruct HW as (HW1 & HW2). split.
  - by rewrite HV.
  - by rewrite HV.
Qed.

Lemma exact_Variance_is_sample_variance_witness :
  (Variance (ops := Q_ops (fun q => q))
     (pushes (ops := Q_ops (fun q => q)) [1; 2; 3; 6]%Q
        (RunningStandardDeviation_new 7%Q 7%Q 7%Q 7%Q))
   == sample_variance [1; 2; 3; 6])%Q.
Proof.
  apply (exact_Variance_is_sample_variance (fun q => q)
           (RunningStandardDeviation_new 7%Q 7%Q 7%Q 7%Q) [1; 2; 3; 6]%Q).
  - reflexivity.
  - vm_compute. split; discriminate.
Defined.

Lemma welford_constant (sqrtQ : Q -> Q) (c : Q) (xs : list Q) (w : Z * Q * Q) :
  Forall (fun x => x == c)%Q xs ->
  (0 <= fst (fst w))%Z -> (snd (fst w) == c)%Q -> (snd w == 0)%Q ->
  let w' := fold_left (welford_step (ops := Q_ops sqrtQ)) xs w in
  (snd (fst w') == c)%Q /\ (snd w' == 0)%Q.
Proof.
  intros Hall. revert w.
  induction Hall as [|x xs Hx _ IH]; intros [[n mean] sumSq] Hn Hm Hs; [done|].
  simpl fold_left. apply IH; simpl in *.
  - lia.
  - pose proof (inject_Z_succ_nonzero n Hn) as Hnz.
    rewrite Hx, Hm. field. exact Hnz.
  - pose proof (inject_Z_succ_nonzero n Hn) as Hnz.
    rewrite Hx, Hm, Hs. field. exact Hnz.
Qed.

(** X2. In exact arithmetic, an accumulator that was empty and then received
    one or more samples that all equal [c] reports the mean [c] and the
    variance 0. *)
Theorem exact_constant_samples (sqrtQ : Q -> Q)
    (s : RunningStandardDeviation Q) (c : Q) (xs : list Q) :
  m_n s = 0%Z -> (1 <= Z.of_nat (length xs) <= INT_MAX)%Z ->
  Forall (fun x => x == c)%Q xs ->
  (Mean (ops := Q_ops sqrtQ) (pushes (ops := Q_ops sqrtQ) xs s) == c)%Q /\
  (Variance (ops := Q_ops sqrtQ) (pushes (ops := Q_ops sqrtQ) xs s) == 0)%Q.
Proof.
  intros E [H1 Hb] Hall.
  destruct (exact_refines_welford sqrtQ s xs E Hb) as (HM & HV).
  rewrite HM, HV. unfold welford_mean, welford_variance, welford.
  destruct xs as [|x r]; [simpl in H1; lia|].
  apply Forall_cons in Hall as [Hx Hall].
  simpl fold_left. change (inject_Z (0 + 1)) with 1%Q.
  pose proof (welford_mean_invariant sqrtQ r
    (1%Z, (0 + (x - 0) / 1)%Q, (0 + (x - 0) * (x - (0 + (x - 0) / 1)))%Q)
    (0 + (x - 0) / 1)%Q) as Hcount.
  pose proof (welford_constant sqrtQ c r
    (1%Z, (0 + (x - 0) / 1)%Q, (0 + (x - 0) * (x - (0 + (x - 0) / 1)))%Q) Hall) as Hc.
  simpl in Hcount, Hc.
  destruct Hcount as (Hn & _); [lia | ring |].
  destruct Hc as (Hc1 & Hc2); [lia | rewrite Hx; field | field |].
  destruct (fold_left _ r _) as [[n mean] sumSq]. simpl in *.
  split; [exact Hc1|].
  destruct (1 <? n)%Z eqn:Hlt; [|reflexivity].
  rewrite Hc2. field.
  apply Z.ltb_lt in Hlt. intros E0. unfold Qeq in E0. simpl in E0. lia.
Qed.

Lemma exact_constant_samples_witness :
  (Mean (ops := Q_ops (fun q => q))
     (pushes (ops := Q_ops (fun q => q)) [3; 3; 3]%Q
        (RunningStandardDeviation_new 7%Q 7%Q 7%Q 7%Q)) == 3)%Q.
Proof.
  apply (exact_constant_samples (fun q => q)
           (RunningStandardDeviation_new 7%Q 7%Q 7%Q 7%Q) 3%Q [3; 3; 3]%Q).
  - reflexivity.
  - vm_compute. split; discriminate.
  - repeat constructor.
Defined.

(** ** The offset estimator *)

Section CountFacts.
Context {D : Type} {ops : DoubleOps D}.
Local Open Scope Z_scope.

Lemma accumulate_row_total (w : bool) (row : Z) (cells : list DisparityPixel)
    (st : Accumulation D) :
  Z.of_nat (length cells) <= INT_MAX ->
  0 <= totalNumValidPixels st ->
  totalNumValidPixels st + Z.of_nat (length (valid_cells cells)) <= INT_MAX ->
  totalNumValidPixels (accumulate_row w row cells st)
  = totalNumValidPixels st + Z.of_nat (length (valid_cells cells)).
Proof.
  intros Hc H0 Hb. unfold accumulate_row.
  match goal with
  | |- context [fold_left accumulate_cell cells ?a0] =>
      destruct (accumulate_cells cells a0) as (_ & _ & H3 & _);
        [simpl; lia | simpl; lia |];
      set (a := fold_left accumulate_cell cells a0) in *
  end.
  simpl in H3. rewrite Z.add_0_l in H3.
  destruct (Z.eqb_spec (numValidInRow a) 0) as [E|E];
    destruct w; simpl; try lia.
  all: rewrite H3; apply int_add_small; unfold in_int, INT_MIN, INT_MAX in *; lia.
Qed.

Lemma accumulate_rows_total (w : bool) (dm : DisparityMap) :
  forall (row : Z) (st : Accumulation D),
    Forall (fun cells : list DisparityPixel =>
              Z.of_nat (length cells) <= INT_MAX) dm ->
    0 <= totalNumValidPixels st ->
    totalNumValidPixels st + Z.of_nat (length (valid_cells (concat dm))) <= INT_MAX ->
    totalNumValidPixels (accumulate_rows w row dm st)
    = totalNumValidPixels st + Z.of_nat (length (valid_cells (concat dm))).
Proof.
  induction dm as [|cells dm IH]; intros row st Hf H0 Hb.
  - simpl. lia.
  - apply Forall_cons in Hf as (Hc & Hf).
    change (concat (cells :: dm)) with (cells ++ concat dm) in *.
    rewrite valid_cells_app, length_app, Nat2Z.inj_add in *.
    simpl accumulate_rows.
    rewrite IH; rewrite ?accumulate_row_total; try done; lia.
Qed.

(** A run that succeeds: the line it prints last. *)
Lemma determineShifts_counts (env : Env D) (params : Parameters D)
    (dX0 dY0 : D) (dm : DisparityMap) :
  correlated env params = Some dm ->
  fits_int dm ->
  Z.of_nat (length (valid_cells (concat dm))) <= INT_MAX ->
  result (determineShifts env params dX0 dY0) = Returned true ->
  last (console (determineShifts env params dX0 dY0))
  = Some (ValidPixelsInRows (Z.of_nat (length (valid_cells (concat dm))))
                            (Z.of_nat (valid_rows dm))).
Proof.
  intros Hc (Hrows & Hcols) Hb. 
  unfold correlated in Hc. unfold determineShifts.
  destruct (file_exists env (leftFilePath params)); [|done].
  destruct (file_exists env (rightFilePath params)); [|done].
  simpl in Hc |- *.
  destruct (image_size env (leftFilePath params)) as [[lcols lrows]|]; [|done].
  destruct (image_size env (rightFilePath params)) as [[rcols rrows]|]; [|done].
  set (start := int_sub (Z.quot (Z.min lcols rcols) 2) (Z.quot (cropWidth params) 2)) in *.
  set (h := Z.min lrows rrows) in *.
  assert (Hdm : (if usePyramid params
                 then pyramid_correlate env params
                        (cost_function (correlator_type params)) start h
                 else correlate env params
                        (cost_function (correlator_type params)) start h) = dm)
    by congruence.
  clear Hc.
  destruct (usePyramid params); rewrite Hdm.
  all: destruct (_ && _); [done|].
  all: match goal with
       | |- context [accumulate_rows ?w0 0 ?dm0 ?st0] =>
           destruct (accumulate_rows_spec w0 dm0 0 st0) as (S1 & _);
             [done | done | lia | simpl; rewrite length_replicate; lia
             | simpl; by rewrite !length_replicate | simpl; lia | simpl; lia |];
           pose proof (accumulate_rows_total w0 dm0 0 st0 Hcols) as S2;
           set (st := accumulate_rows w0 0 dm0 st0) in *
       end.
  all: simpl in S1, S2; rewrite S2 by lia.
  all: destruct (numValidRows st =? 0); [done|].
  all: simpl; intros _; rewrite last_snoc, S1; do 2 f_equal; lia.
Qed.
End CountFacts.

Section RowLoopFacts.
Context {D : Type} {ops : DoubleOps D}.
Local Open Scope Z_scope.

(** A call that returns [true] ends from the state of its row loop. *)
Lemma determineShifts_row_loop (env : Env D) (params : Parameters D)
    (dX0 dY0 : D) (dm : DisparityMap) :
  correlated env params = Some dm ->
  result (determineShifts env params dX0 dY0) = Returned true ->
  exists out0,
    let st := row_loop env (negb (string_empty (rowLogFilePath params))) out0 dm in
    dX (determineShifts env params dX0 dY0) = Mean (stdCalcX st) /\
    dY (determineShifts env params dX0 dY0) = Mean (stdCalcY st) /\
    last (console (determineShifts env params dX0 dY0))
      = Some (ValidPixelsInRows (totalNumValidPixels st) (numValidRows st)).
Proof.
  intros Hc.
  unfold correlated in Hc. unfold determineShifts, row_loop.
  destruct (file_exists env (leftFilePath params)); [|done].
  destruct (file_exists env (rightFilePath params)); [|done].
  simpl in Hc |- *.
  destruct (image_size env (leftFilePath params)) as [[lcols lrows]|]; [|done].
  destruct (image_size env (rightFilePath params)) as [[rcols rrows]|]; [|done].
  set (start := int_sub (Z.quot (Z.min lcols rcols) 2) (Z.quot (cropWidth params) 2)) in *.
  set (h := Z.min lrows rrows) in *.
  assert (Hdm : (if usePyramid params
                 then pyramid_correlate env params
                        (cost_function (correlator_type params)) start h
                 else correlate env params
                        (cost_function (correlator_type params)) start h) = dm)
    by congruence.
  clear Hc.
  destruct (usePyramid params); rewrite Hdm.
  all: destruct (_ && _); [done|].
  all: match goal with
       | |- context [accumulate_rows ?w0 0 ?dm0 ?st0] =>
           intros Hres; exists (out st0);
           set (st := accumulate_rows w0 0 dm0 st0) in *
       end.
  all: destruct (numValidRows st =? 0) eqn:E; [done|].
  all: simpl; rewrite last_snoc.
  all: destruct (string_empty (rowLogFilePath params)); simpl; done.
Qed.

Lemma row_loop_counts (env : Env D) (w : bool) (out0 : list (LogLine D))
    (dm : DisparityMap) :
  fits_int dm ->
  Z.of_nat (length (valid_cells (concat dm))) <= INT_MAX ->
  let st := row_loop env w out0 dm in
  totalNumValidPixels st = Z.of_nat (length (valid_cells (concat dm))) /\
  numValidRows st = Z.of_nat (valid_rows dm) /\
  NumDataValues (stdCalcX st) = Z.of_nat (length (valid_cells (concat dm))) /\
  NumDataValues (stdCalcY st) = Z.of_nat (length (valid_cells (concat dm))).
Proof.
  intros (Hrows & Hcols) Hb st. subst st. unfold row_loop. cbv zeta.
  match goal with
  | |- context [accumulate_rows w 0 dm ?st0] =>
      destruct (accumulate_rows_spec w dm 0 st0) as (S1 & _);
        [done | done | lia | simpl; rewrite length_replicate; lia
        | simpl; by rewrite !length_replicate | simpl; lia | simpl; lia |];
      pose proof (accumulate_rows_total w dm 0 st0 Hcols) as S2;
      destruct (accumulate_rows_calc w dm 0 st0) as (S3 & S4);
      set (st := accumulate_rows w 0 dm st0) in *
  end.
  simpl in S1, S2, S3, S4. rewrite S1, S2, S3, S4 by lia.
  unfold NumDataValues.
  rewrite !pushes_count; simpl;
    rewrite ?all_samples_x_length, ?all_samples_y_length; try lia.
Qed.

Lemma valid_rows_le_cells (dm : DisparityMap) :
  (valid_rows dm <= length (valid_cells (concat dm)))%nat.
Proof.
  induction dm as [|cells dm IH]; [done|].
  change (concat (cells :: dm)) with (cells ++ concat dm).
  rewrite valid_rows_cons, valid_cells_app, length_app, has_valid_cell_spec.
  destruct (length (valid_cells cells)); simpl; lia.
Qed.
End RowLoopFacts.

(** X3. A call of [determineShifts] that succeeds on a disparity map whose
    dimensions and number of valid cells fit an [int] ends from the state
    [st] of its loop over the rows: the offsets are the means of the two
    accumulators of [st], and the line printed last carries the two counters
    of [st]. The first counter is the number of valid cells of the map, and
    so is the number of samples each of the two accumulators of [st] has
    seen; the second is the number of rows that hold a valid cell. That
    number of cells is at least that number of rows, which is at least 1. *)
Theorem determineShifts_reports_counts :
  forall (D : Type) (ops : DoubleOps D) (env : Env D) (params : Parameters D)
         (dX0 dY0 : D) (dm : DisparityMap),
    correlated env params = Some dm ->
    fits_int dm ->
    (Z.of_nat (length (valid_cells (concat dm))) <= INT_MAX)%Z ->
    result (determineShifts env params dX0 dY0) = Returned true ->
    exists out0,
      let st := row_loop env (negb (string_empty (rowLogFilePath params))) out0 dm in
      dX (determineShifts env params dX0 dY0) = Mean (stdCalcX st) /\
      dY (determineShifts env params dX0 dY0) = Mean (stdCalcY st) /\
      last (console (determineShifts env params dX0 dY0))
        = Some (ValidPixelsInRows (totalNumValidPixels st) (numValidRows st)) /\
      totalNumValidPixels st = Z.of_nat (length (valid_cells (concat dm))) /\
      numValidRows st = Z.of_nat (valid_rows dm) /\
      NumDataValues (stdCalcX st) = totalNumValidPixels st /\
      NumDataValues (stdCalcY st) = totalNumValidPixels st /\
      (1 <= valid_rows dm <= length (valid_cells (concat dm)))%nat.
Proof.
  intros D ops env params dX0 dY0 dm Hc Hf Hb Hres.
  destruct (determineShifts_row_loop env params dX0 dY0 dm Hc Hres)
    as (out0 & HX & HY & Hlast).
  exists out0. cbv zeta in *.
  destruct (row_loop_counts env (negb (string_empty (rowLogFilePath params)))
              out0 dm Hf Hb) as (C1 & C2 & C3 & C4).
  destruct (determineShifts_success env params dX0 dY0 dm Hc Hf Hres) as (_ & Hv).
  pose proof (valid_rows_le_cells dm).
  repeat split; try done; try congruence; lia.
Qed.

Lemma determineShifts_reports_counts_witness :
  last (console (plain_run two_rows)) = Some (ValidPixelsInRows 3 2).
Proof.
  destruct (determineShifts_reports_counts float float_ops
              (float_env two_rows true)
              (float_parameters "left.cub" "right.cub" "")
              PrimFloat.zero PrimFloat.zero two_rows
              eq_refl two_rows_fits_int ltac:(vm_compute; discriminate) eq_refl)
    as (out0 & _ & _ & Hlast & H1 & H2 & _).
  unfold plain_run. rewrite Hlast, H1, H2. reflexivity.
Defined.

(** X4. [determineShifts] assigns its two reference parameters only when it
    returns [true]: after a call that returns [false], or that throws
    because an image does not load, they hold what they held before. It
    leaves a log file only if a row log was asked for and the file opened. *)
Theorem determineShifts_assigns_offsets_on_success_only :
  forall (D : Type) (ops : DoubleOps D) (env : Env D) (params : Parameters D)
         (dX0 dY0 : D),
    (result (determineShifts env params dX0 dY0) <> Returned true ->
     dX (determineShifts env params dX0 dY0) = dX0 /\
     dY (determineShifts env params dX0 dY0) = dY0) /\
    (is_Some (logfile (determineShifts env params dX0 dY0)) ->
     string_empty (rowLogFilePath params) = false /\
     log_opens env (rowLogFilePath params) = true).
Proof.
  intros D ops env params dX0 dY0. unfold determineShifts.
  destruct (file_exists env (leftFilePath params)),
    (file_exists env (rightFilePath params)); simpl;
    try destruct (image_size env (leftFilePath params)) as [[lcols lrows]|]; simpl;
    try destruct (image_size env (rightFilePath params)) as [[rcols rrows]|]; simpl;
    try (destruct (usePyramid params), (string_empty (rowLogFilePath params)),
           (log_opens env (rowLogFilePath params)); simpl;
         try (destruct (numValidRows _ =? 0)%Z; simpl)).
  all: repeat split; try done; try (by intros [? ?]).
Qed.

Section ParseFacts.
Context {D : Type} {ops : DoubleOps D}.

End ParseFacts.


Section CropFacts.
Context {D : Type} {ops : DoubleOps D}.
Local Open Scope Z_scope.

(** The loop over the rows only appends to the log. *)
Lemma accumulate_rows_out (w : bool) (dm : DisparityMap) :
  forall (row : Z) (st : Accumulation D),
    exists more, out (accumulate_rows w row dm st) = out st ++ more.
Proof.
  induction dm as [|cells dm IH]; intros row st; simpl.
  - exists []. by rewrite app_nil_r.
  - destruct (IH (int_add row 1) (accumulate_row w row cells st)) as (more & ->).
    unfold accumulate_row.
    destruct (_ =? 0); destruct w; simpl; rewrite <- ?app_assoc; by eexists.
Qed.

Lemma centred_strip (cols width : Z) :
  0 <= width <= cols ->
  0 <= Z.quot cols 2 - Z.quot width 2 /\
  Z.quot cols 2 - Z.quot width 2 + width <= cols.
Proof.
  intros Hw.
  rewrite !Z.quot_div_nonneg by lia.
  pose proof (Z.div_mod cols 2 ltac:(lia)).
  pose proof (Z.div_mod width 2 ltac:(lia)).
  pose proof (Z.mod_pos_bound cols 2 ltac:(lia)).
  pose proof (Z.mod_pos_bound width 2 ltac:(lia)).
  lia.
Qed.
End CropFacts.

(** X6. Both images are cropped to the same strip. Whenever a call of
    [determineShifts] leaves a row log, both images had loaded, and the FROM
    and the MATCH entry of the log carry the same sample offset, the [int]
    difference of half the common width and half the crop width, and the
    same lower right corner, that offset plus the crop width at the common
    height. When the crop width is not negative and at most the common
    width (which fits an [int]), no [int] wraps and the strip lies inside
    the images. *)
Theorem determineShifts_crop_window :
  forall (D : Type) (ops : DoubleOps D) (env : Env D) (params : Parameters D)
         (dX0 dY0 : D) (lines : list (LogLine D)),
    logfile (determineShifts env params dX0 dY0) = Some lines ->
    exists lcols lrows rcols rrows : Z,
      image_size env (leftFilePath params) = Some (lcols, lrows) /\
      image_size env (rightFilePath params) = Some (rcols, rrows) /\
      let cols := Z.min lcols rcols in
      let rows := Z.min lrows rrows in
      let start := int_sub (Z.quot cols 2) (Z.quot (cropWidth params) 2) in
      lines !! 1%nat
        = Some (LogImageInfo "FROM" (leftFilePath params) rows cols
                  start (int_add start (cropWidth params)) rows) /\
      lines !! 2%nat
        = Some (LogImageInfo "MATCH" (rightFilePath params) rows cols
                  start (int_add start (cropWidth params)) rows) /\
      ((0 <= cropWidth params <= cols)%Z -> (cols <= INT_MAX)%Z ->
       start = (Z.quot cols 2 - Z.quot (cropWidth params) 2)%Z /\
       int_add start (cropWidth params) = (start + cropWidth params)%Z /\
       (0 <= start)%Z /\ (start + cropWidth params <= cols)%Z).
Proof.
  intros D ops env params dX0 dY0 lines. unfold determineShifts.
  destruct (file_exists env (leftFilePath params)); simpl; [|done].
  destruct (file_exists env (rightFilePath params)); simpl; [|done].
  destruct (image_size env (leftFilePath params)) as [[lcols lrows]|]; [|done].
  destruct (image_size env (rightFilePath params)) as [[rcols rrows]|]; [|done].
  intros Hlog. exists lcols, lrows, rcols, rrows.
  split; [done|]. split; [done|].
  set (cols := Z.min lcols rcols) in *. set (rows := Z.min lrows rrows) in *.
  set (start := int_sub (Z.quot cols 2) (Z.quot (cropWidth params) 2)) in *.
  assert (Hin : (0 <= cropWidth params <= cols)%Z -> (cols <= INT_MAX)%Z ->
                start = (Z.quot cols 2 - Z.quot (cropWidth params) 2)%Z /\
                int_add start (cropWidth params) = (start + cropWidth params)%Z /\
                (0 <= start)%Z /\ (start + cropWidth params <= cols)%Z).
  { intros Hw Hb.
    destruct (centred_strip cols (cropWidth params) Hw) as (H0 & H1).
    assert (Es : start = (Z.quot cols 2 - Z.quot (cropWidth params) 2)%Z).
    { subst start. apply int_sub_small. unfold in_int, INT_MIN, INT_MAX in *. lia. }
    rewrite Es. repeat split; try lia.
    apply int_add_small. unfold in_int, INT_MIN, INT_MAX in *. lia. }
  split; [|split; [|exact Hin]]; clear Hin.
  all: revert Hlog.
  all: destruct (usePyramid params), (string_empty (rowLogFilePath params)),
         (log_opens env (rowLogFilePath params)); simpl;
         try (destruct (numValidRows _ =? 0)%Z; simpl); try done.
  all: intros [= <-].
  all: match goal with
       | |- context [accumulate_rows ?w0 0%Z ?dm0 ?st0] =>
           destruct (accumulate_rows_out w0 dm0 0%Z st0) as (more & ->)
       end.
  all: simpl; done.
Qed.

Lemma determineShifts_crop_window_witness :
  exists lines,
    logfile (logged_run two_rows true) = Some lines /\
    lines !! 1%nat
      = Some (LogImageInfo "FROM" "left.cub" 2 5064 2382 2682 2).
Proof.
  eexists. split; [vm_compute; reflexivity|].
  pose proof (fun lines H =>
    determineShifts_crop_window float float_ops (float_env two_rows true)
      (float_parameters "left.cub" "right.cub" "rows.log")
      PrimFloat.zero PrimFloat.zero lines H) as W.
  match goal with
  | |- ?l !! _ = _ => destruct (W l ltac:(vm_compute; reflexivity))
      as (lcols & lrows & rcols & rrows & H1 & H2 & H3 & _)
  end.
  vm_compute in H1, H2. injection H1 as <- <-. injection H2 as <- <-.
  vm_compute in H3. vm_compute. exact H3.
Defined.

Section Uninitialised.
Context {D : Type} {ops : DoubleOps D}.
Local Open Scope Z_scope.

Lemma accumulate_cells_same (cells : list DisparityPixel) (a a' : RowAccumulation D) :
  rowSum a = rowSum a' -> colSum a = colSum a' ->
  numValidInRow a = numValidInRow a' ->
  rowSum (fold_left accumulate_cell cells a)
    = rowSum (fold_left accumulate_cell cells a') /\
  colSum (fold_left accumulate_cell cells a)
    = colSum (fold_left accumulate_cell cells a') /\
  numValidInRow (fold_left accumulate_cell cells a)
    = numValidInRow (fold_left accumulate_cell cells a').
Proof.
  revert a a'. induction cells as [|[[x y]|] cells IH]; intros a a' H1 H2 H3;
    simpl; [done | | by apply IH].
  apply IH; simpl; congruence.
Qed.

Lemma accumulate_row_same (w : bool) (row : Z) (cells : list DisparityPixel)
    (st st' : Accumulation D) :
  same_but_calc st st' ->
  same_but_calc (accumulate_row w row cells st) (accumulate_row w row cells st').
Proof.
  intros (H1 & H2 & H3 & H4 & H5). unfold accumulate_row.
  set (a0 := {| rowSum := dzero; colSum := dzero; numValidInRow := 0;
                rowCalcX := stdCalcX st; rowCalcY := stdCalcY st |}).
  set (a0' := {| rowSum := dzero; colSum := dzero; numValidInRow := 0;
                 rowCalcX := stdCalcX st'; rowCalcY := stdCalcY st' |}).
  destruct (accumulate_cells_same cells a0 a0') as (C1 & C2 & C3);
    [done | done | done |].
  set (a := fold_left accumulate_cell cells a0) in *.
  set (a' := fold_left accumulate_cell cells a0') in *.
  rewrite <- C1, <- C2, <- C3, <- H1, <- H2, <- H3, <- H4, <- H5.
  unfold same_but_calc.
  destruct (numValidInRow a =? 0); destruct w; simpl; done.
Qed.

Lemma accumulate_rows_same (w : bool) (dm : DisparityMap) :
  forall (row : Z) (st st' : Accumulation D),
    same_but_calc st st' ->
    same_but_calc (accumulate_rows w row dm st) (accumulate_rows w row dm st').
Proof.
  induction dm as [|cells dm IH]; intros row st st' Hs; [done|].
  simpl. apply IH. by apply accumulate_row_same.
Qed.

Lemma determineShifts_indeterminate (env : Env D) (g : nat -> D)
    (params : Parameters D) (dX0 dY0 : D) :
  determineShifts (with_indeterminate env g) params dX0 dY0
  = determineShifts env params dX0 dY0.
Proof.
  unfold determineShifts. simpl.
  destruct (file_exists env (leftFilePath params)); simpl; [|done].
  destruct (file_exists env (rightFilePath params)); simpl; [|done].
  destruct (image_size env (leftFilePath params)) as [[lcols lrows]|]; [|done].
  destruct (image_size env (rightFilePath params)) as [[rcols rrows]|]; [|done].
  destruct (usePyramid params).
  all: destruct (_ && _); [done|].
  all: match goal with
       | |- context [accumulate_rows ?w0 0 ?dm0 ?st0] =>
           match goal with
           | |- context [accumulate_rows w0 0 dm0 ?st1] =>
               lazymatch st1 with
               | st0 => fail
               | _ =>
                   pose proof (accumulate_rows_same w0 dm0 0 st0 st1
                                 ltac:(by repeat split)) as (S1 & S2 & _ & _ & S5);
                   destruct (accumulate_rows_calc w0 dm0 0 st0) as (X0 & Y0);
                   destruct (accumulate_rows_calc w0 dm0 0 st1) as (X1 & Y1);
                   set (st := accumulate_rows w0 0 dm0 st0) in *;
                   set (st' := accumulate_rows w0 0 dm0 st1) in *
               end
           end
       end.
  all: simpl in X0, Y0, X1, Y1.
  all: assert (MX : Mean (stdCalcX st) = Mean (stdCalcX st'))
         by (rewrite X0, X1; by apply Mean_pushes_fresh).
  all: assert (MY : Mean (stdCalcY st) = Mean (stdCalcY st'))
         by (rewrite Y0, Y1; by apply Mean_pushes_fresh).
  all: assert (VX : StandardDeviation (stdCalcX st) = StandardDeviation (stdCalcX st'))
         by (unfold StandardDeviation; rewrite X0, X1; f_equal;
             by apply Variance_pushes_fresh).
  all: assert (VY : StandardDeviation (stdCalcY st) = StandardDeviation (stdCalcY st'))
         by (unfold StandardDeviation; rewrite Y0, Y1; f_equal;
             by apply Variance_pushes_fresh).
  all: unfold log_summary; rewrite S1, S2, S5, MX, MY, VX, VY; reflexivity.
Qed.
(** What a call does not depend on: the values its two reference parameters
    hold when it starts. *)
Lemma determineShifts_initial_offsets (env : Env D) (params : Parameters D)
    (a b a' b' : D) :
  result (determineShifts env params a b) = result (determineShifts env params a' b') /\
  console (determineShifts env params a b) = console (determineShifts env params a' b') /\
  logfile (determineShifts env params a b) = logfile (determineShifts env params a' b') /\
  (result (determineShifts env params a b) = Returned true ->
   dX (determineShifts env params a b) = dX (determineShifts env params a' b') /\
   dY (determineShifts env params a b) = dY (determineShifts env params a' b')).
Proof.
  unfold determineShifts.
  destruct (file_exists env (leftFilePath params)),
    (file_exists env (rightFilePath params)); simpl;
    try destruct (image_size env (leftFilePath params)) as [[lcols lrows]|]; simpl;
    try destruct (image_size env (rightFilePath params)) as [[rcols rrows]|]; simpl;
    try (destruct (usePyramid params), (string_empty (rowLogFilePath params)),
           (log_opens env (rowLogFilePath params)); simpl;
         try (destruct (numValidRows _ =? 0)%Z; simpl)).
  all: repeat split; done.
Qed.
End Uninitialised.

(** X7. No value that is read before it was assigned reaches the outside.
    The fields the constructor of the accumulators leaves unset and the two
    offsets [main] declares without a value can hold anything: what is
    printed, what is written to the row log and the exit status are the
    same. *)
Theorem main_ignores_uninitialised_memory :
  forall (D : Type) (ops : DoubleOps D) (env : Env D) (g : nat -> D)
         (argv : list string),
    main (with_indeterminate env g) argv = main env argv.
Proof.
  intros D ops env g argv. unfold main.
  change (handle_arguments (with_indeterminate env g) argv)
    with (handle_arguments env argv).
  destruct (handle_arguments env argv) as [[[|] params]|e]; [|done|done].
  rewrite determineShifts_indeterminate. simpl.
  destruct (determineShifts_initial_offsets env params
              (g 8%nat) (g 9%nat) (indeterminate env 8%nat) (indeterminate env 9%nat))
    as (Hr & Hc & Hl & Hd).
  rewrite <- Hr, <- Hc, <- Hl.
  destruct (result (determineShifts env params (g 8%nat) (g 9%nat)))
    as [[|]|e]; [|done|done].
  destruct (Hd eq_refl) as (-> & ->). done.
Qed.

(** ** File names and duplicates *)

Section FileNameFacts.
Local Open Scope Z_scope.

Lemma rfind_lower (c : ascii) (s : string) : -1 <= rfind c s.
Proof.
  induction s as [|a s IH]; simpl; [lia|].
  destruct (Z.eqb_spec (rfind c s) (-1)); [destruct (Ascii.eqb a c)|]; lia.
Qed.

Lemma rfind_absent (c : ascii) (s : string) :
  rfind c s = -1 <-> occurs c s = false.
Proof.
  induction s as [|a s IH]; simpl; [done|].
  pose proof (rfind_lower c s).
  destruct (Z.eqb_spec (rfind c s) (-1)) as [E|E].
  - destruct (Ascii.eqb a c); simpl; [split; [lia | done]|].
    split; intros _; [by apply IH | done].
  - split; [lia|]. intros Ho. apply orb_false_iff in Ho as (_ & Ho).
    apply IH in Ho. done.
Qed.

(** The last occurrence: behind it the character does not occur. *)
Lemma rfind_last (c : ascii) (stem ext : string) :
  occurs c ext = false ->
  rfind c (stem +:+ String c ext) = Z.of_nat (String.length stem).
Proof.
  intros Hext. induction stem as [|a stem IH]; simpl.
  - apply rfind_absent in Hext. rewrite Hext. simpl.
    by rewrite Ascii.eqb_refl.
  - rewrite IH.
    destruct (Z.eqb_spec (Z.of_nat (String.length stem)) (-1)); lia.
Qed.

Lemma substring_stem (stem rest : string) :
  substring 0 (String.length stem) (stem +:+ rest) = stem.
Proof.
  induction stem as [|a stem IH]; simpl; [by destruct rest|]. by rewrite IH.
Qed.

Lemma occurs_split (c : ascii) (s : string) :
  occurs c s = true ->
  exists stem ext, s = stem +:+ String c ext /\ occurs c ext = false.
Proof.
  induction s as [|a s IH]; simpl; [done|]. intros Ho.
  destruct (occurs c s) eqn:Es.
  - destruct (IH eq_refl) as (stem & ext & -> & Hext).
    by exists (String a stem), ext.
  - rewrite orb_false_r in Ho. apply Ascii.eqb_eq in Ho as ->.
    by exists EmptyString, s.
Qed.
End FileNameFacts.

(** X8. [prefix_from_filename] cuts a file name at its last dot: the name
    of a file is the result, a dot and an extension without a dot, so the
    stem of [stem.ext] is recovered whatever dots and slashes it holds; a
    name without a dot is returned as it is. *)
Theorem prefix_from_filename_cuts_last_dot :
  forall filename : string,
    (occurs "." filename = false -> prefix_from_filename filename = filename) /\
    (occurs "." filename = true ->
     exists ext,
       occurs "." ext = false /\
       filename = prefix_from_filename filename +:+ String "." ext) /\
    (forall stem ext,
       occurs "." ext = false ->
       prefix_from_filename (stem +:+ String "." ext) = stem).
Proof.
  intros filename.
  assert (Hcut : forall stem ext,
            occurs "." ext = false ->
            prefix_from_filename (stem +:+ String "." ext) = stem).
  { intros stem ext Hext. unfold prefix_from_filename.
    rewrite rfind_last by done.
    destruct (Z.eqb_spec (Z.of_nat (String.length stem)) (-1)) as [E|_]; [lia|].
    simpl. rewrite Nat2Z.id. apply substring_stem. }
  split; [|split; [|exact Hcut]].
  - intros Hno. unfold prefix_from_filename.
    apply rfind_absent in Hno. by rewrite Hno.
  - intros Hdot. destruct (occurs_split _ _ Hdot) as (stem & ext & -> & Hext).
    exists ext. split; [done|]. by rewrite Hcut.
Qed.

Section RemoveDuplicatesMore.
Context {D : Type} {ops : DoubleOps D}.

Lemma remove_duplicates_survivors (ip1 ip2 : list (Vector3 D)) :
  length ip1 = length ip2 ->
  remove_duplicates ip1 ip2
  = Some (omap (fun i => ip1 !! i) (survivors ip1 ip2),
          omap (fun i => ip2 !! i) (survivors ip1 ip2)).
Proof.
  intros Hlen. unfold remove_duplicates. rewrite duplicate_filter_spec; [done | done |].
  apply Forall_forall. intros i Hi. apply list_elem_of_In, in_seq in Hi. lia.
Qed.

Lemma omap_lookup_seq_from {A : Type} (pre l : list A) :
  omap (fun i => (pre ++ l) !! i) (seq (length pre) (length l)) = l.
Proof.
  revert pre. induction l as [|a l IH]; intros pre; [done|].
  simpl. rewrite list_lookup_middle by done. simpl. f_equal.
  specialize (IH (pre ++ [a])).
  rewrite length_app, Nat.add_1_r, <- app_assoc in IH. exact IH.
Qed.

Lemma omap_lookup_seq {A : Type} (l : list A) :
  omap (fun i => l !! i) (seq 0 (length l)) = l.
Proof. exact (omap_lookup_seq_from [] l). Qed.

Lemma survivors_all (ip1 ip2 : list (Vector3 D)) :
  (forall i j, (i < length ip1)%nat -> (j < length ip1)%nat -> i <> j ->
     shares ip1 ip2 i j = false) ->
  survivors ip1 ip2 = seq 0 (length ip1).
Proof.
  intros Hfree. unfold survivors.
  apply forallb_filter_id. apply forallb_forall. intros i Hi.
  apply in_seq in Hi. apply negb_true_iff, not_true_is_false. intros Hd.
  unfold duplicated in Hd. apply existsb_exists in Hd as (j & Hj & Hs).
  apply in_seq in Hj. apply andb_true_iff in Hs as (Hne & Hs).
  destruct (Nat.eqb_spec i j); [done|].
  rewrite Hfree in Hs by lia. done.
Qed.

(** What [remove_duplicates] leaves holds no two entries that share an
    endpoint. *)
Lemma survivors_share_nothing (ip1 ip2 : list (Vector3 D)) (p q : nat) :
  length ip1 = length ip2 ->
  p <> q ->
  shares (omap (fun i => ip1 !! i) (survivors ip1 ip2))
         (omap (fun i => ip2 !! i) (survivors ip1 ip2)) p q = false.
Proof.
  intros Hlen Hpq.
  set (kept := survivors ip1 ip2).
  assert (Hk1 : Forall (fun i => (i < length ip1)%nat) kept).
  { apply Forall_forall. intros i Hi.
    apply list_elem_of_In, survivors_spec in Hi as (Hi & _). done. }
  assert (Hk2 : Forall (fun i => (i < length ip2)%nat) kept) by (by rewrite <- Hlen).
  assert (Hsorted : StronglySorted lt kept) by apply filter_seq_sorted.
  pose proof (omap_lookup_Forall2 ip1 kept Hk1) as F1.
  pose proof (omap_lookup_Forall2 ip2 kept Hk2) as F2.
  unfold shares.
  destruct (omap (fun i => ip1 !! i) kept !! p) as [a|] eqn:Ha; [|done].
  destruct (omap (fun i => ip1 !! i) kept !! q) as [b|] eqn:Hb; [|done].
  destruct (omap (fun i => ip2 !! i) kept !! p) as [c|] eqn:Hc; [|done].
  destruct (omap (fun i => ip2 !! i) kept !! q) as [d|] eqn:Hd; [|done].
  destruct (Forall2_lookup_r _ _ _ _ _ F1 Ha) as (i & Hpi & Hia).
  destruct (Forall2_lookup_r _ _ _ _ _ F1 Hb) as (j & Hqj & Hjb).
  destruct (Forall2_lookup_r _ _ _ _ _ F2 Hc) as (i' & Hpi' & Hic).
  destruct (Forall2_lookup_r _ _ _ _ _ F2 Hd) as (j' & Hqj' & Hjd).
  assert (i' = i) as -> by congruence. assert (j' = j) as -> by congruence.
  assert (Hij : i <> j).
  { destruct (Nat.lt_total p q) as [Hlt | [Heq | Hgt]]; [|done|].
    - pose proof (sorted_lookup_lt kept p q i j Hsorted Hlt Hpi Hqj). lia.
    - pose proof (sorted_lookup_lt kept q p j i Hsorted Hgt Hqj Hpi). lia. }
  assert (Hin : In i kept) by (apply list_elem_of_In; by eapply list_elem_of_lookup_2).
  apply survivors_spec in Hin as (Hi & Hall).
  assert (Hj : (j < length ip1)%nat) by (by eapply lookup_lt_Some).
  specialize (Hall j Hj ltac:(congruence)).
  unfold shares in Hall. by rewrite Hia, Hjb, Hic, Hjd in Hall.
Qed.

(** Entries of the second vector past the length of the first are never
    read. *)
Lemma duplicate_scan_take (ip1 ip2 : list (Vector3 D)) (i : nat) (js : list nat)
    (bad_entry : bool) :
  (i < length ip1)%nat ->
  Forall (fun j => (j < length ip1)%nat) js ->
  duplicate_scan ip1 (take (length ip1) ip2) i js bad_entry
  = duplicate_scan ip1 ip2 i js bad_entry.
Proof.
  intros Hi. revert bad_entry.
  induction js as [|j js IH]; intros bad_entry Hjs; [done|].
  apply Forall_cons in Hjs as (Hj & Hjs). simpl.
  rewrite !lookup_take_lt by done. rewrite !IH by done. done.
Qed.

Lemma duplicate_filter_take (ip1 ip2 : list (Vector3 D)) (pending : list nat)
    (new_ip1 new_ip2 : list (Vector3 D)) :
  Forall (fun i => (i < length ip1)%nat) pending ->
  duplicate_filter ip1 (take (length ip1) ip2) pending new_ip1 new_ip2
  = duplicate_filter ip1 ip2 pending new_ip1 new_ip2.
Proof.
  revert new_ip1 new_ip2.
  induction pending as [|i pending IH]; intros new_ip1 new_ip2 Hp; [done|].
  apply Forall_cons in Hp as (Hi & Hp). simpl.
  rewrite duplicate_scan_take; [|done|].
  2:{ apply Forall_forall. intros j Hj. apply list_elem_of_In, in_seq in Hj. lia. }
  rewrite !lookup_take_lt by done.
  destruct (duplicate_scan ip1 ip2 i (seq 0 (length ip1)) false) as [[|]|];
    simpl; [by apply IH | | done].
  destruct (ip1 !! i); simpl; [|done].
  destruct (ip2 !! i); simpl; [|done].
  by apply IH.
Qed.
End RemoveDuplicatesMore.

(** X9. On two sequences of equal length in which no two entries share an
    endpoint, [remove_duplicates] changes nothing. What it leaves is always
    such a pair of sequences, so applying it a second time changes nothing:
    one pass removes every duplicate. *)
Theorem remove_duplicates_idempotent :
  forall (D : Type) (ops : DoubleOps D) (ip1 ip2 : list (Vector3 D)),
    length ip1 = length ip2 ->
    ((forall i j, (i < length ip1)%nat -> (j < length ip1)%nat -> i <> j ->
        shares ip1 ip2 i j = false) ->
     remove_duplicates ip1 ip2 = Some (ip1, ip2)) /\
    (forall new_ip1 new_ip2,
       remove_duplicates ip1 ip2 = Some (new_ip1, new_ip2) ->
       remove_duplicates new_ip1 new_ip2 = Some (new_ip1, new_ip2)).
Proof.
  intros D ops ip1 ip2 Hlen.
  assert (Hid : forall a b : list (Vector3 D),
            length a = length b ->
            (forall i j, (i < length a)%nat -> (j < length a)%nat -> i <> j ->
               shares a b i j = false) ->
            remove_duplicates a b = Some (a, b)).
  { intros a b Hab Hfree.
    rewrite remove_duplicates_survivors by done.
    rewrite survivors_all by done.
    rewrite omap_lookup_seq. rewrite Hab. by rewrite omap_lookup_seq. }
  split; [by apply Hid|].
  intros new_ip1 new_ip2. rewrite remove_duplicates_survivors by done.
  intros [= <- <-].
  apply Hid.
  - set (kept := survivors ip1 ip2).
    assert (Hk1 : Forall (fun i => (i < length ip1)%nat) kept).
    { apply Forall_forall. intros i Hi.
      apply list_elem_of_In, survivors_spec in Hi as (Hi & _). done. }
    assert (Hk2 : Forall (fun i => (i < length ip2)%nat) kept) by (by rewrite <- Hlen).
    by rewrite <- (Forall2_length _ _ _ (omap_lookup_Forall2 ip1 kept Hk1)),
               <- (Forall2_length _ _ _ (omap_lookup_Forall2 ip2 kept Hk2)).
  - intros i j _ _ Hij. by apply survivors_share_nothing.
Qed.

Lemma remove_duplicates_idempotent_witness :
  remove_duplicates (ops := float_ops) [ (5, 5, 1) ]%float [ (8, 8, 1) ]%float
  = Some ([ (5, 5, 1) ]%float, [ (8, 8, 1) ]%float).
Proof.
  apply (proj2 (remove_duplicates_idempotent float float_ops sample_ip1 sample_ip2
                  eq_refl)).
  vm_compute. reflexivity.
Defined.

(** X10. [remove_duplicates] reads of its second sequence only as many
    entries as the first one has: on a second sequence that is at least as
    long it returns, and returns what it returns on that sequence cut to the
    length of the first. The entries in excess are dropped without
    notice. *)
Theorem remove_duplicates_ignores_excess :
  forall (D : Type) (ops : DoubleOps D) (ip1 ip2 : list (Vector3 D)),
    (length ip1 <= length ip2)%nat ->
    remove_duplicates ip1 ip2 = remove_duplicates ip1 (take (length ip1) ip2) /\
    exists new_ip1 new_ip2,
      remove_duplicates ip1 ip2 = Some (new_ip1, new_ip2) /\
      length new_ip1 = length new_ip2 /\
      (length new_ip1 <= length ip1)%nat.
Proof.
  intros D ops ip1 ip2 Hle.
  assert (Heq : remove_duplicates ip1 ip2
                = remove_duplicates ip1 (take (length ip1) ip2)).
  { unfold remove_duplicates. symmetry. apply duplicate_filter_take.
    apply Forall_forall. intros i Hi. apply list_elem_of_In, in_seq in Hi. lia. }
  split; [exact Heq|]. rewrite Heq.
  assert (Hlen : length ip1 = length (take (length ip1) ip2))
    by (rewrite length_take; lia).
  rewrite remove_duplicates_survivors by done.
  set (cut := take (length ip1) ip2) in *.
  set (kept := survivors ip1 cut).
  assert (Hk1 : Forall (fun i => (i < length ip1)%nat) kept).
  { apply Forall_forall. intros i Hi.
    apply list_elem_of_In, survivors_spec in Hi as (Hi & _). done. }
  assert (Hk2 : Forall (fun i => (i < length cut)%nat) kept) by (by rewrite <- Hlen).
  eexists _, _. split; [reflexivity|].
  rewrite <- (Forall2_length _ _ _ (omap_lookup_Forall2 ip1 kept Hk1)),
          <- (Forall2_length _ _ _ (omap_lookup_Forall2 cut kept Hk2)).
  split; [done|].
  subst kept. unfold survivors.
  etransitivity; [apply List.filter_length_le|]. by rewrite length_seq.
Qed.

Lemma remove_duplicates_ignores_excess_witness :
  remove_duplicates (ops := float_ops) sample_ip1
    (sample_ip2 ++ [ (1, 2, 1) ]%float)
  = remove_duplicates (ops := float_ops) sample_ip1
      (take (length sample_ip1) (sample_ip2 ++ [ (1, 2, 1) ]%float)).
Proof.
  apply (proj1 (remove_duplicates_ignores_excess float float_ops sample_ip1
                  (sample_ip2 ++ [ (1, 2, 1) ]%float) ltac:(simpl; lia))).
Defined.

(** ** What the session touches *)

Section FrameFacts.
Context {D : Type} {ops : DoubleOps D} {vw : VisionWorkbench D}.

Lemma writes_only_ret {A : Type} (paths : list string) (a : A) :
  writes_only paths (mret a).
Proof.
  intros w. simpl. repeat split; try done. exists []. by rewrite app_nil_r.
Qed.

Lemma writes_only_bind {A B : Type} (paths : list string)
    (m : Session A) (f : A -> Session B) :
  writes_only paths m -> (forall a, writes_only paths (f a)) ->
  writes_only paths (m ≫= f).
Proof.
  intros Hm Hf w. destruct (Hm w) as (H1 & H2 & more & H3).
  unfold mbind, Session_bind. destruct (m w) as [[a|s] w1]; simpl in *.
  - destruct (Hf a w1) as (F1 & F2 & more' & F3).
    split; [|split].
    + intros p Hp. by rewrite F1, H1.
    + intros p Hp. by apply F2, H2.
    + exists (more ++ more'). by rewrite F3, H3, app_assoc.
  - split; [done|]. split; [done|]. by exists more.
Qed.

Lemma writes_only_emit (paths : list string) (e : Event D) :
  writes_only paths (emit e).
Proof. intros w. simpl. repeat split; try done. by eexists. Qed.

Lemma writes_only_throw {A : Type} (paths : list string) (e : Exn) :
  writes_only paths (throw (A := A) e).
Proof.
  intros w. simpl. repeat split; try done. exists []. by rewrite app_nil_r.
Qed.

Lemma writes_only_exit {A : Type} (paths : list string) (code : Z) :
  writes_only paths (exit (A := A) code).
Proof.
  intros w. simpl. repeat split; try done. exists []. by rewrite app_nil_r.
Qed.

Lemma writes_only_undefined {A : Type} (paths : list string) :
  writes_only paths (undefined (A := A)).
Proof.
  intros w. simpl. repeat split; try done. exists []. by rewrite app_nil_r.
Qed.

Lemma writes_only_fs_exists (paths : list string) (path : string) :
  writes_only paths (fs_exists path).
Proof.
  intros w. simpl. repeat split; try done. exists []. by rewrite app_nil_r.
Qed.

Lemma writes_only_load (paths : list string) (path : string) :
  writes_only paths (load path).
Proof.
  intros w. simpl. repeat split; try done. exists []. by rewrite app_nil_r.
Qed.

Lemma writes_only_store (paths : list string) (path : string) (f : File) :
  path ∈ paths -> writes_only paths (store path f).
Proof.
  intros Hin w. simpl. split; [|split].
  - intros p Hp. apply lookup_insert_ne. intros ->. done.
  - intros p Hp. destruct (decide (path = p)) as [->|Hne].
    + rewrite lookup_insert_eq. by eexists.
    + by rewrite lookup_insert_ne.
  - exists []. by rewrite app_nil_r.
Qed.

Lemma writes_only_try_catch_all {A : Type} (paths : list string)
    (m handler : Session A) :
  writes_only paths m -> writes_only paths handler ->
  writes_only paths (try_catch_all m handler).
Proof.
  intros Hm Hh w. destruct (Hm w) as (H1 & H2 & more & H3).
  unfold try_catch_all. destruct (m w) as [[a|[e|code|]] w1]; simpl in *;
    try (split; [done|]; split; [done|]; by exists more).
  destruct (Hh w1) as (F1 & F2 & more' & F3).
  split; [|split].
  - intros p Hp. by rewrite F1, H1.
  - intros p Hp. by apply F2, H2.
  - exists (more ++ more'). by rewrite F3, H3, app_assoc.
Qed.

Lemma writes_only_try_catch_IOErr {A : Type} (paths : list string)
    (m handler : Session A) :
  writes_only paths m -> writes_only paths handler ->
  writes_only paths (try_catch_IOErr m handler).
Proof.
  intros Hm Hh w. destruct (Hm w) as (H1 & H2 & more & H3).
  unfold try_catch_IOErr. destruct (m w) as [[a|[[|path|]|code|]] w1]; simpl in *;
    try (split; [done|]; split; [done|]; by exists more).
  destruct (Hh w1) as (F1 & F2 & more' & F3).
  split; [|split].
  - intros p Hp. by rewrite F1, H1.
  - intros p Hp. by apply F2, H2.
  - exists (more ++ more'). by rewrite F3, H3, app_assoc.
Qed.
End FrameFacts.

(** One step of a frame argument: the computation is taken apart along its
    binds and branches. *)
Ltac frame_step :=
  match goal with
  | |- writes_only _ (mret _) => apply writes_only_ret
  | |- writes_only _ (_ ≫= _) => apply writes_only_bind; [|intros ?]
  | |- writes_only _ (emit _) => apply writes_only_emit
  | |- writes_only _ (vw_out _) => apply writes_only_emit
  | |- writes_only _ (throw _) => apply writes_only_throw
  | |- writes_only _ (exit _) => apply writes_only_exit
  | |- writes_only _ undefined => apply writes_only_undefined
  | |- writes_only _ (fs_exists _) => apply writes_only_fs_exists
  | |- writes_only _ (load _) => apply writes_only_load
  | |- writes_only _ (store _ _) => apply writes_only_store; set_solver
  | |- writes_only _ (try_catch_all _ _) => apply writes_only_try_catch_all
  | |- writes_only _ (try_catch_IOErr _ _) => apply writes_only_try_catch_IOErr
  | |- writes_only _ (if ?b then _ else _) => destruct b
  | |- writes_only _ (match ?x with _ => _ end) => destruct x
  end.

Ltac frame :=
  cbv zeta;
  unfold DiskImageView, DiskDisparityView, read_binary_match_file,
    read_binary_ip_file, write_binary_ip_file, write_binary_match_file,
    write_matrix, read_matrix, write_image;
  repeat frame_step.

Section HookFrames.
Context {D : Type} {ops : DoubleOps D} {vw : VisionWorkbench D}.

Lemma determine_image_alignment_frame (paths : list string)
    (input_file1 input_file2 : string) (lo hi : D) :
  match_file input_file1 input_file2 ∈ paths ->
  vwip_file input_file1 ∈ paths ->
  vwip_file input_file2 ∈ paths ->
  writes_only paths (determine_image_alignment input_file1 input_file2 lo hi).
Proof.
  unfold match_file, vwip_file. intros Hm H1 H2.
  unfold determine_image_alignment, matched_interest_points,
    locate_interest_points, fit_alignment.
  frame.
Qed.
End HookFrames.

Section SecondCall.
Context {D : Type} {ops : DoubleOps D} {vw : VisionWorkbench D}.

Lemma bind_Done_inv {A B : Type} (m : Session A) (k : A -> Session B)
    (w w2 : World) (b : B) :
  (m ≫= k) w = (Done b, w2) ->
  exists a w1, m w = (Done a, w1) /\ k a w1 = (Done b, w2).
Proof.
  unfold mbind, Session_bind. destruct (m w) as [[a|s] w1]; [|done].
  intros H. by exists a, w1.
Qed.

(** However the matches were obtained, the match file holds them when the
    look-up returns. *)
Lemma matched_interest_points_leaves_match_file (input_file1 input_file2 : string)
    (lo hi : D) (w w1 : World)
    (matched : list InterestPoint * list InterestPoint) :
  matched_interest_points input_file1 input_file2 lo hi w = (Done matched, w1) ->
  files w1 !! match_file input_file1 input_file2
  = Some (MatchFile (fst matched) (snd matched)).
Proof.
  unfold match_file, matched_interest_points. cbv zeta.
  set (mf := prefix_from_filename input_file1 +:+ "__" +:+
             prefix_from_filename input_file2 +:+ ".match").
  intros H.
  apply bind_Done_inv in H as ([|] & w0 & _ & H).
  - apply bind_Done_inv in H as (u & w0' & Hsay & H).
    unfold vw_out, emit in Hsay. simplify_eq/=.
    revert H. unfold read_binary_match_file. session_run.
    destruct (files w0 !! mf) as [[]|] eqn:Hmf; session_run; try done.
    intros [= <- <-]. done.
  - apply bind_Done_inv in H as (found1 & w2 & _ & H).
    apply bind_Done_inv in H as (found2 & w3 & _ & H).
    apply bind_Done_inv in H as (copies & w4 & _ & H).
    revert H. session_run. intros [= <- <-]. simpl.
    by rewrite lookup_insert_eq.
Qed.
End SecondCall.

(** X11. A call of [determine_image_alignment] that returns leaves the
    matches it fitted in the match file of the pair. A second call on the
    world it leaves finds them there: it returns too, fits the same matches,
    reads that one file, leaves every file as it is, and runs neither
    detection, description nor matching again, only RANSAC. *)
Theorem determine_image_alignment_second_call :
  forall (D : Type) (ops : DoubleOps D) (vw : VisionWorkbench D)
         (input_file1 input_file2 : string) (lo hi : D) (w : World) (T : Matrix D),
    fst (determine_image_alignment input_file1 input_file2 lo hi w) = Done T ->
    let mf := match_file input_file1 input_file2 in
    let w1 := snd (determine_image_alignment input_file1 input_file2 lo hi w) in
    let w2 := snd (determine_image_alignment input_file1 input_file2 lo hi w1) in
    exists ip1 ip2,
      fst (matched_interest_points input_file1 input_file2 lo hi w)
        = Done (ip1, ip2) /\
      files w1 !! mf = Some (MatchFile ip1 ip2) /\
      fst (matched_interest_points input_file1 input_file2 lo hi w1)
        = Done (ip1, ip2) /\
      (exists T', fst (determine_image_alignment input_file1 input_file2 lo hi w1)
                  = Done T') /\
      files w2 = files w1 /\
      new_actions w1 w2 = [ReadBinaryMatchFile mf; RunRansac].
Proof.
  intros D ops vw input_file1 input_file2 lo hi w T HT mf w1 w2.
  subst w1 w2. revert HT. rewrite !determine_image_alignment_unfold.
  destruct (matched_interest_points input_file1 input_file2 lo hi w)
    as [[[ip1 ip2]|s] w0] eqn:Hm; [|done].
  pose proof (matched_interest_points_leaves_match_file _ _ _ _ _ _ _ Hm) as Hfile.
  simpl in Hfile |- *.
  destruct (remove_duplicates (iplist_to_vectorlist ip1) (iplist_to_vectorlist ip2))
    as [[r1 r2]|] eqn:Hrd.
  2:{ by rewrite fit_alignment_undefined. }
  rewrite (fit_alignment_run ip1 ip2 r1 r2 w0 Hrd). simpl. intros _.
  exists ip1, ip2. split; [done|]. split; [exact Hfile|].
  rewrite (matched_interest_points_cached input_file1 input_file2 lo hi _
             (MatchFile ip1 ip2)) by exact Hfile.
  simpl. split; [done|].
  rewrite (fit_alignment_run ip1 ip2 r1 r2 _ Hrd). simpl.
  split; [by eexists|]. split; [done|].
  unfold new_actions. simpl.
  match goal with
  | |- context [drop (length ?l) _] => generalize l; intros evs1
  end.
  rewrite <- app_assoc, drop_app_length. simpl.
  by destruct (ransac r2 r1).
Qed.

Lemma determine_image_alignment_second_call_witness :
  new_actions
    (snd (determine_image_alignment (ops := float_ops) (vw := sample_vw)
            "left.cub" "right.cub" 0%float 1%float sample_world))
    (snd (determine_image_alignment (ops := float_ops) (vw := sample_vw)
            "left.cub" "right.cub" 0%float 1%float
            (snd (determine_image_alignment (ops := float_ops) (vw := sample_vw)
                    "left.cub" "right.cub" 0%float 1%float sample_world))))
  = [ReadBinaryMatchFile "left__right.match"; RunRansac].
Proof.
  destruct (determine_image_alignment_second_call float float_ops sample_vw
              "left.cub" "right.cub" 0%float 1%float sample_world
              (identity_matrix3 (ops := float_ops))
              ltac:(vm_compute; reflexivity))
    as (ip1 & ip2 & _ & _ & _ & _ & _ & H).
  exact H.
Defined.

(** X12. [determine_image_alignment] touches no file but the three cache
    artifacts of the pair, the match file and the two interest point files:
    from whatever world it starts and however it ends, every other file
    holds what it held, no file has disappeared, and nothing was retracted
    from what had happened before. *)
Theorem determine_image_alignment_writes_only_cache :
  forall (D : Type) (ops : DoubleOps D) (vw : VisionWorkbench D)
         (input_file1 input_file2 : string) (lo hi : D),
    writes_only [match_file input_file1 input_file2;
                 vwip_file input_file1; vwip_file input_file2]
      (determine_image_alignment input_file1 input_file2 lo hi).
Proof.
  intros. apply determine_image_alignment_frame; set_solver.
Qed.

(** X13. [pre_preprocessing_hook] touches no file but its two output
    images, the alignment matrix and the three cache artifacts of the pair;
    in particular the input images stay as they are unless they bear one of
    these names. *)
Theorem pre_preprocessing_hook_writes_only :
  forall (D : Type) (ops : DoubleOps D) (vw : VisionWorkbench D)
         (self : StereoSessionIsis) (settings : StereoSettings)
         (input_file1 input_file2 : string),
    writes_only [m_out_prefix self +:+ "-L.tif"; m_out_prefix self +:+ "-R.tif";
                 m_out_prefix self +:+ "-align.exr";
                 match_file input_file1 input_file2;
                 vwip_file input_file1; vwip_file input_file2]
      (pre_preprocessing_hook self settings input_file1 input_file2).
Proof.
  intros. unfold pre_preprocessing_hook, align_and_write. frame.
  apply determine_image_alignment_frame; set_solver.
Qed.

Section Atomicity.
Context {D : Type} {ops : DoubleOps D} {vw : VisionWorkbench D}.

Lemma writes_only_nil_files {A : Type} (m : Session A) (w : World) :
  writes_only [] m -> files (snd (m w)) = files w.
Proof.
  intros Hm. destruct (Hm w) as (H1 & _). apply map_eq. intros p.
  apply H1. set_solver.
Qed.

(** The point cloud hook up to its only write. *)
Lemma pre_pointcloud_hook_stopped (self : StereoSessionIsis) (input_file : string)
    (w : World) (s : Stop) :
  fst (pre_pointcloud_hook self input_file w) = Stopped s ->
  files (snd (pre_pointcloud_hook self input_file w)) = files w.
Proof.
  unfold pre_pointcloud_hook. cbv zeta.
  match goal with
  | |- context [DiskDisparityView input_file ≫= ?k] => set (rest := k)
  end.
  pose proof (writes_only_nil_files (DiskDisparityView input_file) w) as H0.
  unfold mbind at 1 2. unfold Session_bind at 1 2.
  destruct (DiskDisparityView input_file w) as [[d|s0] w0]; simpl in *.
  2:{ intros _. apply H0. frame. }
  rewrite <- H0 by frame. subst rest. cbv beta.
  match goal with
  | |- context [?m ≫= ?k] => set (prelude := m); set (rest := k)
  end.
  pose proof (writes_only_nil_files prelude w0) as H1.
  unfold mbind at 1 2. unfold Session_bind at 1 2.
  destruct (prelude w0) as [[r|s1] w1] eqn:Hp; simpl in *.
  - subst rest. session_run. done.
  - intros _. apply H1. subst prelude. frame.
Qed.
End Atomicity.

(** X14. [pre_pointcloud_hook] touches no file but its output, the corrected
    disparity map; and when it does not return, because a file failed to
    load or the session was ended, it has written nothing at all. *)
Theorem pre_pointcloud_hook_writes_only :
  forall (D : Type) (ops : DoubleOps D) (vw : VisionWorkbench D)
         (self : StereoSessionIsis) (input_file : string),
    writes_only [m_out_prefix self +:+ "-F-corrected.exr"]
      (pre_pointcloud_hook self input_file) /\
    forall (w : World) (s : Stop),
      fst (pre_pointcloud_hook self input_file w) = Stopped s ->
      files (snd (pre_pointcloud_hook self input_file w)) = files w.
Proof.
  intros. split; [|apply pre_pointcloud_hook_stopped].
  unfold pre_pointcloud_hook. frame.
Qed.

Section Composition.
Context {D : Type} {ops : DoubleOps D} {vw : VisionWorkbench D}.

Lemma append_inj_prefix (p a b : string) : p +:+ a = p +:+ b -> a = b.
Proof.
  induction p as [|c p IH]; simpl; [done|]. intros [= H]. by apply IH.
Qed.

(** A hook that returns had its two input images. *)
Lemma pre_preprocessing_hook_inputs (self : StereoSessionIsis)
    (settings : StereoSettings) (input_file1 input_file2 : string)
    (w w1 : World) (outs : string * string) :
  pre_preprocessing_hook self settings input_file1 input_file2 w = (Done outs, w1) ->
  exists image1 image2,
    files w !! input_file1 = Some (ImageFile image1) /\
    files w !! input_file2 = Some (ImageFile image2).
Proof.
  unfold pre_preprocessing_hook. intros H.
  apply bind_Done_inv in H as (image1 & w0 & H1 & H).
  apply bind_Done_inv in H as (image2 & w0' & H2 & _).
  exists image1, image2. split.
  - revert H1. unfold DiskImageView. session_run.
    destruct (files w !! input_file1) as [[]|]; session_run; try done.
    by intros [= <- <-].
  - revert H1 H2. unfold DiskImageView. session_run.
    destruct (files w !! input_file1) as [[]|]; session_run; try done.
    intros [= <- <-]. simpl.
    destruct (files w !! input_file2) as [[]|]; session_run; try done.
    by intros [= <- <-].
Qed.
End Composition.

(** X15. With key point alignment switched off, [pre_preprocessing_hook] on
    two images that load persists the identity as the alignment matrix and
    writes its two output images; it opens the two inputs and does nothing
    else: no cache artifact is read or written and no collaborator of the
    alignment is run. *)
Theorem pre_preprocessing_hook_without_keypoint_alignment :
  forall (D : Type) (ops : DoubleOps D) (vw : VisionWorkbench D)
         (self : StereoSessionIsis) (settings : StereoSettings)
         (input_file1 input_file2 : string) (image1 image2 : Image) (w : World),
    Matrix_eq (ops := ops) identity_matrix3 identity_matrix3 = true ->
    keypoint_alignment settings = false ->
    files w !! input_file1 = Some (ImageFile image1) ->
    files w !! input_file2 = Some (ImageFile image2) ->
    let r := pre_preprocessing_hook self settings input_file1 input_file2 w in
    fst r = Done (m_out_prefix self +:+ "-L.tif", m_out_prefix self +:+ "-R.tif") /\
    files (snd r) !! (m_out_prefix self +:+ "-align.exr")
      = Some (MatrixFile identity_matrix3) /\
    new_actions w (snd r)
      = [OpenImage input_file1; OpenImage input_file2;
         WriteMatrix (m_out_prefix self +:+ "-align.exr");
         WriteImage (m_out_prefix self +:+ "-L.tif");
         WriteImage (m_out_prefix self +:+ "-R.tif")] /\
    existsb is_alignment_work (new_actions w (snd r)) = false.
Proof.
  intros D ops vw self settings input_file1 input_file2 image1 image2 w
    Hid Hk H1 H2 r.
  subst r. rewrite (pre_preprocessing_hook_run self settings input_file1
                      input_file2 image1 image2 w Hid H1 H2).
  rewrite Hk. simpl.
  assert (Hacts : forall w' : World,
            events w' = events w ++
              [OpenImage input_file1; OpenImage input_file2;
               Say (ComputingMinMax
                      (fst (isis_min_max_channel_values image1 (get_no_data_value image1)))
                      (snd (isis_min_max_channel_values image1 (get_no_data_value image1)))
                      (fst (isis_min_max_channel_values image2 (get_no_data_value image2)))
                      (snd (isis_min_max_channel_values image2 (get_no_data_value image2))));
               Say UnprojectedDetected;
               WriteMatrix (m_out_prefix self +:+ "-align.exr");
               Say WritingPreAligned;
               WriteImage (m_out_prefix self +:+ "-L.tif");
               WriteImage (m_out_prefix self +:+ "-R.tif")] ->
            new_actions w w'
            = [OpenImage input_file1; OpenImage input_file2;
               WriteMatrix (m_out_prefix self +:+ "-align.exr");
               WriteImage (m_out_prefix self +:+ "-L.tif");
               WriteImage (m_out_prefix self +:+ "-R.tif")]).
  { intros w' Hev. by rewrite (new_actions_app w w' _ Hev). }
  split; [done|]. split.
  - do 2 rewrite lookup_insert_ne
      by (intros E; apply append_inj_prefix in E; discriminate E).
    by rewrite lookup_insert_eq.
  - rewrite Hacts by (simpl; by rewrite <- app_assoc). done.
Qed.

Lemma pre_preprocessing_hook_without_keypoint_alignment_witness :
  fst (pre_preprocessing_hook (ops := float_ops) (vw := sample_vw) sample_session
         plain_settings "left.cub" "right.cub" sample_world)
  = Done ("out-L.tif", "out-R.tif").
Proof.
  exact (proj1 (pre_preprocessing_hook_without_keypoint_alignment
                  float float_ops sample_vw sample_session plain_settings
                  "left.cub" "right.cub"
                  (100, 80, sample_projection)%Z (100, 80, sample_projection)%Z
                  sample_world eq_refl eq_refl eq_refl eq_refl)).
Defined.

(** X16. The alignment matrix ties preprocessing to the point cloud stage.
    When [pre_preprocessing_hook] returns, the matrix it left in the
    alignment file is the one it warped the right image with. As long as
    that file stays as it is, [pre_pointcloud_hook] on a disparity map and a
    right image that load reads that matrix back, does not end the session,
    and writes the disparities transformed by that matrix. *)
Theorem alignment_matrix_round_trip :
  forall (D : Type) (ops : DoubleOps D) (vw : VisionWorkbench D)
         (self : StereoSessionIsis) (settings : StereoSettings)
         (input_file1 input_file2 : string) (w w1 : World)
         (outs : string * string),
    Matrix_eq (ops := ops) identity_matrix3 identity_matrix3 = true ->
    pre_preprocessing_hook self settings input_file1 input_file2 w
      = (Done outs, w1) ->
    exists (T : Matrix D) (image1 image2 : Image),
      files w !! input_file1 = Some (ImageFile image1) /\
      files w !! input_file2 = Some (ImageFile image2) /\
      files w1 !! (m_out_prefix self +:+ "-align.exr") = Some (MatrixFile T) /\
      (let left_range :=
         isis_min_max_channel_values image1 (get_no_data_value image1) in
       let right_range :=
         isis_min_max_channel_values image2 (get_no_data_value image2) in
       let lo := std_min (fst left_range) (fst right_range) in
       let hi := std_min (snd left_range) (snd right_range) in
       files w1 !! (m_out_prefix self +:+ "-R.tif")
       = Some (ImageFile (channel_cast_rescale_uint8
                 (homography_transform
                    (normalize (remove_isis_special_pixels image2 lo)
                       lo hi dzero done)
                    T (cols image1) (rows image1))))) /\
      forall (w2 : World) (input_file : string) (d : DisparityImage D)
             (right_image : Image),
        files w2 !! (m_out_prefix self +:+ "-align.exr")
          = files w1 !! (m_out_prefix self +:+ "-align.exr") ->
        files w2 !! input_file = Some (DisparityFile d) ->
        files w2 !! m_right_image_file self = Some (ImageFile right_image) ->
        fst (pre_pointcloud_hook self input_file w2)
          = Done (m_out_prefix self +:+ "-F-corrected.exr") /\
        In (ReadMatrix (m_out_prefix self +:+ "-align.exr"))
           (new_actions w2 (snd (pre_pointcloud_hook self input_file w2))) /\
        files (snd (pre_pointcloud_hook self input_file w2))
          !! (m_out_prefix self +:+ "-F-corrected.exr")
        = Some (DisparityFile
                  (remove_invalid_pixels
                     (transform_disparities (homography_point T) d)
                     (cols right_image) (rows right_image))).
Proof.
  intros D ops vw self settings input_file1 input_file2 w w1 outs Hid Hrun.
  destruct (pre_preprocessing_hook_inputs _ _ _ _ _ _ _ Hrun)
    as (image1 & image2 & H1 & H2).
  rewrite (pre_preprocessing_hook_run self settings input_file1 input_file2
             image1 image2 w Hid H1 H2) in Hrun.
  cbv zeta in Hrun |- *.
  match type of Hrun with
  | match fst ?a with _ => _ end = _ => destruct a as [[T|s] w0]
  end; simpl in Hrun; [|done].
  injection Hrun as _ <-.
  exists T, image1, image2.
  split; [done|]. split; [done|].
  assert (Halign : forall f1 f2 (m : gmap string File),
            <[m_out_prefix self +:+ "-R.tif" := f1]>
              (<[m_out_prefix self +:+ "-L.tif" := f2]>
                 (<[m_out_prefix self +:+ "-align.exr" := MatrixFile T]> m))
              !! (m_out_prefix self +:+ "-align.exr") = Some (MatrixFile T)).
  { intros f1 f2 m.
    do 2 rewrite lookup_insert_ne
      by (intros E; apply append_inj_prefix in E; discriminate E).
    by rewrite lookup_insert_eq. }
  simpl. split; [apply Halign|]. split; [by rewrite lookup_insert_eq|].
  intros w2 input_file d right_image Hsame Hd Hr.
  rewrite Halign in Hsame.
  rewrite (pre_pointcloud_hook_run self input_file w2 d T right_image Hid Hd Hsame Hr).
  simpl. split; [done|]. split; [|by rewrite lookup_insert_eq].
  erewrite new_actions_app by reflexivity. simpl. auto.
Qed.

Lemma alignment_matrix_round_trip_witness :
  exists T : Matrix float,
    files (snd sample_preprocessing) !! "out-align.exr" = Some (MatrixFile T).
Proof.
  destruct (alignment_matrix_round_trip float float_ops sample_vw sample_session
              sample_settings "left.cub" "right.cub" sample_world
              (snd sample_preprocessing) ("out-L.tif", "out-R.tif")
              eq_refl ltac:(vm_compute; reflexivity))
    as (T & image1 & image2 & _ & _ & H & _).
  exists T. exact H.
Defined.

(** X17. [pre_preprocessing_hook] opens its two inputs first, the left one
    before the right one. When one of them does not load as an image it
    throws the error of that file at once: nothing has been written, no
    cache artifact was looked up, and the right image is not opened after a
    left image that failed. *)
Theorem pre_preprocessing_hook_missing_input :
  forall (D : Type) (ops : DoubleOps D) (vw : VisionWorkbench D)
         (self : StereoSessionIsis) (settings : StereoSettings)
         (input_file1 input_file2 : string) (w : World),
    ((forall image, files w !! input_file1 <> Some (ImageFile image)) ->
     pre_preprocessing_hook self settings input_file1 input_file2 w
     = (Stopped (Raised (IOErr input_file1)),
        {| files := files w; events := events w ++ [OpenImage input_file1] |})) /\
    (forall image1,
       files w !! input_file1 = Some (ImageFile image1) ->
       (forall image, files w !! input_file2 <> Some (ImageFile image)) ->
       pre_preprocessing_hook self settings input_file1 input_file2 w
       = (Stopped (Raised (IOErr input_file2)),
          {| files := files w;
             events := events w ++ [OpenImage input_file1; OpenImage input_file2] |})).
Proof.
  intros D ops vw self settings input_file1 input_file2 w. split.
  - intros Hno. unfold pre_preprocessing_hook. session_run.
    destruct (files w !! input_file1) as [[image| | | |]|] eqn:E; session_run;
      try done.
    by destruct (Hno image).
  - intros image1 H1 Hno. unfold pre_preprocessing_hook. session_run.
    rewrite H1. session_run.
    destruct (files w !! input_file2) as [[image| | | |]|] eqn:E; session_run;
      try (by rewrite <- app_assoc).
    by destruct (Hno image).
Qed.

(** X18. In [pre_pointcloud_hook] only the reading of the alignment matrix
    is guarded. A disparity map that does not load throws its error before
    anything else is done. An alignment matrix that does not load ends the
    session with status 1. A right image that does not load, once the matrix
    was read, throws its error: it is not turned into an exit. In each case
    no file is written. *)
Theorem pre_pointcloud_hook_outcomes :
  forall (D : Type) (ops : DoubleOps D) (vw : VisionWorkbench D)
         (self : StereoSessionIsis) (input_file : string) (w : World),
    Matrix_eq (ops := ops) identity_matrix3 identity_matrix3 = true ->
    ((forall d, files w !! input_file <> Some (DisparityFile d)) ->
     pre_pointcloud_hook self input_file w
     = (Stopped (Raised (IOErr input_file)),
        {| files := files w; events := events w ++ [OpenImage input_file] |})) /\
    (forall d,
       files w !! input_file = Some (DisparityFile d) ->
       (forall m, files w !! (m_out_prefix self +:+ "-align.exr")
                  <> Some (MatrixFile m)) ->
       pre_pointcloud_hook self input_file w
       = (Stopped (Exited 1),
          {| files := files w;
             events := events w ++
               [OpenImage input_file; Say UnprojectedDetected;
                ReadMatrix (m_out_prefix self +:+ "-align.exr");
                Say (CouldNotReadAlignment (m_out_prefix self +:+ "-align.exr"))] |})) /\
    (forall d m,
       files w !! input_file = Some (DisparityFile d) ->
       files w !! (m_out_prefix self +:+ "-align.exr") = Some (MatrixFile m) ->
       (forall image, files w !! m_right_image_file self <> Some (ImageFile image)) ->
       pre_pointcloud_hook self input_file w
       = (Stopped (Raised (IOErr (m_right_image_file self))),
          {| files := files w;
             events := events w ++
               [OpenImage input_file; Say UnprojectedDetected;
                ReadMatrix (m_out_prefix self +:+ "-align.exr");
                Say (AlignmentMatrixIs m);
                OpenImage (m_right_image_file self)] |})).
Proof.
  intros D ops vw self input_file w Hid. split; [|split].
  - intros Hno. unfold pre_pointcloud_hook. session_run.
    destruct (files w !! input_file) as [[| | | |d]|] eqn:Hd; session_run;
      try done.
    by destruct (Hno d).
  - intros d Hd Hno. by apply pre_pointcloud_hook_fatal with d.
  - intros d m Hd Hm Hno. unfold pre_pointcloud_hook. session_run.
    rewrite Hd. session_run. rewrite Hid. session_run.
    rewrite Hm. session_run.
    destruct (files w !! m_right_image_file self) as [[image| | | |]|] eqn:Hr;
      session_run; try (by rewrite <- !app_assoc).
    by destruct (Hno image).
Qed.

Lemma pre_pointcloud_hook_outcomes_witness :
  fst (pre_pointcloud_hook (ops := float_ops) (vw := sample_vw) sample_session
         "out-F.exr" no_right_world)
  = Stopped (Raised (IOErr "right.cub")).
Proof.
  pose proof (proj2 (proj2
    (pre_pointcloud_hook_outcomes float float_ops sample_vw sample_session
       "out-F.exr" no_right_world eq_refl))) as W.
  rewrite (W sample_disparity [ [1; 0; 2]; [0; 1; 0]; [0; 0; 1] ]%float).
  - reflexivity.
  - vm_compute. reflexivity.
  - vm_compute. reflexivity.
  - intros image E. vm_compute in E. discriminate E.
Defined.

(** X19. The interest point files are named after the input files cut at
    their last dot, so two inputs with the same prefix share one file. When
    the points have to be detected for such a pair, those of the right image
    overwrite those of the left before they are read back: the matcher is
    run on the points of the right image against themselves. *)
Theorem same_prefix_inputs_share_interest_points :
  forall (D : Type) (ops : DoubleOps D) (vw : VisionWorkbench D)
         (input_file1 input_file2 : string) (lo hi : D) (w : World)
         (image1 image2 : Image),
    prefix_from_filename input_file1 = prefix_from_filename input_file2 ->
    files w !! match_file input_file1 input_file2 = None ->
    files w !! vwip_file input_file1 = None ->
    files w !! input_file1 = Some (ImageFile image1) ->
    files w !! input_file2 = Some (ImageFile image2) ->
    let right_image :=
      normalize (remove_isis_special_pixels image2 lo) lo hi dzero done in
    let ip2 := descriptor right_image (detect_interest_points right_image) in
    let r := matched_interest_points input_file1 input_file2 lo hi w in
    vwip_file input_file1 = vwip_file input_file2 /\
    fst r = Done (matcher ip2 ip2) /\
    files (snd r) !! vwip_file input_file1 = Some (IpFile ip2).
Proof.
  intros D ops vw input_file1 input_file2 lo hi w image1 image2 Hsame Hm Hv H1 H2
    right_image ip2 r.
  assert (Hv12 : vwip_file input_file1 = vwip_file input_file2)
    by (unfold vwip_file; by rewrite Hsame).
  split; [exact Hv12|].
  subst r.
  rewrite (matched_interest_points_fresh input_file1 input_file2 lo hi w
             image1 image2 Hm (or_introl Hv) H1 H2).
  cbv zeta. rewrite decide_True by exact Hv12.
  fold right_image. fold ip2. simpl. split; [done|].
  assert (Hne : match_file input_file1 input_file2 <> vwip_file input_file1).
  { unfold match_file, vwip_file. intros E.
    apply append_inj_prefix in E. discriminate E. }
  rewrite lookup_insert_ne by exact Hne.
  rewrite <- Hv12. by rewrite lookup_insert_eq.
Qed.

Lemma same_prefix_inputs_share_interest_points_witness :
  fst (matched_interest_points (ops := float_ops) (vw := sample_vw)
         "pair.left" "pair.right" 0%float 1%float same_prefix_world)
  = Done ([(1, 1); (2, 3)]%float, [(1, 1); (2, 3)]%float).
Proof.
  exact (proj1 (proj2
    (same_prefix_inputs_share_interest_points float float_ops sample_vw
       "pair.left" "pair.right" 0%float 1%float same_prefix_world
       (100, 80, sample_projection)%Z (100, 80, sample_projection)%Z
       eq_refl eq_refl eq_refl eq_refl eq_refl))).
Defined.

(** ** The filtering hook *)

Section FilterFacts.
Context {D : Type} {ops : DoubleOps D} {vw : VisionWorkbench D}
        {masking : DisparityMasking D}.

Lemma filter_writes_only_ret {A : Type} (paths : list string) (a : A) :
  filter_writes_only paths (mret a).
Proof.
  intros st. simpl. repeat split; try done. exists []. by rewrite app_nil_r.
Qed.

Lemma filter_writes_only_bind {A B : Type} (paths : list string)
    (m : FilterSession A) (f : A -> FilterSession B) :
  filter_writes_only paths m -> (forall a, filter_writes_only paths (f a)) ->
  filter_writes_only paths (m ≫= f).
Proof.
  intros Hm Hf st. destruct (Hm st) as (H1 & H2 & more & H3).
  unfold mbind, FilterSession_bind. destruct (m st) as [[a|s] st1]; simpl in *.
  - destruct (Hf a st1) as (F1 & F2 & more' & F3).
    split; [|split].
    + intros p Hp. by rewrite F1, H1.
    + intros p Hp. by apply F2, H2.
    + exists (more ++ more'). by rewrite F3, H3, app_assoc.
  - split; [done|]. split; [done|]. by exists more.
Qed.

Lemma filter_writes_only_note (paths : list string) (e : FilterEvent) :
  filter_writes_only paths (note e).
Proof. intros st. simpl. repeat split; try done. by eexists. Qed.

Lemma filter_writes_only_lift {A : Type} (paths : list string) (m : Session A) :
  writes_only paths m -> filter_writes_only paths (lift m).
Proof.
  intros Hm [w t]. destruct (Hm w) as (H1 & H2 & _).
  unfold lift. simpl. destruct (m w) as [r w']. simpl in *.
  repeat split; try done. by eexists.
Qed.
End FilterFacts.

Ltac filter_run :=
  repeat (unfold mbind, mret, FilterSession_bind, FilterSession_ret, lift, note;
          session_run; rewrite ?drop_app_length).

(** X20. [pre_filtering_hook] touches no file but the two debug masks and
    the masked disparity map, and it leaves every file there is. With the
    masking of flat fields switched off it does nothing at all: it returns
    the name of its input without opening it. *)
Theorem pre_filtering_hook_writes_only :
  forall (D : Type) (ops : DoubleOps D) (vw : VisionWorkbench D)
         (masking : DisparityMasking D)
         (self : StereoSessionIsis) (settings : StereoSettings)
         (input_file : string),
    filter_writes_only [m_out_prefix self +:+ "-lMaskDebug.tif";
                        m_out_prefix self +:+ "-rMaskDebug.tif";
                        m_out_prefix self +:+ "-R-masked.exr"]
      (pre_filtering_hook self settings input_file) /\
    (mask_flatfield settings = false ->
     forall st, pre_filtering_hook self settings input_file st
                = (Done input_file, st)).
Proof.
  intros. split.
  - unfold pre_filtering_hook. cbv zeta.
    destruct (mask_flatfield settings); [|apply filter_writes_only_ret].
    repeat first
      [ apply filter_writes_only_ret
      | apply filter_writes_only_note
      | apply filter_writes_only_lift; frame
      | apply filter_writes_only_bind; [|intros ?] ].
  - intros Hoff st. unfold pre_filtering_hook. by rewrite Hoff.
Qed.

(** X21. With the masking of flat fields switched on and the two images and
    the two masks on disk, [pre_filtering_hook] first writes the two debug
    masks, each the mask as [mask_black_pixels] leaves it on the image
    clamped to 0 .. 1e6, and only then opens the disparity map. If that
    loads, the masked disparity map is written in tiles of at most 512 by
    512 and its name is returned. If it does not, the error of the
    disparity map is thrown with the debug masks already on disk and no
    output written. *)
Theorem pre_filtering_hook_masking :
  forall (D : Type) (ops : DoubleOps D) (vw : VisionWorkbench D)
         (masking : DisparityMasking D)
         (self : StereoSessionIsis) (settings : StereoSettings)
         (input_file : string) (w : World) (t : list FilterEvent)
         (left_image right_image Lmask Rmask : Image),
    mask_flatfield settings = true ->
    files w !! m_left_image_file self = Some (ImageFile left_image) ->
    files w !! m_right_image_file self = Some (ImageFile right_image) ->
    files w !! (m_out_prefix self +:+ "-lMask.tif") = Some (ImageFile Lmask) ->
    files w !! (m_out_prefix self +:+ "-rMask.tif") = Some (ImageFile Rmask) ->
    let Lmask' :=
      mask_black_pixels (clamp left_image dzero (of_int 1000000)) Lmask in
    let Rmask' :=
      mask_black_pixels (clamp right_image dzero (of_int 1000000)) Rmask in
    let masks :=
      <[m_out_prefix self +:+ "-rMaskDebug.tif" := ImageFile Rmask']>
        (<[m_out_prefix self +:+ "-lMaskDebug.tif" := ImageFile Lmask']> (files w)) in
    let opened :=
      [SayMaskingPixels;
       SessionEvent (OpenImage (m_left_image_file self));
       SessionEvent (OpenImage (m_right_image_file self));
       SessionEvent (OpenImage (m_out_prefix self +:+ "-lMask.tif"));
       SessionEvent (OpenImage (m_out_prefix self +:+ "-rMask.tif"));
       SessionEvent (WriteImage (m_out_prefix self +:+ "-lMaskDebug.tif"));
       SessionEvent (WriteImage (m_out_prefix self +:+ "-rMaskDebug.tif"));
       SessionEvent (OpenImage input_file)] in
    let r := pre_filtering_hook self settings input_file (w, t) in
    match masks !! input_file with
    | Some (DisparityFile d) =>
        let masked := disparity_mask d Lmask' Rmask' in
        fst r = Done (m_out_prefix self +:+ "-R-masked.exr") /\
        files (fst (snd r))
          = <[m_out_prefix self +:+ "-R-masked.exr" := DisparityFile masked]> masks /\
        snd (snd r)
          = t ++ opened ++
            [SetTiledWrite (m_out_prefix self +:+ "-R-masked.exr")
               (Z.min 512 (disparity_cols masked))
               (Z.min 512 (disparity_rows masked));
             SessionEvent (WriteImage (m_out_prefix self +:+ "-R-masked.exr"))]
    | _ =>
        fst r = Stopped (Raised (IOErr input_file)) /\
        files (fst (snd r)) = masks /\
        snd (snd r) = t ++ opened
    end.
Proof.
  intros D ops vw masking self settings input_file w t left_image right_image
    Lmask Rmask Hon Hl Hr HL HR Lmask' Rmask' masks opened r.
  subst r. unfold pre_filtering_hook. rewrite Hon. filter_run.
  rewrite Hl. filter_run. rewrite Hr. filter_run.
  rewrite HL. filter_run. rewrite HR. filter_run.
  fold Lmask' Rmask'. fold masks.
  destruct (masks !! input_file) as [[| | | |d]|]; filter_run;
    rewrite <- ?app_assoc; simpl; done.
Qed.

Lemma pre_filtering_hook_masking_witness :
  fst (pre_filtering_hook (ops := float_ops) (masking := sample_masking)
         sample_session masking_settings "out-F.exr" (masking_world, []))
  = Done "out-R-masked.exr".
Proof.
  exact (proj1 (pre_filtering_hook_masking float float_ops sample_vw sample_masking
                  sample_session masking_settings "out-F.exr" masking_world []
                  (100, 80, sample_projection)%Z (100, 80, sample_projection)%Z
                  (100, 80, sample_projection)%Z (100, 80, sample_projection)%Z
                  eq_refl eq_refl eq_refl eq_refl eq_refl)).
Defined.

(** ** The choice of the camera model *)

Section CameraFacts.
Context {reader : EquationReader}.

Lemma to_lower_copy_app (a b : string) :
  to_lower_copy (a +:+ b) = to_lower_copy a +:+ to_lower_copy b.
Proof. induction a as [|c a IH]; simpl; [done|]. by rewrite IH. Qed.

Lemma to_lower_copy_length (s : string) :
  String.length (to_lower_copy s) = String.length s.
Proof. induction s as [|c s IH]; simpl; [done|]. by rewrite IH. Qed.

Lemma app_length_string (a b : string) :
  String.length (a +:+ b) = (String.length a + String.length b)%nat.
Proof. induction a as [|c a IH]; simpl; [done|]. by rewrite IH. Qed.

Lemma substring_full (s : string) : substring 0 (String.length s) s = s.
Proof. induction s as [|c s IH]; simpl; [done|]. by rewrite IH. Qed.

Lemma substring_skip (a b : string) (m : nat) :
  substring (String.length a) m (a +:+ b) = substring 0 m b.
Proof. induction a as [|c a IH]; simpl; [done|]. exact IH. Qed.

Lemma ends_with_app (a t : string) : ends_with (a +:+ t) t = true.
Proof.
  unfold ends_with. rewrite app_length_string.
  replace (String.length a + String.length t - String.length t)%nat
    with (String.length a) by lia.
  rewrite substring_skip, substring_full, String.eqb_refl.
  rewrite andb_true_r. apply Nat.leb_le. lia.
Qed.

(** A string is its first [n] characters followed by the rest. *)
Lemma substring_split (s : string) (n : nat) :
  (n <= String.length s)%nat ->
  s = substring 0 n s +:+ substring n (String.length s - n) s.
Proof.
  revert n. induction s as [|c s IH]; intros n Hn; simpl in *.
  - by destruct n.
  - destruct n as [|n]; simpl.
    + by rewrite substring_full.
    + rewrite (IH n) at 1 by lia. reflexivity.
Qed.

Lemma to_lower_copy_substring (s : string) (n m : nat) :
  to_lower_copy (substring n m s) = substring n m (to_lower_copy s).
Proof.
  revert n m. induction s as [|c s IH]; intros n m; simpl.
  - by destruct n, m.
  - destruct n as [|n]; [destruct m as [|m]|]; simpl; [done | by rewrite IH | apply IH].
Qed.

Lemma ends_with_split (s t : string) :
  ends_with (to_lower_copy s) t = true ->
  exists stem suffix, s = stem +:+ suffix /\ to_lower_copy suffix = t.
Proof.
  unfold ends_with. rewrite to_lower_copy_length.
  intros H. apply andb_true_iff in H as (Hle & Heq).
  apply Nat.leb_le in Hle. apply String.eqb_eq in Heq.
  exists (substring 0 (String.length s - String.length t) s),
         (substring (String.length s - String.length t) (String.length t) s).
  split.
  - rewrite (substring_split s (String.length s - String.length t)) at 1 by lia.
    do 2 f_equal. lia.
  - by rewrite to_lower_copy_substring.
Qed.
End CameraFacts.

(** X22. [camera_model] chooses the adjusted camera exactly for the camera
    files whose name ends in [.isis_adjust] written in any mix of upper and
    lower case. For such a file it announces the file under the name as
    given, reads the position equation and then the pose equation from one
    stream over that file, the second from where the first read stopped,
    and lets an exception of either read through. For any other name it
    returns the standard camera of the image and does not look at the
    camera file. *)
Theorem camera_model_selection :
  forall (reader : EquationReader) (image_file camera_file : string),
    let adjusted :=
      exists stem suffix,
        camera_file = stem +:+ suffix /\ to_lower_copy suffix = ".isis_adjust" in
    (adjusted ->
     camera_model image_file camera_file
     = ([UsingAdjustedIsisCameraModel camera_file],
        match read_equation (ifstream camera_file) with
        | Thrown e => Thrown e
        | Returned (posF, rest) =>
            match read_equation rest with
            | Thrown e => Thrown e
            | Returned (poseF, _) =>
                Returned (IsisAdjustCameraModel image_file posF poseF)
            end
        end)) /\
    (~ adjusted ->
     camera_model image_file camera_file
     = ([UsingStandardIsisCameraModel image_file],
        Returned (IsisCameraModel image_file))).
Proof.
  intros reader image_file camera_file adjusted. subst adjusted. split.
  - intros (stem & suffix & -> & Hs). unfold camera_model.
    rewrite to_lower_copy_app, Hs, ends_with_app.
    destruct (read_equation (ifstream (stem +:+ suffix))) as [[posF rest]|e]; [|done].
    by destruct (read_equation rest) as [[poseF rest']|e].
  - intros Hno. unfold camera_model.
    destruct (ends_with (to_lower_copy camera_file) ".isis_adjust") eqn:E; [|done].
    destruct Hno. by apply ends_with_split.
Qed.
